(** * ipywidgets/widgets/interaction.py: abbreviations, controls and the
      interact callback, as a shallow embedding.

    Python integers are [Z]; Python floats are IEEE-754 binary64 values
    ([spec_float] with precision 53 and maximal exponent 1024, the executable
    specification of the Standard Library).  Objects with mutable attributes
    (widgets, [fixed] wrappers) live in a store and are passed by reference. *)

From Stdlib Require Import ZArith List String Bool Lia.
From Stdlib Require Import Floats.SpecFloat.
Import ListNotations.
Local Open Scope string_scope.
Local Open Scope Z_scope.

(** ** Exceptions and results *)

Inductive exc_type :=
| ValueError | TypeError | AttributeError | OverflowError
| ZeroDivisionError | UnboundLocalError
| KeyboardInterrupt | SystemExit
| UserException (name : string)        (* a subclass of Exception *)
| UserBaseException (name : string).   (* derives from BaseException only *)

Record exn := Exn { exn_type : exc_type; exn_msg : string }.

(** [isinstance(e, Exception)]. *)
Definition is_Exception (e : exn) : bool :=
  match exn_type e with
  | KeyboardInterrupt | SystemExit | UserBaseException _ => false
  | _ => true
  end.

Inductive result (A : Type) :=
| Ok (a : A)
| Raise (e : exn).
Arguments Ok {A} a.
Arguments Raise {A} e.

Definition rbind {A B} (r : result A) (k : A -> result B) : result B :=
  match r with Ok a => k a | Raise e => Raise e end.

Declare Scope res_scope.
Delimit Scope res_scope with res.
Notation "'let?' x ':=' r 'in' k" := (rbind r (fun x => k))
  (at level 10, x pattern, r at level 100, k at level 200) : res_scope.

(** ** Python numbers: [int] and [float] *)

Module PyNum.

Definition prec : Z := 53.
Definition emax : Z := 1024.
Definition float := spec_float.

Definition fadd : float -> float -> float := SFadd prec emax.
Definition fsub : float -> float -> float := SFsub prec emax.
Definition fmul : float -> float -> float := SFmul prec emax.
Definition fdiv : float -> float -> float := SFdiv prec emax.

Inductive pynum :=
| PInt (z : Z)
| PFloat (f : float).

(** *** Correctly rounded quotient of two positive integers.

    CPython's [int / int] and [float(int)] return the binary64 value nearest
    to the exact result (ties to even) and raise [OverflowError] when that
    value is out of range.  [round_ratio a b] is that value for [a/b] with
    [0 <= a], [0 < b], as mantissa and exponent: [m * 2^u]. *)

Definition num_at (a u : Z) : Z := if 0 <=? u then a else a * 2 ^ (- u).
Definition den_at (b u : Z) : Z := if 0 <=? u then b * 2 ^ u else b.

(** [2 ^ ratio_log2 a b <= a / b < 2 ^ (ratio_log2 a b + 1)] for [0 < a]. *)
Definition ratio_log2 (a b : Z) : Z :=
  let k := Z.log2 a - Z.log2 b in
  if den_at b k <=? num_at a k then k else k - 1.

Definition ratio_exp (a b : Z) : Z := Z.max (ratio_log2 a b - 52) (-1074).

Definition round_half_even (n d : Z) : Z :=
  let q := n / d in
  let r := n mod d in
  match 2 * r ?= d with
  | Lt => q
  | Eq => if Z.even q then q else q + 1
  | Gt => q + 1
  end.

Definition round_ratio (a b : Z) : Z * Z :=
  let u := ratio_exp a b in
  (round_half_even (num_at a u) (den_at b u), u).

(** The float with sign [s] and magnitude [m * 2^u], or [None] when the
    magnitude reaches [2^1024]. *)
Definition float_of_mant (s : bool) (m u : Z) : option float :=
  match m with
  | Zpos p =>
      if 1024 <? Z.log2 m + 1 + u then None
      else if m =? 2 ^ 53 then Some (S754_finite s (Z.to_pos (2 ^ 52)) (u + 1))
      else Some (S754_finite s p u)
  | _ => Some (S754_zero s)
  end.

Definition overflow (msg : string) : exn := Exn OverflowError msg.

(** [a / b] for integers ([from __future__ import division]). *)
Definition int_truediv (a b : Z) : result float :=
  if b =? 0 then Raise (Exn ZeroDivisionError "division by zero")
  else if a =? 0 then Ok (S754_zero (b <? 0))
  else
    let s := xorb (a <? 0) (b <? 0) in
    let '(m, u) := round_ratio (Z.abs a) (Z.abs b) in
    match float_of_mant s m u with
    | Some f => Ok f
    | None => Raise (overflow "integer division result too large for a float")
    end.

(** [float(a)], the implicit conversion in mixed arithmetic. *)
Definition int_to_float (a : Z) : result float :=
  if a =? 0 then Ok (S754_zero false)
  else
    let '(m, u) := round_ratio (Z.abs a) 1 in
    match float_of_mant (a <? 0) m u with
    | Some f => Ok f
    | None => Raise (overflow "int too large to convert to float")
    end.

(** [int(f)]: truncation toward zero. *)
Definition float_to_int (f : float) : result Z :=
  match f with
  | S754_zero _ => Ok 0
  | S754_infinity _ =>
      Raise (overflow "cannot convert float infinity to integer")
  | S754_nan => Raise (Exn ValueError "cannot convert float NaN to integer")
  | S754_finite s m e =>
      let mag := if 0 <=? e then Zpos m * 2 ^ e else Zpos m / 2 ^ (- e) in
      Ok (if s then - mag else mag)
  end.

(** Exact comparison of an integer with a float; [None] for NaN. *)
Definition cmp_int_float (z : Z) (f : float) : option comparison :=
  match f with
  | S754_nan => None
  | S754_infinity s => Some (if s then Gt else Lt)
  | S754_zero _ => Some (z ?= 0)
  | S754_finite s m e =>
      let v := if s then Zneg m else Zpos m in
      Some (if 0 <=? e then z ?= v * 2 ^ e else z * 2 ^ (- e) ?= v)
  end.

Definition py_compare (x y : pynum) : option comparison :=
  match x, y with
  | PInt a, PInt b => Some (a ?= b)
  | PFloat a, PFloat b => SFcompare a b
  | PInt a, PFloat b => cmp_int_float a b
  | PFloat a, PInt b => option_map CompOpp (cmp_int_float b a)
  end.

Definition py_gt (x y : pynum) : bool :=
  match py_compare x y with Some Gt => true | _ => false end.
Definition py_le (x y : pynum) : bool :=
  match py_compare x y with Some (Lt | Eq) => true | _ => false end.
Definition py_eq (x y : pynum) : bool :=
  match py_compare x y with Some Eq => true | _ => false end.

Local Open Scope res_scope.

(** Binary arithmetic: exact on two ints, binary64 otherwise after
    converting the int operand. *)
Definition arith (zop : Z -> Z -> Z) (fop : float -> float -> float)
    (x y : pynum) : result pynum :=
  match x, y with
  | PInt a, PInt b => Ok (PInt (zop a b))
  | PFloat a, PFloat b => Ok (PFloat (fop a b))
  | PInt a, PFloat b => let? a' := int_to_float a in Ok (PFloat (fop a' b))
  | PFloat a, PInt b => let? b' := int_to_float b in Ok (PFloat (fop a b'))
  end.

Definition py_add := arith Z.add fadd.
Definition py_sub := arith Z.sub fsub.
Definition py_mul := arith Z.mul fmul.

Definition py_neg (x : pynum) : pynum :=
  match x with
  | PInt a => PInt (- a)
  | PFloat a => PFloat (SFopp a)
  end.

Definition float_is_zero (f : float) : bool :=
  match f with S754_zero _ => true | _ => false end.

Definition float_truediv (a b : float) : result float :=
  if float_is_zero b then Raise (Exn ZeroDivisionError "float division by zero")
  else Ok (fdiv a b).

(** [x / y] *)
Definition py_truediv (x y : pynum) : result pynum :=
  match x, y with
  | PInt a, PInt b => let? f := int_truediv a b in Ok (PFloat f)
  | PFloat a, PFloat b => let? f := float_truediv a b in Ok (PFloat f)
  | PInt a, PFloat b =>
      let? a' := int_to_float a in
      let? f := float_truediv a' b in Ok (PFloat f)
  | PFloat a, PInt b =>
      let? b' := int_to_float b in
      let? f := float_truediv a b' in Ok (PFloat f)
  end.

(** [x // y].  The module only floor-divides where the true quotient had a
    type other than the dividend's, that is on integers; the float case is
    left out of the model and never reached (see [floordiv_only_on_ints]). *)
Definition float_floordiv_exn : exn :=
  Exn TypeError "float floor division is outside the model".

Definition py_floordiv (x y : pynum) : result pynum :=
  match x, y with
  | PInt a, PInt b =>
      if b =? 0 then
        Raise (Exn ZeroDivisionError "integer division or modulo by zero")
      else Ok (PInt (a / b))
  | _, _ => Raise float_floordiv_exn
  end.

(** [int(x)] *)
Definition py_int (x : pynum) : result Z :=
  match x with
  | PInt a => Ok a
  | PFloat f => float_to_int f
  end.

(** [isinstance(x, type(y))] on numbers. *)
Definition same_type (x y : pynum) : bool :=
  match x, y with
  | PInt _, PInt _ | PFloat _, PFloat _ => true
  | _, _ => false
  end.

Definition is_Integral (x : pynum) : bool :=
  match x with PInt _ => true | PFloat _ => false end.

End PyNum.
Import PyNum.

(** The quotient of two positive integers by the Standard Library's binary64
    specification ([SFdiv] on unnormalised operands), to check the rounding
    model against. *)
Definition ref_div (a b : Z) : float :=
  SFdiv prec emax (S754_finite false (Z.to_pos a) 0)
                  (S754_finite false (Z.to_pos b) 0).

Definition float_same (f g : float) : bool :=
  match f, g with
  | S754_finite s m e, S754_finite s' m' e' =>
      Bool.eqb s s' && (Zpos m =? Zpos m') && (e =? e')
  | S754_zero s, S754_zero s' => Bool.eqb s s'
  | S754_infinity s, S754_infinity s' => Bool.eqb s s'
  | S754_nan, S754_nan => true
  | _, _ => false
  end.

Definition agrees (a b : Z) : bool :=
  match int_truediv a b, ref_div a b with
  | Ok f, g => float_same f g
  | Raise _, S754_infinity _ => true
  | _, _ => false
  end.

(** ** Python values *)

(** A reference into the store of objects. *)
Abbreviation ref := nat (only parsing).

(** The values the module is followed on.  The numbers among them are
    [bool], [int] and [float], the instances of [numbers.Real] the language
    itself has; instances of other [Real] types ([fractions.Fraction], the
    scalars of numerical libraries), whose arithmetic is their own, are not
    values of the model.  An iterable that is none of the containers named
    here is a [VIterable], sized (a set, a range, ...: false when empty) or
    not (a generator: always true).  [VOpaque] stands for any object that is
    nothing of all this: no number, no string, not iterable, no widget and no
    [fixed] wrapper, and with the truth value that objects have by
    default. *)
#[local] Unset Elimination Schemes.
Inductive pyval :=
| VEmpty                               (* inspect.Parameter.empty *)
| VNone
| VBool (b : bool)
| VInt (z : Z)
| VFloat (f : float)
| VStr (s : string)
| VTuple (l : list pyval)
| VList (l : list pyval)
| VDict (d : list (pyval * pyval))     (* dict, in iteration order *)
| VMapping (d : list (pyval * pyval))  (* a Mapping that is not a dict *)
| VIterable (sized : bool) (l : list pyval)  (* set, range, generator, ... *)
| VObj (r : ref)                       (* a widget or a [fixed] wrapper *)
| VOpaque (id : nat).                  (* an object that is none of these *)
#[local] Set Elimination Schemes.

(** [v is empty] *)
Definition is_empty (v : pyval) : bool :=
  match v with VEmpty => true | _ => false end.

(** [isinstance(v, Real)] on the values of the model, with the number;
    [bool] is a subclass of [int]. *)
Definition as_real (v : pyval) : option pynum :=
  match v with
  | VBool b => Some (PInt (if b then 1 else 0))
  | VInt z => Some (PInt z)
  | VFloat f => Some (PFloat f)
  | _ => None
  end.

Definition of_num (x : pynum) : pyval :=
  match x with PInt z => VInt z | PFloat f => VFloat f end.

Definition is_Iterable (v : pyval) : bool :=
  match v with
  | VStr _ | VTuple _ | VList _ | VDict _ | VMapping _ | VIterable _ _ =>
      true
  | _ => false
  end.

(** Truth value of an object, as [if v:] tests it: a number is false when
    it is zero, a sized container when it is empty; [None] is false; every
    other object (a generator, the [empty] marker, a widget, an opaque
    object) is true. *)
Definition truthy (v : pyval) : bool :=
  match v with
  | VNone => false
  | VBool b => b
  | VInt z => negb (z =? 0)
  | VFloat f => negb (float_is_zero f)
  | VStr s => negb (String.eqb s "")
  | VTuple l | VList l => negb (Nat.eqb (List.length l) 0)
  | VDict d | VMapping d => negb (Nat.eqb (List.length d) 0)
  | VIterable sized l => negb (sized && Nat.eqb (List.length l) 0)
  | VEmpty | VObj _ | VOpaque _ => true
  end.

(** ** Keyword-argument dictionaries: string keys in insertion order *)

Definition dict := list (string * pyval).

Fixpoint dict_get (k : string) (d : dict) : option pyval :=
  match d with
  | [] => None
  | (k', v) :: t => if String.eqb k k' then Some v else dict_get k t
  end.

(** [d.pop(k)]: the dictionary without key [k]. *)
Fixpoint dict_pop (k : string) (d : dict) : dict :=
  match d with
  | [] => []
  | (k', v) :: t =>
      if String.eqb k k' then dict_pop k t else (k', v) :: dict_pop k t
  end.

(** [d[k] = v]: an existing key keeps its position. *)
Fixpoint dict_set (k : string) (v : pyval) (d : dict) : dict :=
  match d with
  | [] => [(k, v)]
  | (k', v') :: t =>
      if String.eqb k k' then (k', v) :: t else (k', v') :: dict_set k v t
  end.

(** [d.pop(k, default)] *)
Definition dict_pop_default (k : string) (default : pyval) (d : dict)
  : pyval * dict :=
  match dict_get k d with
  | Some v => (v, dict_pop k d)
  | None => (default, d)
  end.

(** ** Function parameters ([inspect.Parameter]) *)

Inductive param_kind :=
| POSITIONAL_ONLY | POSITIONAL_OR_KEYWORD | VAR_POSITIONAL
| KEYWORD_ONLY | VAR_KEYWORD.

Record Param := {   (* inspect.Parameter; the name is reserved here *)
  name : string;
  kind : param_kind;
  annotation : pyval;   (* [VEmpty] when absent *)
  default : pyval       (* [VEmpty] when absent *)
}.

(** A (name, abbreviation, default) triple. *)
Definition triple := (string * pyval * pyval)%type.

(** ** Generators

    What a generator over the keyword dictionary does when it is driven to
    its end: each [yield] with the dictionary as the generator left it, then
    a normal return or an exception. *)
Inductive gen :=
| GYield (t : triple) (kwargs : dict) (rest : gen)
| GReturn (kwargs : dict)
| GRaise (e : exn) (kwargs : dict).

(** [for k, v in kwargs.copy().items(): kwargs.pop(k); yield k, v, empty] *)
Fixpoint yield_var_keyword (items : dict) (kwargs : dict) : gen :=
  match items with
  | [] => GReturn kwargs
  | (k, v) :: t =>
      let kwargs' := dict_pop k kwargs in
      GYield (k, v, VEmpty) kwargs' (yield_var_keyword t kwargs')
  end.

Definition _yield_abbreviations_for_parameter (param : Param)
    (kwargs : dict) : gen :=
  let not_found := (name param, VEmpty, VEmpty) in
  match kind param with
  | POSITIONAL_OR_KEYWORD | KEYWORD_ONLY =>
      match dict_get (name param) kwargs with
      | Some value =>
          let kwargs' := dict_pop (name param) kwargs in
          GYield (name param, value, default param) kwargs' (GReturn kwargs')
      | None =>
          if negb (is_empty (annotation param)) then
            GYield (name param, annotation param, default param) kwargs
              (GReturn kwargs)
          else if negb (is_empty (default param)) then
            GYield (name param, default param, default param) kwargs
              (GReturn kwargs)
          else
            (* after [yield not_found] the next statement reads the
               unassigned local [value] *)
            GYield not_found kwargs
              (GRaise (Exn UnboundLocalError "value") kwargs)
      end
  | VAR_KEYWORD => yield_var_keyword kwargs kwargs
  | _ => GReturn kwargs
  end.

(** ** Target functions

    The callable is opaque: what the module learns about it comes from
    [inspect] and from calling it. *)
Inductive event :=
| EDisabled (button : ref) (b : bool)   (* manual_button.disabled = b *)
| EOutEnter | EOutExit                  (* with self.out: *)
| EClearOutput                          (* clear_output(wait=True) *)
| ECall (kwargs : dict)                 (* self.f called with self.kwargs *)
| EDisplay (v : pyval)                  (* display(self.result) *)
| EShowTraceback (e : exn)              (* ip.showtraceback() *)
| ELogWarn (e : exn).                   (* self.log.warn(...) *)

Record pyfunction := {
  f_name : string;
  (** [inspect.signature(f)]; [None] when it raises ValueError or TypeError *)
  f_signature : option (list Param);
  (** does [check_argspec(f)] return (rather than raise TypeError)? *)
  f_argspec : bool;
  (** [inspect.getcallargs] on [f] and keywords [kw]: the TypeError it raises, if any *)
  f_getcallargs : dict -> option exn;
  (** [f] called with keywords [kw], given the events so far *)
  f_call : list event -> dict -> result pyval
}.

Definition no_abbreviation (n : string) : exn :=
  Exn ValueError
      ("cannot find widget or abbreviation for argument: '" ++ n ++ "'").

(** The inner [for] loop of [find_abbreviations] over one generator. *)
Fixpoint collect (g : gen) (new_kwargs : list triple)
  : result (list triple * dict) :=
  match g with
  | GYield (n, value, dflt) _ rest =>
      if is_empty value then Raise (no_abbreviation n)
      else collect rest (new_kwargs ++ [(n, value, dflt)])
  | GReturn kwargs => Ok (new_kwargs, kwargs)
  | GRaise e _ => Raise e
  end.

Local Open Scope res_scope.

Fixpoint find_abbreviations_loop (params : list Param) (kwargs : dict)
    (new_kwargs : list triple) : result (list triple * dict) :=
  match params with
  | [] => Ok (new_kwargs, kwargs)
  | param :: rest =>
      let? (new_kwargs', kwargs') :=
        collect (_yield_abbreviations_for_parameter param kwargs) new_kwargs in
      find_abbreviations_loop rest kwargs' new_kwargs'
  end.

Definition find_abbreviations (f : pyfunction) (kwargs : dict)
  : result (list triple) :=
  match f_signature f with
  | None => Ok (map (fun '(key, value) => (key, value, value)) kwargs)
  | Some params =>
      let? (new_kwargs, _) := find_abbreviations_loop params kwargs [] in
      Ok new_kwargs
  end.

(** ** Number inference for sliders *)

(** [_matches(o, (Real, ..., Real))] with [n] entries in the pattern. *)
Definition _matches (o : list pyval) (n : nat) : bool :=
  Nat.eqb (List.length o) n
  && forallb (fun v => match as_real v with Some _ => true | None => false end) o.

Definition max_not_greater : exn :=
  Exn ValueError "max must be greater than min".
Definition unable_to_infer : exn :=
  Exn ValueError "unable to infer range, value".
Definition none_not_ordered : exn :=
  Exn TypeError "'>' not supported between instances of NoneType".

(** [_get_min_max_value(min, max, value=None, step=None)]; an argument that
    is [None] in Python is [None] here.  The callers pass real numbers only,
    so the test [isinstance(value, Real)] holds by typing. *)
Definition _get_min_max_value (min max value step : option pynum)
  : result (pynum * pynum * pynum) :=
  let? (min, max, value) :=
    match value with
    | None =>
        match min, max with
        | Some min, Some max =>
            if negb (py_gt max min) then Raise max_not_greater
            else
              let? diff := py_sub max min in
              let? half := py_truediv diff (PInt 2) in
              let? value := py_add min half in
              (* Ensure that value has the same type as diff *)
              if negb (same_type value diff) then
                let? half := py_floordiv diff (PInt 2) in
                let? value := py_add min half in
                Ok (min, max, value)
              else Ok (min, max, value)
        | _, _ => Raise none_not_ordered
        end
    | Some value =>
        match min, max with
        | None, None =>
            if py_eq value (PInt 0) then
              let? value1 := py_add value (PInt 1) in
              Ok (value, value1, value)
            else if py_gt value (PInt 0) then
              let? value3 := py_mul (PInt 3) value in
              Ok (py_neg value, value3, value)
            else
              let? value3 := py_mul (PInt 3) value in
              Ok (value3, py_neg value, value)
        | _, _ => Raise unable_to_infer
        end
    end in
  match step with
  | Some step =>
      (* ensure value is on a step *)
      let? d := py_sub value min in
      let? q := py_truediv d step in
      let? tick := py_int q in
      let? ts := py_mul (PInt tick) step in
      let? value := py_add min ts in
      Ok (min, max, value)
  | None => Ok (min, max, value)
  end.

(** ** Widgets and the object store *)

Inductive wclass :=
| Text | Checkbox | IntSlider | FloatSlider | Dropdown   (* value widgets *)
| Button | Output                                        (* other DOM widgets *)
| fixed.                                                 (* HasTraits only *)

Definition is_ValueWidget (c : wclass) : bool :=
  match c with
  | Text | Checkbox | IntSlider | FloatSlider | Dropdown => true
  | _ => false
  end.

Definition is_DOMWidget (c : wclass) : bool :=
  match c with fixed => false | _ => true end.

Definition is_Text (c : wclass) : bool :=
  match c with Text => true | _ => false end.

Definition is_fixed (c : wclass) : bool :=
  match c with fixed => true | _ => false end.

Record widget := {
  cls : wclass;
  value : pyval;
  w_min : option pynum;
  w_max : option pynum;
  w_step : option pynum;
  options : list pyval;
  description : string;
  _kwarg : option string;
  disabled : bool
}.

Definition store := list widget.

(** Computations on the store that may raise. *)
Definition M (A : Type) : Type := store -> result A * store.

Definition ret {A} (a : A) : M A := fun st => (Ok a, st).
Definition throw {A} (e : exn) : M A := fun st => (Raise e, st).
Definition bind {A B} (m : M A) (k : A -> M B) : M B :=
  fun st => match m st with
            | (Ok a, st') => k a st'
            | (Raise e, st') => (Raise e, st')
            end.
Definition lift {A} (r : result A) : M A := fun st => (r, st).

Declare Scope m_scope.
Delimit Scope m_scope with M.
Notation "'do' x '<-' m ';' k" := (bind m (fun x => k))
  (at level 10, x pattern, m at level 100, k at level 200) : m_scope.

Definition alloc (w : widget) : M ref :=
  fun st => (Ok (List.length st), (st ++ [w])%list).

Definition lookup (r : ref) : M widget :=
  fun st => match nth_error st r with
            | Some w => (Ok w, st)
            | None => (Raise (Exn AttributeError "dangling reference"), st)
            end.

Fixpoint list_update {A} (l : list A) (i : nat) (f : A -> A) : list A :=
  match l, i with
  | [], _ => []
  | x :: t, O => f x :: t
  | x :: t, S i' => x :: list_update t i' f
  end.

Definition update (r : ref) (f : widget -> widget) : M unit :=
  fun st => (Ok tt, list_update st r f).

Definition set_description (s : string) (w : widget) : widget :=
  {| cls := cls w; value := value w; w_min := w_min w; w_max := w_max w;
     w_step := w_step w; options := options w; description := s;
     _kwarg := _kwarg w; disabled := disabled w |}.

Definition set_kwarg (n : string) (w : widget) : widget :=
  {| cls := cls w; value := value w; w_min := w_min w; w_max := w_max w;
     w_step := w_step w; options := options w; description := description w;
     _kwarg := Some n; disabled := disabled w |}.

Definition set_disabled (b : bool) (w : widget) : widget :=
  {| cls := cls w; value := value w; w_min := w_min w; w_max := w_max w;
     w_step := w_step w; options := options w; description := description w;
     _kwarg := _kwarg w; disabled := b |}.

Definition set_value (v : pyval) (w : widget) : widget :=
  {| cls := cls w; value := v; w_min := w_min w; w_max := w_max w;
     w_step := w_step w; options := options w; description := description w;
     _kwarg := _kwarg w; disabled := disabled w |}.

(** *** The control toolkit

    The widget classes are imported from the rest of the package; their
    constructors and trait setters are modelled from the specification's
    control descriptor. *)

Definition blank (c : wclass) (v : pyval) : widget :=
  {| cls := c; value := v; w_min := None; w_max := None; w_step := None;
     options := []; description := ""; _kwarg := None; disabled := false |}.

(** Modelled from the spec: the text control seeded with a string. *)
Definition new_Text (s : string) : M ref := alloc (blank Text (VStr s)).

(** Modelled from the spec: the boolean toggle seeded with a value. *)
Definition new_Checkbox (b : bool) : M ref := alloc (blank Checkbox (VBool b)).

(** Modelled from the spec: a range control holds the value, bounds and step
    it is built with. *)
Definition new_slider (c : wclass) (v mn mx : pynum) (st : option pynum)
  : M ref :=
  alloc {| cls := c; value := of_num v; w_min := Some mn; w_max := Some mx;
           w_step := st; options := []; description := ""; _kwarg := None;
           disabled := false |}.

(** The value an option stands for: the second component of a
    (label, value) pair, the option itself otherwise. *)
Definition option_value (o : pyval) : pyval :=
  match o with
  | VTuple [_; v] => v
  | _ => o
  end.

(** Modelled from the spec: a choice control takes a sequence as its option
    list and a name-to-value mapping as the (name, value) pairs in the
    mapping's iteration order; the first option is selected. *)
Definition dropdown_options (o : pyval) : list pyval :=
  match o with
  | VList l | VTuple l | VIterable _ l => l
  | VDict d | VMapping d => map (fun '(k, v) => VTuple [k; v]) d
  | _ => []
  end.

Definition new_Dropdown (o : pyval) : M ref :=
  let opts := dropdown_options o in
  alloc {| cls := Dropdown;
           value := match opts with [] => VNone | x :: _ => option_value x end;
           w_min := None; w_max := None; w_step := None; options := opts;
           description := ""; _kwarg := None; disabled := false |}.

(** Modelled from the spec: the trigger button and the output sink. *)
Definition blank_button (descr : string) : widget :=
  {| cls := Button; value := VNone; w_min := None; w_max := None;
     w_step := None; options := []; description := descr;
     _kwarg := None; disabled := false |}.
Definition new_Button (descr : string) : M ref := alloc (blank_button descr).
Definition new_Output : M ref := alloc (blank Output VNone).

(** [fixed(value)] *)
Definition new_fixed (v : pyval) : M ref := alloc (blank fixed v).

(** Structural equality of values, for membership among a control's
    options. *)
Fixpoint pyval_eqb (x y : pyval) {struct x} : bool :=
  let fix all2 (l l' : list pyval) {struct l} : bool :=
    match l, l' with
    | [], [] => true
    | a :: t, b :: t' => pyval_eqb a b && all2 t t'
    | _, _ => false
    end in
  let fix all2p (d d' : list (pyval * pyval)) {struct d} : bool :=
    match d, d' with
    | [], [] => true
    | (k, v) :: t, (k', v') :: t' =>
        pyval_eqb k k' && pyval_eqb v v' && all2p t t'
    | _, _ => false
    end in
  match x, y with
  | VEmpty, VEmpty | VNone, VNone => true
  | VBool a, VBool b => Bool.eqb a b
  | VInt a, VInt b => a =? b
  | VFloat a, VFloat b => float_same a b
  | VStr a, VStr b => String.eqb a b
  | VTuple l, VTuple l' | VList l, VList l' => all2 l l'
  | VIterable s l, VIterable s' l' => Bool.eqb s s' && all2 l l'
  | VDict d, VDict d' | VMapping d, VMapping d' => all2p d d'
  | VObj a, VObj b | VOpaque a, VOpaque b => Nat.eqb a b
  | _, _ => false
  end.

Definition trait_error : exn := Exn (UserException "TraitError") "value".

(** Modelled from the spec: assigning a control's value is rejected when the
    value does not fit the control (wrong kind, out of bounds, not among the
    options); a [fixed] wrapper takes any value. *)
Definition accepts (w : widget) (v : pyval) : bool :=
  match cls w with
  | IntSlider | FloatSlider =>
      match as_real v, w_min w, w_max w with
      | Some x, Some mn, Some mx =>
          (is_Integral x || match cls w with IntSlider => false | _ => true end)
          && py_le mn x && py_le x mx
      | _, _, _ => false
      end
  | Dropdown => existsb (fun o => pyval_eqb v (option_value o)) (options w)
  | Text => match v with VStr _ => true | _ => false end
  | Checkbox => match v with VBool _ => true | _ => false end
  | _ => true
  end.

(** [widget.value = v] *)
Definition assign_value (r : ref) (v : pyval) : M unit :=
  (do w <- lookup r;
   if accepts w v then update r (set_value v) else throw trait_error)%M.

(** [try: m except Exception: pass] *)
Definition try_pass (m : M unit) : M unit :=
  fun st => match m st with
            | (Raise e, st') =>
                if is_Exception e then (Ok tt, st') else (Raise e, st')
            | r => r
            end.

(** ** Abbreviations to widgets *)

Local Open Scope m_scope.

Definition step_error : exn := Exn ValueError "step must be >= 0".

Definition slider_cls (o : list pynum) : wclass :=
  if forallb is_Integral o then IntSlider else FloatSlider.

(** [interactive.widget_from_tuple(o)]; [None] when it falls off the end. *)
Definition widget_from_tuple (o : list pyval) : M (option ref) :=
  if _matches o 2 then
    match map as_real o with
    | [Some o0; Some o1] =>
        do (min, max, value) <-
          lift (_get_min_max_value (Some o0) (Some o1) None None);
        do w <- new_slider (slider_cls [o0; o1]) value min max None;
        ret (Some w)
    | _ => ret None
    end
  else if _matches o 3 then
    match map as_real o with
    | [Some o0; Some o1; Some step] =>
        if py_le step (PInt 0) then throw step_error
        else
          do (min, max, value) <-
            lift (_get_min_max_value (Some o0) (Some o1) None (Some step));
          do w <- new_slider (slider_cls [o0; o1; step]) value min max
                    (Some step);
          ret (Some w)
    | _ => ret None
    end
  else ret None.

(** [interactive.widget_from_single_value(o)] *)
Definition widget_from_single_value (o : pyval) : M (option ref) :=
  match o with
  | VStr s => do w <- new_Text s; ret (Some w)
  | VBool b => do w <- new_Checkbox b; ret (Some w)
  | VInt z =>
      do (min, max, value) <-
        lift (_get_min_max_value None None (Some (PInt z)) None);
      do w <- new_slider IntSlider (PInt z) min max None;
      ret (Some w)
  | VFloat x =>
      do (min, max, value) <-
        lift (_get_min_max_value None None (Some (PFloat x)) None);
      do w <- new_slider FloatSlider (PFloat x) min max None;
      ret (Some w)
  | _ => ret None
  end.

(** [list(o)] and [list(o.items())] *)
Fixpoint chars (s : string) : list pyval :=
  match s with
  | EmptyString => []
  | String c t => VStr (String c EmptyString) :: chars t
  end.

Definition py_list (o : pyval) : list pyval :=
  match o with
  | VList l | VTuple l | VIterable _ l => l
  | VDict d | VMapping d => map fst d
  | VStr s => chars s
  | _ => []
  end.

Definition items (d : list (pyval * pyval)) : list pyval :=
  map (fun '(k, v) => VTuple [k; v]) d.

(** [interactive.widget_from_iterable(o)] *)
Definition widget_from_iterable (o : pyval) : M ref :=
  match o with
  | VList _ | VDict _ => new_Dropdown o
  | VMapping d => new_Dropdown (VList (items d))
  | _ => new_Dropdown (VList (py_list o))
  end.

(** The attempt to apply a declared default to a fresh widget:
    [if default is not empty: try: widget.value = default
     except Exception: pass].  On [widget = None] the assignment raises
    AttributeError, which the handler swallows too. *)
Definition apply_default (widget : option ref) (default : pyval) : M unit :=
  if negb (is_empty default) then
    try_pass (match widget with
              | Some r => assign_value r default
              | None => throw (Exn AttributeError "value")
              end)
  else ret tt.

(** [isinstance(abbrev, ValueWidget) or isinstance(abbrev, fixed)] *)
Definition is_widget_or_fixed (st : store) (v : pyval) : bool :=
  match v with
  | VObj r =>
      match nth_error st r with
      | Some w => is_ValueWidget (cls w) || is_fixed (cls w)
      | None => false
      end
  | _ => false
  end.

(** [interactive.widget_from_abbrev(abbrev, default)] *)
Definition widget_from_abbrev (abbrev default : pyval) : M (option ref) :=
  fun st =>
    if is_widget_or_fixed st abbrev then
      (Ok (match abbrev with VObj r => Some r | _ => None end), st)
    else
      match abbrev with
      | VTuple o =>
          (do widget <- widget_from_tuple o;
           do _ <- apply_default widget default;
           ret widget) st
      | _ =>
          (* Try single value *)
          (do widget <- widget_from_single_value abbrev;
           match widget with
           | Some _ => ret widget
           | None =>
               if is_Iterable abbrev then
                 do widget <- widget_from_iterable abbrev;
                 do _ <- apply_default (Some widget) default;
                 ret (Some widget)
               else ret None   (* No idea... *)
           end) st
      end.

Definition not_transformable : exn :=
  Exn ValueError "cannot be transformed to a widget".
Definition not_a_ValueWidget : exn := Exn TypeError "is not a ValueWidget".

(** [interactive.widgets_from_abbreviations(seq)] *)
Fixpoint widgets_from_abbreviations_loop (seq : list triple)
    (result : list ref) : M (list ref) :=
  match seq with
  | [] => ret result
  | (name, abbrev, default) :: rest =>
      do widget <- widget_from_abbrev abbrev default;
      match widget with
      | None => throw not_transformable
      | Some r =>
          do w <- lookup r;
          if negb (is_ValueWidget (cls w) || is_fixed (cls w)) then
            throw not_a_ValueWidget
          else
            do _ <- (if String.eqb (description w) ""
                     then update r (set_description name) else ret tt);
            do _ <- update r (set_kwarg name);
            widgets_from_abbreviations_loop rest (result ++ [r])
      end
  end.

Definition widgets_from_abbreviations (seq : list triple) : M (list ref) :=
  widgets_from_abbreviations_loop seq [].

(** ** The interactive container *)

Record interactive := {
  f : pyfunction;
  clear_output : pyval;
  manual : pyval;
  kwargs_widgets : list ref;
  manual_button : option ref;
  out : ref;
  children : list ref;
  self_result : pyval;              (* self.result *)
  self_kwargs : dict;               (* self.kwargs *)
  (** the handlers [__init__] registers, all of them [self.call_f] *)
  on_click : list ref;              (* manual_button.on_click *)
  on_submit : list ref;             (* w.on_submit, text widgets *)
  observed : list ref;              (* widget.observe(..., names='value') *)
  on_displayed : bool               (* self.on_displayed *)
}.

(** [{n: v for n, v, _ in new_kwargs}] *)
Definition call_mapping (new_kwargs : list triple) : dict :=
  fold_left (fun d '(n, v, _) => dict_set n v d) new_kwargs [].

Definition has_class (p : wclass -> bool) (st : store) (r : ref) : bool :=
  match nth_error st r with
  | Some w => p (cls w)
  | None => false
  end.

(** The validation step of [__init__]:
    [try: check_argspec(f) except TypeError: pass
     else: getcallargs(f, ...)] *)
Definition validate_call (f : pyfunction) (new_kwargs : list triple)
  : result unit :=
  if f_argspec f then
    match f_getcallargs f (call_mapping new_kwargs) with
    | Some e => Raise e
    | None => Ok tt
    end
  else Ok tt.   (* if we can't inspect, we can't validate *)

(** [interactive.__init__(self, __interact_f, **kwargs)].  The container is
    the record returned; [Box.__init__] and the unused [self.args] are left
    out. *)
Definition interactive_init (__interact_f : pyfunction) (kwargs : dict)
  : M interactive :=
  let f := __interact_f in
  let '(clear_output, kwargs) :=
    dict_pop_default "clear_output" (VBool true) kwargs in
  let '(manual, kwargs) := dict_pop_default "__manual" (VBool false) kwargs in
  do new_kwargs <- lift (find_abbreviations f kwargs);
  do _ <- lift (validate_call f new_kwargs);
  (* Now build the widgets from the abbreviations. *)
  do kwargs_widgets <- widgets_from_abbreviations new_kwargs;
  do c <- (fun st => (Ok (filter (has_class is_DOMWidget st) kwargs_widgets),
                      st));
  do manual_button <-
    (if truthy manual then
       do b <- new_Button ("Run " ++ f_name f); ret (Some b)
     else ret None);
  let c := match manual_button with Some b => (c ++ [b])%list | None => c end in
  do out <- new_Output;
  let c := (c ++ [out])%list in
  do texts <- (fun st => (Ok (filter (has_class is_Text st) kwargs_widgets),
                          st));
  ret {| f := f; clear_output := clear_output; manual := manual;
         kwargs_widgets := kwargs_widgets; manual_button := manual_button;
         out := out; children := c;
         self_result := VNone; self_kwargs := [];
         on_click := match manual_button with Some b => [b] | None => [] end;
         on_submit := if truthy manual then texts else [];
         observed := if truthy manual then [] else kwargs_widgets;
         on_displayed := negb (truthy manual) |}.

(** ** The callback *)

(** What the callback acts on: the objects, the host's record of what was
    done, whether [get_ipython()] returns a shell, and what the output
    area's context manager does with an exception raised inside
    [with self.out:].  That manager is the toolkit's, and neither the
    source nor the specification says how it leaves the block:
    [swallows e] tells whether it suppresses [e], so that the block ends
    normally, or lets it through. *)
Record world := {
  objs : store;
  trace : list event;
  ip : bool;
  swallows : exn -> bool
}.

Definition emit (e : event) (w : world) : world :=
  {| objs := objs w; trace := (trace w ++ [e])%list; ip := ip w;
     swallows := swallows w |}.

Definition with_objs (st : store) (w : world) : world :=
  {| objs := st; trace := trace w; ip := ip w; swallows := swallows w |}.

(** [widget.get_interact_value()].  Modelled from the spec for value
    widgets: the control's own value-extraction rule yields its current
    value.  The class [fixed] defines [value], [description] and [__init__]
    only, and its base [HasTraits] has no such method. *)
Definition get_interact_value (w : widget) : result pyval :=
  if is_ValueWidget (cls w) then Ok (value w)
  else Raise (Exn AttributeError "get_interact_value").

(** [for widget in self.kwargs_widgets: ...] filling [self.kwargs]. *)
Fixpoint read_widgets (st : store) (ws : list ref) (kwargs : dict)
  : dict * option exn :=
  match ws with
  | [] => (kwargs, None)
  | r :: rest =>
      match nth_error st r with
      | None => (kwargs, Some (Exn AttributeError "dangling reference"))
      | Some widget =>
          match get_interact_value widget with
          | Raise e => (kwargs, Some e)
          | Ok value =>
              match _kwarg widget with
              | None => (kwargs, Some (Exn AttributeError "_kwarg"))
              | Some n => read_widgets st rest (dict_set n value kwargs)
              end
          end
      end
  end.

Definition set_self (c : interactive) (kw : dict) (r : pyval) : interactive :=
  {| f := f c; clear_output := clear_output c; manual := manual c;
     kwargs_widgets := kwargs_widgets c; manual_button := manual_button c;
     out := out c; children := children c;
     self_result := r; self_kwargs := kw;
     on_click := on_click c; on_submit := on_submit c;
     observed := observed c; on_displayed := on_displayed c |}.

Definition set_button (b : ref) (v : bool) (w : world) : world :=
  emit (EDisabled b v) (with_objs (list_update (objs w) b (set_disabled v)) w).

(** The body of the [try] block: the container and world it leaves, and the
    exception that escaped it, if any.  The output area's scope is entered
    and left around the call; an exception raised inside it leaves the block
    unless the area swallows it, and [self.result] is not assigned either
    way. *)
Definition call_f_try (self : interactive) (w : world)
  : interactive * world * option exn :=
  match read_widgets (objs w) (kwargs_widgets self) [] with
  | (kw, Some e) => (set_self self kw (self_result self), w, Some e)
  | (kw, None) =>
      let self := set_self self kw (self_result self) in
      let w := emit EOutEnter w in
      let w := if truthy (clear_output self) then emit EClearOutput w else w in
      match f_call (f self) (trace w) kw with
      | Raise e =>
          (self, emit EOutExit (emit (ECall kw) w),
           if swallows w e then None else Some e)
      | Ok r =>
          let self := set_self self kw r in
          let w := emit (ECall kw) w in
          let w := match r with VNone => w | _ => emit (EDisplay r) w end in
          (self, emit EOutExit w, None)
      end
  end.

(** [except Exception as e:] reports through the shell when there is one,
    through the log otherwise; anything else propagates. *)
Definition call_f_except (w : world) (e : option exn) : world * option exn :=
  match e with
  | None => (w, None)
  | Some e =>
      if is_Exception e then
        (emit (if ip w then EShowTraceback e else ELogWarn e) w, None)
      else (w, Some e)
  end.

(** [interactive.call_f(self, *args)]: the container and world afterwards
    and the exception that propagates to the caller, if any. *)
Definition call_f (self : interactive) (w : world)
  : interactive * world * option exn :=
  let self := set_self self [] (self_result self) in
  let enter :=
    if truthy (manual self) then
      match manual_button self with
      | Some b => Ok (set_button b true w)
      | None => Raise (Exn AttributeError "manual_button")
      end
    else Ok w in
  match enter with
  | Raise e => (self, w, Some e)
  | Ok w =>
      let '(self, w, e) := call_f_try self w in
      let '(w, e) := call_f_except w e in
      (* finally: *)
      let w :=
        if truthy (manual self) then
          match manual_button self with
          | Some b => set_button b false w
          | None => w
          end
        else w in
      (self, w, e)
  end.

(** ** User-facing constructors *)

(** Modelled from the spec: displaying the container runs, once, the hook
    [__init__] registered with [on_displayed], if there is one; the
    rendering itself is the toolkit's and leaves no event here. *)
Definition display_container (c : interactive) (w : world)
  : interactive * world * option exn :=
  if on_displayed c then call_f c w else (c, w, None).

(** What [interact] hands back for a function: the function itself or, when
    no attribute can be set on it, a lambda that wraps it; either carries
    the container as its [widget] attribute. *)
Record decorated := {
  wrapped : bool;
  target : pyfunction;
  widget_attr : interactive
}.

Inductive interact_value :=
| Decorated (d : decorated)
| Decorator (kwargs : dict).            (* the closure [decorate] *)

(** The branch of [interact] for [__interact_f is not None]; [settable]
    tells whether [f.widget = w] succeeds rather than raising
    AttributeError. *)
Definition interact_function (f : pyfunction) (settable : bool)
    (kwargs : dict) (w : world) : result decorated * world :=
  match interactive_init f kwargs (objs w) with
  | (Raise e, st) => (Raise e, with_objs st w)
  | (Ok c, st) =>
      let '(c, w, e) := display_container c (with_objs st w) in
      match e with
      | Some e => (Raise e, w)
      | None =>
          (Ok {| wrapped := negb settable; target := f; widget_attr := c |},
           w)
      end
  end.

(** [interactive.interact(__interact_f=None, **kwargs)] *)
Definition interact (__interact_f : option pyfunction) (settable : bool)
    (kwargs : dict) (w : world) : result interact_value * world :=
  match __interact_f with
  | Some f =>
      let '(r, w) := interact_function f settable kwargs w in
      (match r with Ok d => Ok (Decorated d) | Raise e => Raise e end, w)
  | None => (Ok (Decorator kwargs), w)
  end.

(** [decorate(f)], the closure [interact] returns when it is given no
    function. *)
Definition decorate (kwargs : dict) (f : pyfunction) (settable : bool)
    (w : world) : result interact_value * world :=
  interact (Some f) settable kwargs w.

Definition multiple_values : exn :=
  Exn TypeError "got multiple values for keyword argument '__manual'".

(** [interactive.interact_manual(__interact_f=None, **kwargs)]: the call
    [cls.interact(__interact_f, __manual=True, **kwargs)] is rejected when
    [kwargs] has the key already. *)
Definition interact_manual (__interact_f : option pyfunction)
    (settable : bool) (kwargs : dict) (w : world)
  : result interact_value * world :=
  match dict_get "__manual" kwargs with
  | Some _ => (Raise multiple_values, w)
  | None =>
      interact __interact_f settable (("__manual", VBool true) :: kwargs) w
  end.

(** ** Definitions for the statements *)


(** The first attempt at the midpoint, [min + diff / 2], on integers: a
    float when nothing overflows. *)
Definition float_midpoint (a b : Z) : result pynum :=
  rbind (py_truediv (PInt (b - a)) (PInt 2)) (py_add (PInt a)).



(** The range control [new_slider] puts in the store. *)
Definition slider (c : wclass) (v mn mx : pynum) (stp : option pynum)
  : widget :=
  {| cls := c; value := of_num v; w_min := Some mn; w_max := Some mx;
     w_step := stp; options := []; description := ""; _kwarg := None;
     disabled := false |}.




Definition float_0_1 : float := S754_finite false 7205759403792794 (-56).

Definition float_0_6 : float := S754_finite false 5404319552844595 (-53).

Definition float_0_7 : float := S754_finite false 6305039478318694 (-53).

(** Dropping a key no parameter uses changes nothing but the leftovers. *)
Definition drop_left (k : string) (r : result (list triple * dict))
  : result (list triple * dict) :=
  match r with
  | Ok (acc, kw) => Ok (acc, dict_pop k kw)
  | Raise e => Raise e
  end.

(** Names of the triples a run of the resolver adds. *)
Definition triple_name (t : triple) : string := fst (fst t).

(** A function [def f(x: (0, 10) = 5, y=2, z)] for the examples. *)
Definition example_params : list Param :=
  [ {| name := "x"; kind := POSITIONAL_OR_KEYWORD;
       annotation := VTuple [VInt 0; VInt 10]; default := VInt 5 |};
    {| name := "y"; kind := KEYWORD_ONLY;
       annotation := VEmpty; default := VInt 2 |};
    {| name := "z"; kind := POSITIONAL_OR_KEYWORD;
       annotation := VEmpty; default := VEmpty |} ].

Definition example_function (params : list Param) : pyfunction :=
  {| f_name := "f"; f_signature := Some params; f_argspec := true;
     f_getcallargs := fun _ => None;
     f_call := fun _ _ => Ok VNone |}.

(** The overrides left once [__init__] has popped its two reserved keys. *)
Definition own_kwargs (kwargs : dict) : dict :=
  dict_pop "__manual" (dict_pop "clear_output" kwargs).

(** What [__init__] does after the widgets exist. *)
Definition assemble (f : pyfunction) (clear_output manual : pyval)
    (kwargs_widgets : list ref) : M interactive :=
  (do c <- (fun st => (Ok (filter (has_class is_DOMWidget st) kwargs_widgets),
                       st));
   do manual_button <-
     (if truthy manual then
        do b <- new_Button ("Run " ++ f_name f); ret (Some b)
      else ret None);
   let c := match manual_button with Some b => (c ++ [b])%list | None => c end in
   do out <- new_Output;
   let c := (c ++ [out])%list in
   do texts <- (fun st => (Ok (filter (has_class is_Text st) kwargs_widgets),
                           st));
   ret {| f := f; clear_output := clear_output; manual := manual;
          kwargs_widgets := kwargs_widgets; manual_button := manual_button;
          out := out; children := c;
          self_result := VNone; self_kwargs := [];
          on_click := match manual_button with Some b => [b] | None => [] end;
          on_submit := if truthy manual then texts else [];
          observed := if truthy manual then [] else kwargs_widgets;
          on_displayed := negb (truthy manual) |})%M.

(** Every object of [st] is still there in [st'], with the same
    attribute [p]. *)
Definition keeps {P} (p : widget -> P) (st st' : store) : Prop :=
  forall r w, nth_error st r = Some w ->
    exists w', nth_error st' r = Some w' /\ p w' = p w.

Definition frame {P A} (p : widget -> P) (m : M A) : Prop :=
  forall st, keeps p st (snd (m st)).

Abbreviation keeps_kwarg := (keeps _kwarg).

(** The object at [r] is bound to one of [names]. *)
Definition bound_in (names : list string) (st : store) (r : ref) : Prop :=
  exists w n, nth_error st r = Some w /\ _kwarg w = Some n /\ In n names.

(** The events of the [try] block started in world [w0], the exception
    leaving it, and the new [self.kwargs] and [self.result]. *)
Definition body (self : interactive) (w0 : world)
  : list event * option exn * (dict * pyval) :=
  match read_widgets (objs w0) (kwargs_widgets self) [] with
  | (kw, Some e) => ([], Some e, (kw, self_result self))
  | (kw, None) =>
      let pre :=
        EOutEnter :: (if truthy (clear_output self) then [EClearOutput]
                      else []) in
      match f_call (f self) (trace w0 ++ pre) kw with
      | Raise e => ((pre ++ [ECall kw; EOutExit])%list,
                    (if swallows w0 e then None else Some e),
                    (kw, self_result self))
      | Ok r =>
          ((pre ++ ECall kw
                :: match r with VNone => [] | _ => [EDisplay r] end
                ++ [EOutExit])%list,
           None, (kw, r))
      end
  end.

(** The events of the [except] clause and what still propagates. *)
Definition report (shell : bool) (e : option exn) : list event * option exn :=
  match e with
  | None => ([], None)
  | Some e =>
      if is_Exception e
      then ([if shell then EShowTraceback e else ELogWarn e], None)
      else ([], Some e)
  end.

Definition after (w : world) (st : store) (evs : list event) : world :=
  {| objs := st; trace := (trace w ++ evs)%list; ip := ip w;
     swallows := swallows w |}.

(** [def g(x=1)] with a call contract that rejects every call. *)
Definition unbindable : pyfunction :=
  {| f_name := "g";
     f_signature :=
       Some [{| name := "x"; kind := POSITIONAL_OR_KEYWORD;
                annotation := VEmpty; default := VInt 1 |}];
     f_argspec := true;
     f_getcallargs := fun _ => Some (Exn TypeError "missing argument");
     f_call := fun _ _ => Ok VNone |}.

(** The widgets of the container [__init__] returns, or its error. *)
Definition built (r : result interactive * store) : result (list ref) :=
  match fst r with
  | Ok c => Ok (kwargs_widgets c)
  | Raise e => Raise e
  end.

(** [def h(a, b=3)], called through [interactive(h, a=fixed(5))]. *)
Definition fixed_params : list Param :=
  [ {| name := "a"; kind := POSITIONAL_OR_KEYWORD;
       annotation := VEmpty; default := VEmpty |};
    {| name := "b"; kind := POSITIONAL_OR_KEYWORD;
       annotation := VEmpty; default := VInt 3 |} ].

Definition fixed_five : store := [blank fixed (VInt 5)].

Definition fixed_container : result interactive * store :=
  interactive_init (example_function fixed_params) [("a", VObj 0)] fixed_five.

(** The events of the world in which the target function is called. *)
Definition enter_events (self : interactive) : list event :=
  if truthy (manual self) then
    match manual_button self with
    | Some b => [EDisabled b true]
    | None => []
    end
  else [].

Definition call_history (self : interactive) (w : world) : list event :=
  (trace w ++ enter_events self
     ++ EOutEnter :: (if truthy (clear_output self) then [EClearOutput]
                      else []))%list.

(** What can happen to a container once it is displayed in the world [w0]:
    the user changes the value of some widget, or an event invokes the
    callback. *)
Inductive session (c0 : interactive) (w0 : world)
  : interactive -> world -> Prop :=
| session_start : session c0 w0 c0 w0
| session_change c w r v :
    session c0 w0 c w ->
    session c0 w0 c (with_objs (list_update (objs w) r (set_value v)) w)
| session_event c w c' w' e :
    session c0 w0 c w -> call_f c w = (c', w', e) ->
    session c0 w0 c' w'.


(** [def g(a, /, x=1): ...]: [a] can only be passed by position, so no
    call by keywords alone is valid; [inspectable] tells whether
    [check_argspec] accepts the callable. *)
Definition positional_first (inspectable : bool) : pyfunction :=
  {| f_name := "g";
     f_signature :=
       Some [{| name := "a"; kind := POSITIONAL_ONLY;
                annotation := VEmpty; default := VEmpty |};
             {| name := "x"; kind := POSITIONAL_OR_KEYWORD;
                annotation := VEmpty; default := VInt 1 |}];
     f_argspec := inspectable;
     f_getcallargs := fun _ =>
       Some (Exn TypeError "missing a required argument: 'a'");
     f_call := fun _ _ => Ok VNone |}.


(** [interact_manual] on a function without parameters that returns 1. *)
Definition manual_container (f0 : pyfunction) : result interactive * store :=
  interactive_init f0 [("__manual", VBool true)] [].


(** A function without parameters that raises on its first call only. *)
Definition fails_once : pyfunction :=
  {| f_name := "f"; f_signature := Some []; f_argspec := true;
     f_getcallargs := fun _ => None;
     f_call := fun history _ =>
       if existsb (fun ev => match ev with ECall _ => true | _ => false end)
            history
       then Ok (VInt 1)
       else Raise (Exn (UserException "RuntimeError") "first call") |}.

(** ** Definitions for the further properties *)

Definition float_one : float := S754_finite false 4503599627370496 (-52).
Definition float_three : float := S754_finite false 6755399441055744 (-51).

(** The bounds [_get_min_max_value] derives for a bare integer. *)
Definition int_scalar_bounds (z : Z) : Z * Z :=
  if z =? 0 then (0, 1) else if 0 <? z then (- z, 3 * z) else (3 * z, - z).

(** The real numbers among the elements of a tuple. *)
Definition reals (o : list pyval) : list pynum :=
  flat_map (fun v => match as_real v with Some x => [x] | None => [] end) o.

(** The class of the control an abbreviation stands for, by its shape. *)
Definition control_class (abbrev : pyval) : wclass :=
  match abbrev with
  | VStr _ => Text
  | VBool _ => Checkbox
  | VInt _ => IntSlider
  | VFloat _ => FloatSlider
  | VTuple o => slider_cls (reals o)
  | _ => Dropdown
  end.

(** What a new control looks like before it is labelled. *)
Definition unlabelled (c : wclass) (w : widget) : Prop :=
  cls w = c /\ _kwarg w = None /\ description w = "".


(** What [widgets_from_abbreviations] makes of the object at [r]: a value
    widget or [fixed] wrapper with a label and one of [names] as its binding
    key. *)
Definition ready (names : list string) (st : store) (r : ref) : Prop :=
  exists w n,
    nth_error st r = Some w
    /\ is_ValueWidget (cls w) || is_fixed (cls w) = true
    /\ _kwarg w = Some n /\ In n names /\ description w <> "".

(** The object at [r] is bound to the name of the triple [t]. *)
Definition bound_to (st : store) (r : ref) (t : triple) : Prop :=
  exists w, nth_error st r = Some w /\ _kwarg w = Some (triple_name t).

(** The labelling step of [widgets_from_abbreviations]. *)
Definition label (n : string) (w : widget) : widget :=
  set_kwarg n (if String.eqb (description w) "" then set_description n w
               else w).

(** The bounds [_get_min_max_value] derives for a bare float. *)
Definition float_scalar_bounds (x : float) : pynum * pynum :=
  if py_eq (PFloat x) (PInt 0) then (PFloat x, PFloat (fadd x float_one))
  else if py_gt (PFloat x) (PInt 0)
       then (PFloat (SFopp x), PFloat (fmul float_three x))
       else (PFloat (fmul float_three x), PFloat (SFopp x)).

(** The value widget at [r] contributes the keyword [kv] to a call. *)
Definition shows (st : store) (r : ref) (kv : string * pyval) : Prop :=
  exists w,
    nth_error st r = Some w /\ is_ValueWidget (cls w) = true
    /\ _kwarg w = Some (fst kv) /\ value w = snd kv.

(** What the host sees of the [with self.out:] block before the call. *)
Definition before_call (self : interactive) : list event :=
  EOutEnter :: (if truthy (clear_output self) then [EClearOutput] else []).

(** What the host sees of an invocation that calls the target with [kw] and
    gets [r] back. *)
Definition success_events (self : interactive) (kw : dict) (r : pyval)
  : list event :=
  (before_call self
   ++ ECall kw :: match r with VNone => [] | _ => [EDisplay r] end
   ++ [EOutExit])%list.

(** The parameters that can be passed by keyword. *)
Definition accepts_keyword (p : Param) : bool :=
  match kind p with
  | POSITIONAL_OR_KEYWORD | KEYWORD_ONLY => true
  | _ => false
  end.

(** The triples a catch-all keyword parameter yields for [kwargs]. *)
Definition leftovers (kwargs : dict) : list triple :=
  map (fun '(k, v) => (k, v, VEmpty)) kwargs.

(** The number of calls of the target in a trace. *)
Definition is_call (e : event) : bool :=
  match e with ECall _ => true | _ => false end.
Definition calls (tr : list event) : nat := List.length (filter is_call tr).

(** [def f(x=5, s='a'): return x] *)
Definition returns_x : pyfunction :=
  {| f_name := "f";
     f_signature :=
       Some [{| name := "x"; kind := POSITIONAL_OR_KEYWORD;
                annotation := VEmpty; default := VInt 5 |};
             {| name := "s"; kind := POSITIONAL_OR_KEYWORD;
                annotation := VEmpty; default := VStr "a" |}];
     f_argspec := true;
     f_getcallargs := fun _ => None;
     f_call := fun _ kw =>
       match dict_get "x" kw with
       | Some v => Ok v
       | None => Raise (Exn TypeError "missing argument")
       end |}.

(** The name and declared default of a triple and of a parameter. *)
Definition triple_default (t : triple) : string * pyval :=
  (triple_name t, snd t).
Definition param_default (p : Param) : string * pyval := (name p, default p).

(** * Properties *)

Local Close Scope m_scope.
Local Close Scope res_scope.

(** ** Arithmetic of the rounding model *)

(** The rounding model agrees with the binary64 specification of the
    Standard Library on sample quotients. *)
Example round_ratio_agrees :
  forallb (fun '(a, b) => agrees a b)
    [(1, 3); (2, 3); (1, 10); (7, 10); (10 ^ 30 - 1, 10 ^ 15);
     (2 ^ 53 + 1, 1); (2 ^ 53 + 3, 1); (2 ^ 54 + 6, 1); (1, 2 ^ 1074);
     (1, 2 ^ 1075); (3, 2 ^ 1075); (10 ^ 400, 2); (2 ^ 1024 - 2 ^ 970, 1);
     (2 ^ 1024 - 2 ^ 970 - 1, 1); (2 ^ 60 - 1, 2 ^ 60)] = true.
Proof. vm_compute. reflexivity. Qed.

Section Rounding.










End Rounding.

(** ** Slider inference on integers *)

Section Sliders.

Lemma midpoint_floor (a b : Z) : a + (b - a) / 2 = (a + b) / 2.
Proof.
  replace (a + b) with (a * 2 + (b - a)) by lia.
  rewrite Z.div_add_l by lia. reflexivity.
Qed.

Lemma py_gt_int (a b : Z) : py_gt (PInt b) (PInt a) = (a <? b).
Proof.
  unfold py_gt, py_compare. rewrite Z.ltb_compare, (Z.compare_antisym b a).
  destruct (b ?= a); reflexivity.
Qed.

Lemma py_le_int (a b : Z) : py_le (PInt a) (PInt b) = (a <=? b).
Proof.
  unfold py_le, py_compare. rewrite Z.leb_compare.
  destruct (a ?= b); reflexivity.
Qed.

Lemma float_midpoint_type (a b : Z) (v : pynum) :
  float_midpoint a b = Ok v -> same_type v (PInt (b - a)) = false.
Proof.
  unfold float_midpoint, py_truediv, py_add, arith.
  destruct (int_truediv (b - a) 2); cbn [rbind]; [|discriminate].
  destruct (int_to_float a); cbn [rbind]; [|discriminate].
  intros E; injection E as <-. reflexivity.
Qed.

(** In [_get_min_max_value] the fallback [diff // 2] is taken on integer
    differences only. *)
Lemma floordiv_only_on_ints (min diff half value : pynum) :
  py_truediv diff (PInt 2) = Ok half -> py_add min half = Ok value ->
  same_type value diff = false -> exists d, diff = PInt d.
Proof.
  unfold py_truediv, py_add, arith.
  destruct diff as [d|d]; [intros; now exists d|].
  destruct (int_to_float 2); cbn [rbind]; [|discriminate].
  destruct (float_truediv d a); cbn [rbind]; [|discriminate].
  intros E; injection E as <-.
  destruct min as [m|m]; [destruct (int_to_float m); cbn [rbind]|];
    try discriminate; intros E; injection E as <-; discriminate.
Qed.


Lemma get_min_max_value_int_eq (a b : Z) (step : option pynum) :
  _get_min_max_value (Some (PInt a)) (Some (PInt b)) None step =
  if a <? b then
    rbind (float_midpoint a b) (fun _ =>
      let value := PInt ((a + b) / 2) in
      match step with
      | Some step =>
          rbind (py_sub value (PInt a)) (fun d =>
          rbind (py_truediv d step) (fun q =>
          rbind (py_int q) (fun tick =>
          rbind (py_mul (PInt tick) step) (fun ts =>
          rbind (py_add (PInt a) ts) (fun value =>
          Ok (PInt a, PInt b, value))))))
      | None => Ok (PInt a, PInt b, value)
      end)
  else Raise max_not_greater.
Proof.
  unfold _get_min_max_value. rewrite py_gt_int.
  destruct (a <? b); [|reflexivity]. cbn [negb].
  change (py_sub (PInt b) (PInt a)) with (@Ok pynum (PInt (b - a))).
  cbn [rbind].
  pose proof (float_midpoint_type a b) as T. unfold float_midpoint in *.
  destruct (py_truediv (PInt (b - a)) (PInt 2)) as [h|e]; cbn [rbind] in *;
    [|reflexivity].
  destruct (py_add (PInt a) h) as [v|e]; cbn [rbind] in *; [|reflexivity].
  rewrite (T v eq_refl). cbn [negb].
  change (py_floordiv (PInt (b - a)) (PInt 2))
    with (@Ok pynum (PInt ((b - a) / 2))).
  cbn [rbind].
  change (py_add (PInt a) (PInt ((b - a) / 2)))
    with (@Ok pynum (PInt (a + (b - a) / 2))).
  cbn [rbind]. rewrite midpoint_floor. reflexivity.
Qed.





End Sliders.

(** ** Tuple abbreviations *)

Section Tuples.


Lemma matches_reals (o : list pyval) (xs : list pynum) (n : nat) :
  map as_real o = map Some xs -> List.length xs = n -> _matches o n = true.
Proof.
  intros E L. unfold _matches. apply andb_true_iff. split.
  - apply Nat.eqb_eq. rewrite <- L, <- (length_map as_real o), E.
    apply length_map.
  - clear L. revert xs E. induction o as [|v o IH]; intros xs E; [reflexivity|].
    destruct xs as [|x xs]; [discriminate|]. cbn in E. injection E as E1 E2.
    cbn. rewrite E1. exact (IH xs E2).
Qed.

(** What the two-element branch of [widget_from_tuple] does. *)
Lemma widget_from_tuple_two (v0 v1 : pyval) (x0 x1 : pynum) (st : store) :
  as_real v0 = Some x0 -> as_real v1 = Some x1 ->
  widget_from_tuple [v0; v1] st =
  match _get_min_max_value (Some x0) (Some x1) None None with
  | Ok (mn, mx, v) =>
      (Ok (Some (List.length st)),
       (st ++ [slider (slider_cls [x0; x1]) v mn mx None])%list)
  | Raise e => (Raise e, st)
  end.
Proof.
  intros E0 E1. unfold widget_from_tuple.
  rewrite (matches_reals [v0; v1] [x0; x1] 2)
    by (cbn; rewrite ?E0, ?E1; reflexivity).
  cbn [map]. rewrite E0, E1. unfold bind, lift.
  destruct (_get_min_max_value (Some x0) (Some x1) None None)
    as [[[mn mx] v]|e]; reflexivity.
Qed.

(** What the three-element branch of [widget_from_tuple] does. *)
Lemma widget_from_tuple_three (v0 v1 vs : pyval) (x0 x1 step : pynum)
    (st : store) :
  as_real v0 = Some x0 -> as_real v1 = Some x1 -> as_real vs = Some step ->
  widget_from_tuple [v0; v1; vs] st =
  if py_le step (PInt 0) then (Raise step_error, st)
  else
    match _get_min_max_value (Some x0) (Some x1) None (Some step) with
    | Ok (mn, mx, v) =>
        (Ok (Some (List.length st)),
         (st ++ [slider (slider_cls [x0; x1; step]) v mn mx (Some step)])%list)
    | Raise e => (Raise e, st)
    end.
Proof.
  intros E0 E1 E2. unfold widget_from_tuple.
  assert (M2 : _matches [v0; v1; vs] 2 = false) by reflexivity.
  rewrite M2.
  rewrite (matches_reals [v0; v1; vs] [x0; x1; step] 3)
    by (cbn; rewrite ?E0, ?E1, ?E2; reflexivity).
  cbn [map]. rewrite E0, E1, E2.
  destruct (py_le step (PInt 0)); [reflexivity|].
  unfold bind, lift.
  destruct (_get_min_max_value (Some x0) (Some x1) None (Some step))
    as [[[mn mx] v]|e]; reflexivity.
Qed.


Lemma widget_from_abbrev_tuple_raise (o : list pyval) (d : pyval)
    (e : exn) (st st' : store) :
  widget_from_tuple o st = (Raise e, st') ->
  widget_from_abbrev (VTuple o) d st = (Raise e, st').
Proof.
  intros E. unfold widget_from_abbrev. cbn [is_widget_or_fixed].
  unfold bind. rewrite E. reflexivity.
Qed.

End Tuples.

(** ** Claims on tuple abbreviations *)

Example float_literals :
  int_truediv 1 10 = Ok float_0_1 /\ int_truediv 6 10 = Ok float_0_6
  /\ int_truediv 7 10 = Ok float_0_7.
Proof. vm_compute. repeat split. Qed.

(** C6. For every 3-tuple of reals whose step is <= 0, the control factory
    raises the ValueError on the step, and no control is made: both
    [widget_from_tuple] and [widget_from_abbrev], whatever the default. *)
Theorem C6_nonpositive_step_raises
    (v0 v1 vs dflt : pyval) (x0 x1 step : pynum) (st : store) :
  as_real v0 = Some x0 -> as_real v1 = Some x1 -> as_real vs = Some step ->
  py_le step (PInt 0) = true ->
  widget_from_tuple [v0; v1; vs] st = (Raise step_error, st)
  /\ widget_from_abbrev (VTuple [v0; v1; vs]) dflt st = (Raise step_error, st)
  /\ exn_type step_error = ValueError.
Proof.
  intros E0 E1 E2 Hle.
  assert (T : widget_from_tuple [v0; v1; vs] st = (Raise step_error, st)).
  { rewrite (widget_from_tuple_three v0 v1 vs x0 x1 step st E0 E1 E2).
    rewrite Hle. reflexivity. }
  split; [exact T|]. split; [|reflexivity].
  now apply widget_from_abbrev_tuple_raise.
Qed.

Lemma C6_witness :
  widget_from_tuple [VInt 0; VInt 10; VInt 0] [] = (Raise step_error, [])
  /\ widget_from_abbrev (VTuple [VInt 0; VFloat float_0_7; VInt (-1)])
       (VInt 3) [] = (Raise step_error, []).
Proof.
  split.
  - apply (C6_nonpositive_step_raises (VInt 0) (VInt 10) (VInt 0) VEmpty
             (PInt 0) (PInt 10) (PInt 0) []); reflexivity.
  - apply (C6_nonpositive_step_raises (VInt 0) (VFloat float_0_7) (VInt (-1))
             (VInt 3) (PInt 0) (PFloat float_0_7) (PInt (-1)) []);
      reflexivity.
Defined.







(** ** Iterable abbreviations *)

Section Iterables.

Lemma nth_error_fresh {A} (st : list A) (w : A) :
  nth_error (st ++ [w]) (List.length st) = Some w.
Proof.
  rewrite nth_error_app2 by lia. rewrite Nat.sub_diag. reflexivity.
Qed.

Lemma list_update_fresh {A} (st : list A) (w : A) (g : A -> A) :
  list_update (st ++ [w]) (List.length st) g = (st ++ [g w])%list.
Proof. induction st as [|x st IH]; cbn; [|rewrite IH]; reflexivity. Qed.

(** Applying a default to the widget just made either replaces its value or
    leaves it alone; nothing else changes and nothing is raised. *)
Lemma apply_default_fresh (st : store) (w : widget) (dflt : pyval) :
  exists w',
    apply_default (Some (List.length st)) dflt (st ++ [w])%list
    = (Ok tt, (st ++ [w'])%list)
    /\ (w' = w \/ w' = set_value dflt w).
Proof.
  unfold apply_default. destruct (is_empty dflt); cbn [negb].
  - exists w. split; [reflexivity | now left].
  - unfold try_pass, assign_value, bind, lookup.
    rewrite nth_error_fresh.
    destruct (accepts w dflt).
    + exists (set_value dflt w). unfold update. rewrite list_update_fresh.
      split; [reflexivity | now right].
    + exists w. split; [reflexivity | now left].
Qed.

Lemma widget_from_abbrev_iterable (o dflt : pyval) (st : store) :
  match o with
  | VList _ | VDict _ | VMapping _ | VIterable _ _ => True
  | _ => False
  end ->
  exists w,
    widget_from_abbrev o dflt st
    = (Ok (Some (List.length st)), (st ++ [w])%list)
    /\ cls w = Dropdown
    /\ options w =
       match o with
       | VDict d | VMapping d => items d
       | _ => py_list o
       end.
Proof.
  intros Ho.
  set (opts := match o with
               | VDict d | VMapping d => items d
               | _ => py_list o
               end).
  set (w := {| cls := Dropdown;
               value := match opts with
                        | [] => VNone | x :: _ => option_value x end;
               w_min := None; w_max := None; w_step := None;
               options := opts; description := ""; _kwarg := None;
               disabled := false |}).
  assert (I : widget_from_iterable o st
              = (Ok (List.length st), (st ++ [w])%list))
    by (destruct o; try contradiction; reflexivity).
  destruct (apply_default_fresh st w dflt) as (w' & D & W).
  exists w'.
  assert (E : widget_from_abbrev o dflt st
              = (Ok (Some (List.length st)), (st ++ [w'])%list)).
  { unfold widget_from_abbrev.
    assert (N : is_widget_or_fixed st o = false)
      by (destruct o; try contradiction; reflexivity).
    rewrite N.
    destruct o; try contradiction;
      cbn [widget_from_single_value is_Iterable]; unfold bind, ret;
      rewrite I; cbv beta iota; rewrite D; reflexivity. }
  split; [exact E|]. destruct W as [->| ->]; split; reflexivity.
Qed.

End Iterables.

(** C7. A list passed as an abbreviation produces a choice control whose
    option list is that list in order; a name-to-value mapping (a dict or any
    other Mapping) produces a choice control whose options are the
    (name, value) pairs in the mapping's iteration order.  This holds
    whatever default accompanies the abbreviation. *)
Theorem C7_iterable_options (st : store) (dflt : pyval) :
  (forall l, exists w,
      widget_from_abbrev (VList l) dflt st
      = (Ok (Some (List.length st)), (st ++ [w])%list)
      /\ cls w = Dropdown /\ options w = l)
  /\ (forall d, exists w,
      widget_from_abbrev (VDict d) dflt st
      = (Ok (Some (List.length st)), (st ++ [w])%list)
      /\ cls w = Dropdown
      /\ options w = map (fun '(k, v) => VTuple [k; v]) d)
  /\ (forall d, exists w,
      widget_from_abbrev (VMapping d) dflt st
      = (Ok (Some (List.length st)), (st ++ [w])%list)
      /\ cls w = Dropdown
      /\ options w = map (fun '(k, v) => VTuple [k; v]) d).
Proof.
  split; [|split]; intros x.
  - exact (widget_from_abbrev_iterable (VList x) dflt st I).
  - exact (widget_from_abbrev_iterable (VDict x) dflt st I).
  - exact (widget_from_abbrev_iterable (VMapping x) dflt st I).
Qed.

Example C7_list_and_dict :
  (exists w, widget_from_abbrev (VList [VInt 1; VInt 2; VInt 3]) VEmpty []
             = (Ok (Some 0%nat), [w])
             /\ options w = [VInt 1; VInt 2; VInt 3])
  /\ (exists w, widget_from_abbrev
                  (VDict [(VStr "x", VInt 1); (VStr "y", VInt 2)]) (VInt 2) []
                = (Ok (Some 0%nat), [w])
                /\ options w = [VTuple [VStr "x"; VInt 1];
                                VTuple [VStr "y"; VInt 2]]).
Proof. split; eexists; split; reflexivity. Qed.

(** ** The abbreviation resolver *)

Section Resolver.

Lemma is_empty_false (v : pyval) : is_empty v = false <-> v <> VEmpty.
Proof. destruct v; cbn; split; intros; congruence. Qed.

Lemma find_abbreviations_loop_app (l1 l2 : list Param) (kw : dict)
    (acc : list triple) :
  find_abbreviations_loop (l1 ++ l2) kw acc =
  rbind (find_abbreviations_loop l1 kw acc)
        (fun '(acc', kw') => find_abbreviations_loop l2 kw' acc').
Proof.
  revert kw acc. induction l1 as [|p l1 IH]; intros kw acc; [reflexivity|].
  cbn [app find_abbreviations_loop].
  destruct (collect (_yield_abbreviations_for_parameter p kw) acc)
    as [[acc' kw']|e]; cbn [rbind]; [apply IH | reflexivity].
Qed.

Lemma dict_get_pop_ne (n k : string) (d : dict) :
  n <> k -> dict_get n (dict_pop k d) = dict_get n d.
Proof.
  intros Hne. induction d as [|[k' v] d IH]; [reflexivity|]. cbn.
  destruct (String.eqb_spec k k') as [->|K]; cbn.
  - destruct (String.eqb_spec n k'); [congruence | exact IH].
  - destruct (String.eqb n k'); [reflexivity | exact IH].
Qed.

Lemma dict_get_pop_eq (k : string) (d : dict) : dict_get k (dict_pop k d) = None.
Proof.
  induction d as [|[k' v] d IH]; [reflexivity|]. cbn.
  destruct (String.eqb_spec k k') as [->|K]; [exact IH|]. cbn.
  destruct (String.eqb_spec k k'); [congruence | exact IH].
Qed.

Lemma dict_pop_comm (n k : string) (d : dict) :
  dict_pop n (dict_pop k d) = dict_pop k (dict_pop n d).
Proof.
  induction d as [|[k' v] d IH]; [reflexivity|]. cbn.
  destruct (String.eqb k k') eqn:K, (String.eqb n k') eqn:N; cbn;
    rewrite ?K, ?N, ?IH; reflexivity.
Qed.

Lemma dict_pop_absent (k : string) (d : dict) :
  dict_get k d = None -> dict_pop k d = d.
Proof.
  induction d as [|[k' v] d IH]; [reflexivity|]. cbn.
  destruct (String.eqb k k'); [discriminate|]. intros H. now rewrite IH.
Qed.

Lemma dict_pop_default_snd (k : string) (dflt : pyval) (d : dict) :
  snd (dict_pop_default k dflt d) = dict_pop k d.
Proof.
  unfold dict_pop_default. destruct (dict_get k d) eqn:G; cbn [snd];
    [reflexivity | symmetry; now apply dict_pop_absent].
Qed.

Lemma collect_drop (k : string) (p : Param) (kw : dict) (acc : list triple) :
  name p <> k -> kind p <> VAR_KEYWORD ->
  collect (_yield_abbreviations_for_parameter p (dict_pop k kw)) acc
  = drop_left k (collect (_yield_abbreviations_for_parameter p kw) acc).
Proof.
  intros Hn Hk. unfold _yield_abbreviations_for_parameter.
  rewrite (dict_get_pop_ne _ _ kw Hn).
  destruct (is_empty (annotation p)) eqn:A;
    destruct (is_empty (default p)) eqn:D;
    destruct (kind p); try contradiction; try reflexivity;
    (destruct (dict_get (name p) kw) as [v|];
     [destruct (is_empty v) eqn:V|]);
    cbn [negb collect drop_left is_empty]; rewrite ?A, ?D, ?V;
    cbn [negb collect drop_left is_empty];
    try rewrite (dict_pop_comm (name p) k kw); reflexivity.
Qed.

Lemma find_abbreviations_loop_drop (k : string) (params : list Param)
    (kw : dict) (acc : list triple) :
  (forall p, In p params -> name p <> k /\ kind p <> VAR_KEYWORD) ->
  find_abbreviations_loop params (dict_pop k kw) acc
  = drop_left k (find_abbreviations_loop params kw acc).
Proof.
  revert kw acc. induction params as [|p params IH]; intros kw acc H;
    [reflexivity|].
  cbn [find_abbreviations_loop].
  destruct (H p (or_introl eq_refl)) as [Hn Hk].
  rewrite (collect_drop k p kw acc Hn Hk).
  destruct (collect (_yield_abbreviations_for_parameter p kw) acc)
    as [[acc' kw']|e]; cbn [drop_left rbind]; [|reflexivity].
  apply IH. intros q Hq. apply H. now right.
Qed.

Lemma find_abbreviations_drop (k : string) (f : pyfunction)
    (params : list Param) (kw : dict) :
  f_signature f = Some params ->
  (forall p, In p params -> name p <> k /\ kind p <> VAR_KEYWORD) ->
  find_abbreviations f (dict_pop k kw) = find_abbreviations f kw.
Proof.
  intros S H. unfold find_abbreviations. rewrite S.
  rewrite (find_abbreviations_loop_drop k params kw [] H).
  destruct (find_abbreviations_loop params kw []) as [[acc kw']|e];
    reflexivity.
Qed.

Lemma collect_names (p : Param) (kw kw' : dict) (acc acc' : list triple) :
  kind p <> VAR_KEYWORD ->
  collect (_yield_abbreviations_for_parameter p kw) acc = Ok (acc', kw') ->
  forall n, In n (map triple_name acc') ->
            In n (map triple_name acc) \/ n = name p.
Proof.
  intros Hk. unfold _yield_abbreviations_for_parameter.
  assert (A : forall v d kw1,
             collect (GYield (name p, v, d) kw1 (GReturn kw1)) acc
             = Ok (acc', kw') ->
             forall n, In n (map triple_name acc') ->
                       In n (map triple_name acc) \/ n = name p).
  { intros v d kw1. cbn [collect]. destruct (is_empty v); [discriminate|].
    intros E; injection E as <- <-. intros n.
    rewrite map_app, in_app_iff. cbn. intuition. }
  assert (B : collect (GReturn kw) acc = Ok (acc', kw') ->
              forall n, In n (map triple_name acc') ->
                        In n (map triple_name acc) \/ n = name p).
  { cbn. intros E; injection E as <- <-. intros; now left. }
  destruct (is_empty (annotation p)) eqn:EA;
    destruct (is_empty (default p)) eqn:ED;
    destruct (kind p); try contradiction; try exact B;
    (destruct (dict_get (name p) kw); [apply A|]);
    cbn [negb]; try apply A; cbn; discriminate.
Qed.

Lemma find_abbreviations_loop_names (params : list Param) (kw kw' : dict)
    (acc acc' : list triple) :
  (forall p, In p params -> kind p <> VAR_KEYWORD) ->
  find_abbreviations_loop params kw acc = Ok (acc', kw') ->
  forall n, In n (map triple_name acc') ->
            In n (map triple_name acc) \/ In n (map name params).
Proof.
  revert kw acc. induction params as [|p params IH]; intros kw acc H.
  - cbn. intros E; injection E as <- <-. intros; now left.
  - cbn [find_abbreviations_loop].
    destruct (collect (_yield_abbreviations_for_parameter p kw) acc)
      as [[acc1 kw1]|e] eqn:C; cbn [rbind]; [|discriminate].
    intros E n Hn.
    destruct (IH kw1 acc1 (fun q Hq => H q (or_intror Hq)) E n Hn) as [I|I].
    + destruct (collect_names p kw kw1 acc acc1 (H p (or_introl eq_refl)) C
                  n I) as [J| ->]; [now left | right; now left].
    + right; now right.
Qed.

End Resolver.



(** ** Construction of the container *)

Section Construction.

Lemma interactive_init_unfold (f : pyfunction) (kwargs : dict) (st : store) :
  interactive_init f kwargs st =
  match find_abbreviations f (own_kwargs kwargs) with
  | Raise e => (Raise e, st)
  | Ok new_kwargs =>
      match validate_call f new_kwargs with
      | Raise e => (Raise e, st)
      | Ok _ =>
          match widgets_from_abbreviations new_kwargs st with
          | (Raise e, st1) => (Raise e, st1)
          | (Ok kwargs_widgets, st1) =>
              assemble f
                (fst (dict_pop_default "clear_output" (VBool true) kwargs))
                (fst (dict_pop_default "__manual" (VBool false)
                        (dict_pop "clear_output" kwargs)))
                kwargs_widgets st1
          end
      end
  end.
Proof.
  unfold interactive_init, own_kwargs.
  pose proof (dict_pop_default_snd "clear_output" (VBool true) kwargs) as P1.
  destruct (dict_pop_default "clear_output" (VBool true) kwargs)
    as [co kw1]. cbn [fst snd] in *. subst kw1.
  pose proof (dict_pop_default_snd "__manual" (VBool false)
                (dict_pop "clear_output" kwargs)) as P2.
  destruct (dict_pop_default "__manual" (VBool false)
              (dict_pop "clear_output" kwargs)) as [man kw2].
  cbn [fst snd] in *. subst kw2.
  unfold bind at 1. unfold lift at 1.
  destruct (find_abbreviations f _) as [nk|e]; [|reflexivity].
  unfold bind at 1. unfold lift at 1.
  destruct (validate_call f nk) as [[]|e]; [|reflexivity].
  unfold bind at 1.
  destruct (widgets_from_abbreviations nk st) as [[kws|e] st1]; reflexivity.
Qed.

Lemma assemble_ok (f0 : pyfunction) (co man : pyval) (kws : list ref)
    (st : store) :
  exists c extra,
    assemble f0 co man kws st = (Ok c, (st ++ extra)%list)
    /\ f c = f0 /\ kwargs_widgets c = kws /\ manual c = man
    /\ clear_output c = co
    /\ (forall r, In r (children c) ->
          In r kws /\ has_class is_DOMWidget st r = true
          \/ List.length st <= r)%nat
    /\ (if truthy man
        then manual_button c = Some (List.length st)
             /\ exists b o, extra = [b; o] /\ cls b = Button /\ disabled b = false
        else manual_button c = None).
Proof.
  unfold assemble, bind, ret, new_Button, new_Output, alloc.
  destruct (truthy man) eqn:T.
  - eexists. exists [blank_button ("Run " ++ f_name f0); blank Output VNone].
    split; [f_equal; try reflexivity; rewrite <- app_assoc; reflexivity|].
    cbn [f kwargs_widgets manual clear_output children manual_button].
    repeat split; try reflexivity.
    + intros r. rewrite !in_app_iff, filter_In. cbn [In].
      rewrite length_app. cbn [List.length]. intros [[H|H]|H]; [now left| |];
        right; lia.
    + eexists. eexists. repeat split.
  - eexists. eexists [_]. split; [reflexivity|].
    cbn [f kwargs_widgets manual clear_output children manual_button].
    repeat split; try reflexivity.
    intros r. rewrite !in_app_iff, filter_In. cbn [In].
    intros [H|H]; [now left|]. right; lia.
Qed.

End Construction.

(** ** What the factory leaves untouched

    Building widgets only allocates new objects and assigns [value],
    [description] and [_kwarg]; the binding key of an object already in the
    store changes in [widgets_from_abbreviations] alone. *)

Section Frame.

(** The attribute [p] does not depend on the widget's value. *)
Context {P : Type} (p : widget -> P).
Hypothesis p_value : forall v w, p (set_value v w) = p w.

Lemma keeps_refl (st : store) : keeps p st st.
Proof. intros r w H. now exists w. Qed.

Lemma keeps_trans (a b c : store) :
  keeps p a b -> keeps p b c -> keeps p a c.
Proof.
  intros H1 H2 r w H. destruct (H1 r w H) as (w1 & E1 & K1).
  destruct (H2 r w1 E1) as (w2 & E2 & K2). exists w2. split; congruence.
Qed.

Lemma nth_error_list_update {A} (l : list A) (i j : nat) (g : A -> A) :
  nth_error (list_update l i g) j =
  if Nat.eqb i j then option_map g (nth_error l j) else nth_error l j.
Proof.
  revert i j. induction l as [|x l IH]; intros i j.
  - destruct i; cbn [list_update]; destruct j; cbn;
      try destruct (Nat.eqb _ _); reflexivity.
  - destruct i, j; cbn; try reflexivity. apply IH.
Qed.

Lemma keeps_app (st extra : store) : keeps p st (st ++ extra)%list.
Proof.
  intros r w H. exists w. split; [|reflexivity].
  rewrite nth_error_app1; [exact H|]. apply nth_error_Some. congruence.
Qed.

Lemma keeps_update (st : store) (r : ref) (g : widget -> widget) :
  (forall w, p (g w) = p w) -> keeps p st (list_update st r g).
Proof.
  intros G j w H. rewrite nth_error_list_update, H.
  destruct (Nat.eqb r j); cbn; eexists; split; try reflexivity. apply G.
Qed.

Lemma frame_ret {A} (a : A) : frame p (ret a).
Proof. intros st. apply keeps_refl. Qed.

Lemma frame_throw {A} (e : exn) : frame p (@throw A e).
Proof. intros st. apply keeps_refl. Qed.

Lemma frame_lift {A} (r : result A) : frame p (lift r).
Proof. intros st. apply keeps_refl. Qed.

Lemma frame_bind {A B} (m : M A) (k : A -> M B) :
  frame p m -> (forall a, frame p (k a)) -> frame p (bind m k).
Proof.
  intros Hm Hk st. unfold bind. specialize (Hm st).
  destruct (m st) as [[a|e] st1]; cbn [snd] in *; [|exact Hm].
  eapply keeps_trans; [exact Hm | apply Hk].
Qed.

Lemma frame_alloc (w : widget) : frame p (alloc w).
Proof. intros st. apply keeps_app. Qed.

Lemma frame_lookup (r : ref) : frame p (lookup r).
Proof.
  intros st. unfold lookup. destruct (nth_error st r); apply keeps_refl.
Qed.

Lemma frame_update (r : ref) (g : widget -> widget) :
  (forall w, p (g w) = p w) -> frame p (update r g).
Proof. intros G st. now apply keeps_update. Qed.

Lemma frame_try_pass (m : M unit) : frame p m -> frame p (try_pass m).
Proof.
  intros Hm st. unfold try_pass. specialize (Hm st).
  destruct (m st) as [[a|e] st1]; cbn [snd] in *; [exact Hm|].
  destruct (is_Exception e); exact Hm.
Qed.

Create HintDb framedb.
#[local] Hint Resolve frame_ret frame_throw frame_lift frame_alloc
  frame_lookup frame_try_pass : framedb.

Ltac frame_step :=
  match goal with
  | |- frame _ (bind _ _) => apply frame_bind; [|intros ?]
  | |- frame _ (update _ _) => apply frame_update; intros ?; apply p_value
  | |- frame _ (if ?c then _ else _) => destruct c
  | |- frame _ (match ?x with _ => _ end) => destruct x
  | |- frame _ _ => solve [auto with framedb]
  end.

Lemma frame_assign_value (r : ref) (v : pyval) : frame p (assign_value r v).
Proof. unfold assign_value. repeat frame_step. Qed.

Lemma frame_apply_default (w : option ref) (d : pyval) :
  frame p (apply_default w d).
Proof.
  unfold apply_default. destruct (negb (is_empty d)); [|apply frame_ret].
  apply frame_try_pass. destruct w; [apply frame_assign_value|].
  apply frame_throw.
Qed.

Lemma frame_widget_from_tuple (o : list pyval) : frame p (widget_from_tuple o).
Proof.
  unfold widget_from_tuple, new_slider. repeat frame_step.
Qed.

Lemma frame_widget_from_single_value (o : pyval) :
  frame p (widget_from_single_value o).
Proof.
  unfold widget_from_single_value, new_slider, new_Text, new_Checkbox.
  destruct o; repeat frame_step.
Qed.

Lemma frame_widget_from_iterable (o : pyval) : frame p (widget_from_iterable o).
Proof.
  unfold widget_from_iterable, new_Dropdown. destruct o; apply frame_alloc.
Qed.

Lemma frame_widget_from_abbrev (abbrev dflt : pyval) :
  frame p (widget_from_abbrev abbrev dflt).
Proof.
  intros st. unfold widget_from_abbrev.
  destruct (is_widget_or_fixed st abbrev); [apply keeps_refl|].
  assert (T : forall o, frame p (do widget <- widget_from_tuple o;
                               do _ <- apply_default widget dflt;
                               ret widget)%M).
  { intros o. apply frame_bind; [apply frame_widget_from_tuple|]. intros w.
    apply frame_bind; [apply frame_apply_default|]. intros _. apply frame_ret. }
  assert (S : frame p (do widget <- widget_from_single_value abbrev;
                     match widget with
                     | Some _ => ret widget
                     | None =>
                         if is_Iterable abbrev then
                           do widget <- widget_from_iterable abbrev;
                           do _ <- apply_default (Some widget) dflt;
                           ret (Some widget)
                         else ret None
                     end)%M).
  { apply frame_bind; [apply frame_widget_from_single_value|]. intros [w|].
    - apply frame_ret.
    - destruct (is_Iterable abbrev); [|apply frame_ret].
      apply frame_bind; [apply frame_widget_from_iterable|]. intros w.
      apply frame_bind; [apply frame_apply_default|]. intros _.
      apply frame_ret. }
  destruct abbrev; try apply S. apply T.
Qed.

End Frame.

(** ** Binding keys of the container's widgets *)

Section BindingKeys.

Lemma bound_in_keeps (names : list string) (st st' : store) (r : ref) :
  keeps_kwarg st st' -> bound_in names st r -> bound_in names st' r.
Proof.
  intros K (w & n & E & B & I). destruct (K r w E) as (w' & E' & B').
  exists w', n. repeat split; congruence.
Qed.

Lemma bound_in_set_kwarg (names : list string) (st : store) (r r' : ref)
    (n : string) :
  In n names ->
  bound_in names st r' \/ (r' = r /\ exists w, nth_error st r = Some w) ->
  bound_in names (list_update st r (set_kwarg n)) r'.
Proof.
  intros I H. unfold bound_in. rewrite nth_error_list_update.
  destruct (Nat.eqb_spec r r') as [->|Ne].
  - assert (exists w, nth_error st r' = Some w) as [w E].
    { destruct H as [(w & _ & E & _)|[_ H]]; [now exists w | exact H]. }
    rewrite E. exists (set_kwarg n w), n. repeat split. exact I.
  - destruct H as [H|[E _]]; [exact H | congruence].
Qed.

Lemma widgets_from_abbreviations_loop_bound (names : list string)
    (seq : list triple) (result kws : list ref) (st st' : store) :
  widgets_from_abbreviations_loop seq result st = (Ok kws, st') ->
  (forall t, In t seq -> In (triple_name t) names) ->
  (forall r, In r result -> bound_in names st r) ->
  forall r, In r kws -> bound_in names st' r.
Proof.
  revert result st. induction seq as [|[[n abbrev] dflt] seq IH];
    intros result st E Hn Hr.
  - cbn in E. injection E as <- <-. exact Hr.
  - cbn [widgets_from_abbreviations_loop] in E. unfold bind at 1 in E.
    pose proof (frame_widget_from_abbrev _kwarg (fun _ _ => eq_refl)
                  abbrev dflt st) as F.
    destruct (widget_from_abbrev abbrev dflt st) as [[[r0|]|e] st1];
      cbn [snd] in F; try discriminate E.
    unfold bind at 1 in E. unfold lookup at 1 in E.
    destruct (nth_error st1 r0) as [w0|] eqn:L; [|discriminate E].
    destruct (negb (is_ValueWidget (cls w0) || is_fixed (cls w0)));
      [discriminate E|].
    unfold bind at 1 in E.
    set (st2 := snd ((if String.eqb (description w0) ""
                      then update r0 (set_description n) else ret tt) st1)).
    assert (K2 : keeps_kwarg st1 st2).
    { subst st2. destruct (String.eqb (description w0) ""); cbn [snd];
        [apply keeps_update; reflexivity | apply keeps_refl]. }
    assert (E2 : (if String.eqb (description w0) ""
                  then update r0 (set_description n) else ret tt) st1
                 = (Ok tt, st2)).
    { subst st2. destruct (String.eqb (description w0) ""); reflexivity. }
    rewrite E2 in E. unfold bind at 1, update at 1 in E.
    assert (In0 : In n names) by (apply (Hn (n, abbrev, dflt)); now left).
    apply (IH _ _ E); [intros t Ht; apply Hn; now right|].
    intros r Hin. apply bound_in_set_kwarg; [exact In0|].
    apply in_app_iff in Hin. destruct Hin as [Hin|[<-|[]]].
    + left. apply (bound_in_keeps names st1); [exact K2|].
      apply (bound_in_keeps names st); [exact F | now apply Hr].
    + right. split; [reflexivity|].
      destruct (K2 r0 w0 L) as (w' & Ew & _). now exists w'.
Qed.

(** Keys of the dictionary [read_widgets] fills. *)
Lemma read_widgets_keys (names : list string) (st : store) (ws : list ref)
    (kw0 kw : dict) (e : option exn) :
  read_widgets st ws kw0 = (kw, e) ->
  (forall r, In r ws -> bound_in names st r) ->
  forall k, dict_get k kw <> None -> dict_get k kw0 <> None \/ In k names.
Proof.
  revert kw0. induction ws as [|r ws IH]; intros kw0 E Hb k Hk.
  - cbn in E. injection E as <- <-. now left.
  - cbn [read_widgets] in E.
    destruct (Hb r (or_introl eq_refl)) as (w & n & Ew & Bw & In0).
    rewrite Ew in E.
    destruct (get_interact_value w) as [v|e0];
      [|injection E as <- <-; now left].
    rewrite Bw in E.
    destruct (IH _ E (fun r' H => Hb r' (or_intror H)) k Hk) as [H|H];
      [|now right].
    destruct (String.eqb_spec k n) as [->|Ne]; [now right|]. left.
    intros G. apply H. clear - G Ne.
    induction kw0 as [|[k' v'] kw0 IHk]; cbn in *.
    + destruct (String.eqb_spec k n); [congruence | reflexivity].
    + destruct (String.eqb_spec n k') as [->|N']; cbn.
      * destruct (String.eqb_spec k k'); [congruence | exact G].
      * destruct (String.eqb k k'); [discriminate G | now apply IHk].
Qed.

End BindingKeys.

(** ** Classes of the objects in the store *)

Section Classes.

(** Building the widgets never changes the class of an object. *)
Lemma frame_cls_loop (seq : list triple) (result : list ref) :
  frame cls (widgets_from_abbreviations_loop seq result).
Proof.
  revert result. induction seq as [|[[n abbrev] dflt] seq IH]; intros result.
  - apply frame_ret.
  - cbn [widgets_from_abbreviations_loop].
    apply frame_bind; [apply frame_widget_from_abbrev; reflexivity|].
    intros [r|]; [|apply frame_throw].
    apply frame_bind; [apply frame_lookup|]. intros w.
    destruct (negb (is_ValueWidget (cls w) || is_fixed (cls w)));
      [apply frame_throw|].
    apply frame_bind.
    { destruct (String.eqb (description w) "");
        [apply frame_update; reflexivity | apply frame_ret]. }
    intros _. apply frame_bind; [apply frame_update; reflexivity|].
    intros _. apply IH.
Qed.

(** A [fixed] wrapper is never among the children [__init__] displays. *)
Lemma fixed_not_displayed (f0 : pyfunction) (kwargs : dict) (st st' : store)
    (c : interactive) (r : ref) :
  has_class is_fixed st r = true ->
  interactive_init f0 kwargs st = (Ok c, st') -> ~ In r (children c).
Proof.
  intros Hf. rewrite interactive_init_unfold.
  destruct (find_abbreviations f0 (own_kwargs kwargs)) as [nk|e];
    [|discriminate].
  destruct (validate_call f0 nk) as [[]|e]; [|discriminate].
  pose proof (frame_cls_loop nk [] st) as F.
  fold (widgets_from_abbreviations nk) in F.
  destruct (widgets_from_abbreviations nk st) as [[kws|e] st1];
    [|discriminate]. cbn [snd] in F.
  destruct (assemble_ok f0
              (fst (dict_pop_default "clear_output" (VBool true) kwargs))
              (fst (dict_pop_default "__manual" (VBool false)
                      (dict_pop "clear_output" kwargs))) kws st1)
    as (c0 & extra & -> & _ & _ & _ & _ & Hc & _).
  intros X; injection X as <- <-. intros Hin.
  unfold has_class in Hf. destruct (nth_error st r) as [w|] eqn:Ew;
    [|discriminate].
  destruct (F r w Ew) as (w' & Ew' & Cw).
  destruct (Hc r Hin) as [[_ D]|L].
  - unfold has_class in D. rewrite Ew', Cw in D.
    destruct (cls w); discriminate.
  - assert (r < List.length st1)%nat by (apply nth_error_Some; congruence).
    lia.
Qed.

End Classes.

(** ** One invocation of the callback, as a list of events *)

Section Invocation.

Lemma call_f_try_body (self : interactive) (w0 : world) :
  call_f_try self w0 =
  let '(evs, e, (kw, r)) := body self w0 in
  (set_self self kw r, after w0 (objs w0) evs, e).
Proof.
  unfold call_f_try, body, after, emit.
  destruct w0 as [st tr sh]. cbn [objs trace ip swallows].
  destruct (read_widgets st (kwargs_widgets self) []) as [kw [e|]].
  - rewrite app_nil_r. reflexivity.
  - cbn [clear_output set_self f].
    destruct (truthy (clear_output self)); cbn [trace objs ip swallows];
      repeat (rewrite <- app_assoc; cbn [app]);
      (destruct (f_call (f self) _ kw) as [r|e];
       [destruct r|]; cbn [trace objs ip swallows self_result set_self];
       repeat (rewrite <- app_assoc; cbn [app]); reflexivity).
Qed.

(** An invocation in manual mode. *)
Lemma call_f_manual (self : interactive) (w : world) (b : ref) :
  truthy (manual self) = true -> manual_button self = Some b ->
  let st0 := list_update (objs w) b (set_disabled true) in
  let self0 := set_self self [] (self_result self) in
  call_f self w =
  let '(evs, e, (kw, r)) := body self0 (after w st0 [EDisabled b true]) in
  let '(rep, e') := report (ip w) e in
  (set_self self kw r,
   after w (list_update st0 b (set_disabled false))
     (EDisabled b true :: evs ++ rep ++ [EDisabled b false]),
   e').
Proof.
  intros Hm Hb st0 self0. unfold call_f.
  cbn [manual manual_button set_self]. rewrite Hm, Hb.
  fold self0. rewrite call_f_try_body.
  unfold set_button, emit, with_objs. cbn [objs trace ip swallows]. fold st0.
  change {| objs := st0; trace := (trace w ++ [EDisabled b true])%list;
            ip := ip w; swallows := swallows w |}
    with (after w st0 [EDisabled b true]).
  destruct (body self0 (after w st0 [EDisabled b true]))
    as [[evs e] [kw r]].
  subst self0.
  unfold call_f_except, report, after, set_button, emit, with_objs.
  cbn [objs trace ip swallows manual set_self manual_button].
  destruct e as [e|]; [destruct (is_Exception e)|];
    cbn [objs trace ip swallows manual set_self manual_button];
    rewrite ?Hm, ?Hb; cbn [objs trace ip swallows].
  all: repeat (rewrite <- app_assoc; cbn [app]); rewrite ?app_nil_r;
    try reflexivity.
  all: destruct w; reflexivity.
Qed.

(** An invocation in reactive mode. *)
Lemma call_f_reactive (self : interactive) (w : world) :
  truthy (manual self) = false ->
  let self0 := set_self self [] (self_result self) in
  call_f self w =
  let '(evs, e, (kw, r)) := body self0 w in
  let '(rep, e') := report (ip w) e in
  (set_self self kw r, after w (objs w) (evs ++ rep), e').
Proof.
  intros Hm self0. unfold call_f.
  cbn [manual manual_button set_self]. rewrite Hm.
  fold self0. rewrite call_f_try_body.
  destruct (body self0 w) as [[evs e] [kw r]].
  subst self0.
  unfold call_f_except, report, after, emit.
  cbn [objs trace ip swallows manual set_self].
  destruct e as [e|]; [destruct (is_Exception e)|];
    cbn [objs trace ip swallows manual set_self];
    rewrite ?Hm; cbn [objs trace ip swallows].
  all: repeat (rewrite <- app_assoc; cbn [app]); rewrite ?app_nil_r;
    try reflexivity.
  all: destruct w; reflexivity.
Qed.

End Invocation.

Section InvocationFacts.

Lemma read_widgets_disabled (st : store) (b : ref) (v : bool)
    (ws : list ref) (kw : dict) :
  read_widgets (list_update st b (set_disabled v)) ws kw
  = read_widgets st ws kw.
Proof.
  revert kw. induction ws as [|r ws IH]; intros kw; [reflexivity|].
  cbn [read_widgets]. rewrite nth_error_list_update.
  destruct (Nat.eqb b r); [|destruct (nth_error st r) as [w|]];
    try reflexivity.
  - destruct (nth_error st r) as [w|]; cbn [option_map]; [|reflexivity].
    unfold get_interact_value. cbn [cls value _kwarg set_disabled].
    destruct (is_ValueWidget (cls w)); [|reflexivity].
    destruct (_kwarg w); [apply IH | reflexivity].
  - destruct (get_interact_value w); [|reflexivity].
    destruct (_kwarg w); [apply IH | reflexivity].
Qed.

(** A [fixed] wrapper among the widgets stops the reading loop. *)
Lemma read_widgets_fixed (st : store) (ws : list ref) (kw0 : dict) (r : ref) :
  In r ws -> has_class is_fixed st r = true ->
  exists kw e, read_widgets st ws kw0 = (kw, Some e).
Proof.
  revert kw0. induction ws as [|r' ws IH]; intros kw0 Hin Hf;
    [destruct Hin | destruct Hin as [->|Hin]].
  - cbn [read_widgets]. unfold has_class in Hf.
    destruct (nth_error st r) as [w|]; [|discriminate].
    unfold get_interact_value. destruct (cls w); try discriminate.
    eexists. eexists. reflexivity.
  - cbn [read_widgets]. destruct (nth_error st r') as [w|];
      [|eexists; eexists; reflexivity].
    destruct (get_interact_value w); [|eexists; eexists; reflexivity].
    destruct (_kwarg w); [|eexists; eexists; reflexivity].
    now apply IH.
Qed.

(** The events of the [try] block: a call is made exactly when every widget
    was read, with the values read; the button is not touched. *)
Lemma body_events (self : interactive) (w0 : world) :
  let '(evs, e, (kw, r)) := body self w0 in
  (forall kw', In (ECall kw') evs ->
     kw' = kw
     /\ read_widgets (objs w0) (kwargs_widgets self) [] = (kw, None))
  /\ (read_widgets (objs w0) (kwargs_widgets self) [] = (kw, None) ->
      In (ECall kw) evs)
  /\ (forall b v, ~ In (EDisabled b v) evs).
Proof.
  unfold body.
  destruct (read_widgets (objs w0) (kwargs_widgets self) []) as [kw [e|]].
  - repeat split; try (intros; contradiction); try discriminate.
    intros b v [].
  - destruct (f_call (f self) _ kw) as [r|e].
    + repeat split.
      * destruct (truthy (clear_output self)), r; cbn in H;
          intuition congruence.
      * intros _. destruct (truthy (clear_output self)); cbn; intuition.
      * intros b v H. destruct (truthy (clear_output self)), r; cbn in H;
          intuition congruence.
    + repeat split.
      * destruct (truthy (clear_output self)); cbn in H; intuition congruence.
      * intros _. destruct (truthy (clear_output self)); cbn; intuition.
      * intros b v H. destruct (truthy (clear_output self)); cbn in H;
          intuition congruence.
Qed.

Lemma report_events (shell : bool) (e : option exn) :
  forall ev, In ev (fst (report shell e)) ->
    exists x, ev = EShowTraceback x \/ ev = ELogWarn x.
Proof.
  intros ev. unfold report. destruct e as [e|]; [|intros []].
  destruct (is_Exception e); [|intros []].
  destruct shell; intros [<-|[]]; eauto.
Qed.

(** Every call an invocation makes carries the values read from the
    widgets. *)
Lemma call_f_calls (self self' : interactive) (w w' : world)
    (e : option exn) (kw : dict) :
  call_f self w = (self', w', e) ->
  In (ECall kw) (trace w') ->
  In (ECall kw) (trace w)
  \/ read_widgets (objs w) (kwargs_widgets self) [] = (kw, None).
Proof.
  destruct (truthy (manual self)) eqn:Hm.
  - destruct (manual_button self) as [b|] eqn:Hb.
    + rewrite (call_f_manual self w b Hm Hb).
      pose proof (body_events (set_self self [] (self_result self))
                    (after w (list_update (objs w) b (set_disabled true))
                       [EDisabled b true])) as B.
      destruct (body _ _) as [[evs e0] [kw0 r0]].
      pose proof (report_events (ip w) e0) as R.
      destruct (report (ip w) e0) as [rep e1]. cbn [fst] in R.
      intros E; injection E as <- <- <-. cbn [after trace].
      rewrite in_app_iff. intros [H|H]; [now left|]. right.
      cbn [In] in H. destruct H as [H|H]; [discriminate|].
      rewrite !in_app_iff in H. destruct H as [H|[H|H]].
      * destruct B as (B & _). destruct (B kw H) as [-> B1].
        cbn [after objs set_self kwargs_widgets] in B1.
        now rewrite read_widgets_disabled in B1.
      * destruct (R _ H) as [x [X|X]]; discriminate.
      * destruct H as [H|[]]; discriminate.
    + unfold call_f. cbn [manual manual_button set_self]. rewrite Hm, Hb.
      intros E; injection E as <- <- <-. now left.
  - rewrite (call_f_reactive self w Hm).
    pose proof (body_events (set_self self [] (self_result self)) w) as B.
    destruct (body _ _) as [[evs e0] [kw0 r0]].
    pose proof (report_events (ip w) e0) as R.
    destruct (report (ip w) e0) as [rep e1]. cbn [fst] in R.
    intros E; injection E as <- <- <-. cbn [after trace].
    rewrite !in_app_iff. intros [H|[H|H]]; [now left| |].
    + right. destruct B as (B & _). destruct (B kw H) as [-> B1]. exact B1.
    + destruct (R _ H) as [x [X|X]]; discriminate.
Qed.

End InvocationFacts.

(** ** Claims on construction *)

Section CallMapping.






End CallMapping.

(** C2, as stated, fails: that the signature can be read does not decide
    whether the mapping is validated.  For the callable [g] with signature
    [(a, /, x=1)] that [check_argspec] rejects, no call by keywords is
    valid, yet setup succeeds and builds the control for [x]. *)
Lemma C2_counterexample :
  exists params nk c st' w,
    f_signature (positional_first false) = Some params
    /\ find_abbreviations (positional_first false) (own_kwargs []) = Ok nk
    /\ f_getcallargs (positional_first false) (call_mapping nk) <> None
    /\ interactive_init (positional_first false) [] [] = (Ok c, st')
    /\ kwargs_widgets c = [0%nat]
    /\ nth_error st' 0 = Some w /\ cls w = IntSlider.
Proof.
  eexists. eexists. eexists. eexists. eexists.
  split; [reflexivity|]. split; [reflexivity|]. split; [discriminate|].
  split; [vm_compute; reflexivity|]. repeat split.
Qed.



Lemma own_kwargs_pop (k : string) (kwargs : dict) :
  own_kwargs (dict_pop k kwargs) = dict_pop k (own_kwargs kwargs).
Proof.
  unfold own_kwargs.
  now rewrite (dict_pop_comm "clear_output" k),
    (dict_pop_comm "__manual" k).
Qed.

Lemma built_unfold (f0 : pyfunction) (kwargs : dict) (st : store) :
  built (interactive_init f0 kwargs st) =
  rbind (find_abbreviations f0 (own_kwargs kwargs)) (fun nk =>
  rbind (validate_call f0 nk) (fun _ =>
  fst (widgets_from_abbreviations nk st))).
Proof.
  rewrite interactive_init_unfold. unfold built.
  destruct (find_abbreviations f0 (own_kwargs kwargs)) as [nk|e];
    [|reflexivity]. cbn [rbind].
  destruct (validate_call f0 nk) as [[]|e]; [|reflexivity]. cbn [rbind].
  destruct (widgets_from_abbreviations nk st) as [[kws|e] st1];
    [|reflexivity].
  destruct (assemble_ok f0
              (fst (dict_pop_default "clear_output" (VBool true) kwargs))
              (fst (dict_pop_default "__manual" (VBool false)
                      (dict_pop "clear_output" kwargs))) kws st1)
    as (c & extra & E1 & _ & E2 & _).
  rewrite E1. cbn [fst]. now rewrite E2.
Qed.

Section Sessions.

(** An invocation keeps the widgets of the container and every binding
    key. *)
Lemma call_f_keeps_kwarg (self self' : interactive) (w w' : world)
    (e : option exn) :
  call_f self w = (self', w', e) ->
  kwargs_widgets self' = kwargs_widgets self
  /\ keeps_kwarg (objs w) (objs w').
Proof.
  destruct (truthy (manual self)) eqn:Hm.
  - destruct (manual_button self) as [b|] eqn:Hb.
    + rewrite (call_f_manual self w b Hm Hb).
      destruct (body _ _) as [[evs e0] [kw0 r0]].
      destruct (report (ip w) e0) as [rep e1].
      intros E; injection E as <- <- <-. split; [reflexivity|].
      cbn [after objs].
      eapply keeps_trans; apply keeps_update; reflexivity.
    + unfold call_f. cbn [manual manual_button set_self]. rewrite Hm, Hb.
      intros E; injection E as <- <- <-. split; [reflexivity|].
      apply keeps_refl.
  - rewrite (call_f_reactive self w Hm).
    destruct (body _ _) as [[evs e0] [kw0 r0]].
    destruct (report (ip w) e0) as [rep e1].
    intros E; injection E as <- <- <-. split; [reflexivity|].
    apply keeps_refl.
Qed.

(** Throughout a session the container keeps its widgets and the widgets
    their binding keys, and every call of the target made in it passes what
    was read from the widgets. *)
Lemma session_calls (names : list string) (c0 : interactive) (w0 : world)
    (c : interactive) (w : world) :
  (forall r, In r (kwargs_widgets c0) -> bound_in names (objs w0) r) ->
  session c0 w0 c w ->
  kwargs_widgets c = kwargs_widgets c0
  /\ keeps_kwarg (objs w0) (objs w)
  /\ forall kw, In (ECall kw) (trace w) ->
       In (ECall kw) (trace w0)
       \/ forall k, dict_get k kw <> None -> In k names.
Proof.
  intros B. induction 1 as [|c w r v _ (K & F & T)|c w c' w' e _ (K & F & T) E].
  - split; [reflexivity|]. split; [apply keeps_refl | now left].
  - split; [exact K|]. split; [|exact T].
    eapply keeps_trans; [exact F|]. cbn [with_objs objs].
    apply keeps_update. reflexivity.
  - destruct (call_f_keeps_kwarg _ _ _ _ _ E) as [K' F'].
    split; [congruence|]. split; [now apply (keeps_trans _ _ _ _ F)|].
    intros kw Hin.
    destruct (call_f_calls _ _ _ _ _ _ E Hin) as [H|H]; [now apply T|].
    right. intros k Hk.
    destruct (read_widgets_keys names _ _ _ _ _ H) with (k := k)
      as [X|X]; [| exact Hk | now destruct X | exact X].
    intros r Hr. rewrite K in Hr.
    exact (bound_in_keeps _ _ _ _ F (B r Hr)).
Qed.

End Sessions.

(** C10. When the signature can be read and has no variadic-keyword
    parameter, an override whose name is no parameter's is dropped: the
    resolver's outcome is the one without it and holds no triple of that
    name, setup ends in the same error or the same widgets as without it, no
    widget of the container is bound to the name, and whatever the user
    changes and however often the callback is invoked afterwards, no call of
    the target passes it. *)
Theorem C10_unmatched_override_dropped
    (f0 : pyfunction) (params : list Param) (kwargs : dict) (k : string)
    (st : store) :
  f_signature f0 = Some params ->
  (forall p, In p params -> name p <> k /\ kind p <> VAR_KEYWORD) ->
  find_abbreviations f0 (own_kwargs kwargs)
    = find_abbreviations f0 (own_kwargs (dict_pop k kwargs))
  /\ (forall nk, find_abbreviations f0 (own_kwargs kwargs) = Ok nk ->
        ~ In k (map triple_name nk))
  /\ built (interactive_init f0 kwargs st)
     = built (interactive_init f0 (dict_pop k kwargs) st)
  /\ (forall c st',
        interactive_init f0 kwargs st = (Ok c, st') ->
        (forall r, In r (kwargs_widgets c) ->
           exists w n, nth_error st' r = Some w /\ _kwarg w = Some n
                       /\ n <> k)
        /\ (forall w0 c' w' kw,
              objs w0 = st' -> session c w0 c' w' ->
              In (ECall kw) (trace w') ->
              In (ECall kw) (trace w0) \/ dict_get k kw = None)).
Proof.
  intros Hs Hp.
  assert (E : find_abbreviations f0 (own_kwargs kwargs)
              = find_abbreviations f0 (own_kwargs (dict_pop k kwargs))).
  { rewrite own_kwargs_pop. symmetry.
    apply (find_abbreviations_drop k f0 params _ Hs Hp). }
  assert (N : forall nk, find_abbreviations f0 (own_kwargs kwargs) = Ok nk ->
                forall n, In n (map triple_name nk) -> n <> k).
  { intros nk. unfold find_abbreviations. rewrite Hs.
    destruct (find_abbreviations_loop params (own_kwargs kwargs) [])
      as [[acc kw']|e] eqn:L; [|discriminate].
    cbn [rbind]. intros X; injection X as <-. intros n Hn.
    destruct (find_abbreviations_loop_names params _ _ _ _
                (fun p H => proj2 (Hp p H)) L n Hn) as [[]|I].
    apply in_map_iff in I. destruct I as (p & <- & Ip).
    exact (proj1 (Hp p Ip)). }
  split; [exact E|]. split; [|split].
  - intros nk Hnk I. exact (N nk Hnk k I eq_refl).
  - rewrite !built_unfold, E. reflexivity.
  - intros c st'. rewrite interactive_init_unfold.
    destruct (find_abbreviations f0 (own_kwargs kwargs)) as [nk|e] eqn:F;
      [|discriminate].
    destruct (validate_call f0 nk) as [[]|e]; [|discriminate].
    destruct (widgets_from_abbreviations nk st) as [[kws|e] st1] eqn:W;
      [|discriminate].
    destruct (assemble_ok f0
                (fst (dict_pop_default "clear_output" (VBool true) kwargs))
                (fst (dict_pop_default "__manual" (VBool false)
                        (dict_pop "clear_output" kwargs))) kws st1)
      as (c0 & extra & -> & _ & Hk & _).
    intros X; injection X as <- <-.
    assert (B : forall r, In r (kwargs_widgets c0) ->
                  bound_in (map triple_name nk) (st1 ++ extra)%list r).
    { rewrite Hk. intros r Hr.
      apply (bound_in_keeps _ st1); [apply keeps_app|].
      apply (widgets_from_abbreviations_loop_bound _ nk [] kws st st1 W);
        [intros t Ht; now apply in_map | intros ? [] | exact Hr]. }
    split.
    + intros r Hr. destruct (B r Hr) as (w & n & Ew & Kw & In0).
      exists w, n. repeat split; try assumption. exact (N nk eq_refl n In0).
    + intros w0 c' w' kw Ho Hc Hin. rewrite <- Ho in B.
      destruct (session_calls _ _ _ _ _ B Hc) as (_ & _ & T).
      destruct (T kw Hin) as [H|H]; [now left|]. right.
      destruct (dict_get k kw) eqn:G; [|reflexivity]. exfalso.
      apply (N nk eq_refl k); [|reflexivity]. apply H. congruence.
Qed.

Lemma C10_witness :
  find_abbreviations (example_function (firstn 2 example_params))
    (own_kwargs [("stray", VInt 7)])
  = Ok [("x", VTuple [VInt 0; VInt 10], VInt 5); ("y", VInt 2, VInt 2)]
  /\ built (interactive_init (example_function (firstn 2 example_params))
              [("stray", VInt 7)] [])
     = Ok [0; 1]%nat.
Proof.
  destruct (C10_unmatched_override_dropped
              (example_function (firstn 2 example_params))
              (firstn 2 example_params) [("stray", VInt 7)] "stray" []
              eq_refl) as (A & _ & B & _).
  - intros p [<-|[<-|[]]]; split; discriminate.
  - split; [rewrite A | rewrite B]; reflexivity.
Defined.

(** ** Claims on the callback *)

(** C1 (what the code does).  The factory returns a [fixed] wrapper as it is,
    without touching the store, and no container built over that store
    displays it among its children; but once the wrapper is among the
    container's widgets, no invocation of the callback calls the target
    function: reading the wrapper with [get_interact_value] raises before the
    call, so its value is never passed on. *)
Theorem C1_fixed_value_never_passed
    (self : interactive) (w : world) (r : ref) (dflt : pyval) :
  has_class is_fixed (objs w) r = true ->
  widget_from_abbrev (VObj r) dflt (objs w) = (Ok (Some r), objs w)
  /\ (forall f0 kwargs c st',
        interactive_init f0 kwargs (objs w) = (Ok c, st') ->
        ~ In r (children c))
  /\ (In r (kwargs_widgets self) ->
      forall self' w' e kw,
        call_f self w = (self', w', e) ->
        In (ECall kw) (trace w') -> In (ECall kw) (trace w)).
Proof.
  intros Hf. split; [|split].
  - unfold widget_from_abbrev, is_widget_or_fixed.
    unfold has_class in Hf. destruct (nth_error (objs w) r) as [x|];
      [|discriminate].
    rewrite Hf, orb_true_r. reflexivity.
  - intros f0 kwargs c st'. now apply fixed_not_displayed.
  - intros Hin self' w' e kw Hc Hk.
    destruct (call_f_calls _ _ _ _ _ _ Hc Hk) as [H|H]; [exact H|].
    destruct (read_widgets_fixed (objs w) _ [] r Hin Hf) as (kw' & e' & R).
    congruence.
Qed.

Lemma C1_witness :
  exists c st,
    fixed_container = (Ok c, st)
    /\ kwargs_widgets c = [0; 1]%nat /\ children c = [1; 2]%nat
    /\ nth_error st 0 = Some (set_kwarg "a"
                                (set_description "a" (blank fixed (VInt 5))))
    /\ forall shell sink,
         let w := {| objs := st; trace := []; ip := shell;
                     swallows := sink |} in
         snd (call_f c w) = None
         /\ forall kw, ~ In (ECall kw) (trace (snd (fst (call_f c w)))).
Proof.
  eexists. eexists. split; [vm_compute; reflexivity|].
  split; [reflexivity|]. split; [reflexivity|]. split; [reflexivity|].
  intros shell sink w. split; [destruct shell; reflexivity|].
  intros kw H.
  match type of H with
  | In _ (trace (snd (fst (call_f ?c _)))) =>
      destruct (C1_fixed_value_never_passed c w 0%nat VEmpty eq_refl)
        as (_ & _ & N);
      destruct (call_f c w) as [[c' w'] e] eqn:E;
      exact (N (or_introl eq_refl) c' w' e kw eq_refl H)
  end.
Defined.


(** C9. In manual mode an invocation first sets the trigger button's
    [disabled] flag to true, and the flag is true in the store from then
    until the [try] block is left: while the widgets are read and the
    target is called.  The invocation ends by setting the flag to false, so
    that the button is left enabled, otherwise as it was.  The host sees
    the two changes as the first and the last event of the invocation, with
    no change of any such flag in between.  All this holds on every path,
    whatever the target function or the widgets do. *)
Theorem C9_trigger_disabled_during_invocation
    (self : interactive) (w : world) (b : ref) (wb : widget) :
  truthy (manual self) = true -> manual_button self = Some b ->
  nth_error (objs w) b = Some wb ->
  exists self' w' e evs wb0 wb',
    call_f self w = (self', w', e)
    /\ trace w' = (trace w ++ EDisabled b true :: evs
                     ++ [EDisabled b false])%list
    /\ (forall b' v, ~ In (EDisabled b' v) evs)
    /\ (let w0 := set_button b true w in
        nth_error (objs w0) b = Some wb0 /\ disabled wb0 = true
        /\ objs (snd (fst (call_f_try (set_self self [] (self_result self))
                             w0))) = objs w0)
    /\ nth_error (objs w') b = Some wb' /\ disabled wb' = false
    /\ wb' = set_disabled false wb.
Proof.
  intros Hm Hb Hw. rewrite (call_f_manual self w b Hm Hb).
  pose proof (body_events (set_self self [] (self_result self))
                (after w (list_update (objs w) b (set_disabled true))
                   [EDisabled b true])) as B.
  destruct (body _ _) as [[evs e0] [kw0 r0]] eqn:Eb.
  pose proof (report_events (ip w) e0) as R.
  destruct (report (ip w) e0) as [rep e1]. cbn [fst] in R.
  eexists. eexists. exists e1, (evs ++ rep)%list.
  exists (set_disabled true wb), (set_disabled false wb).
  split; [reflexivity|]. cbn [after trace objs]. split; [|split; [|split]].
  - now rewrite <- app_assoc.
  - intros b' v H. apply in_app_iff in H. destruct H as [H|H].
    + destruct B as (_ & _ & B). exact (B b' v H).
    + destruct (R _ H) as [x [X|X]]; discriminate.
  - cbn zeta. rewrite call_f_try_body.
    change (set_button b true w)
      with (after w (list_update (objs w) b (set_disabled true))
              [EDisabled b true]).
    rewrite Eb. cbn [fst snd after objs].
    rewrite nth_error_list_update, Nat.eqb_refl, Hw.
    repeat split.
  - rewrite !nth_error_list_update, Nat.eqb_refl, Hw. repeat split.
Qed.

Lemma C9_witness :
  exists c st,
    manual_container (example_function []) = (Ok c, st)
    /\ exists self' w' e evs wb0 wb',
         call_f c {| objs := st; trace := []; ip := true;
                     swallows := fun _ => false |} = (self', w', e)
         /\ trace w' = EDisabled 0 true :: (evs ++ [EDisabled 0 false])%list
         /\ disabled wb0 = true
         /\ nth_error (objs w') 0 = Some wb' /\ disabled wb' = false.
Proof.
  eexists. eexists. split; [vm_compute; reflexivity|].
  match goal with
  | |- exists _ _ _ _ _ _, call_f ?c ?w = _ /\ _ =>
      destruct (C9_trigger_disabled_during_invocation c w 0%nat
                  (blank_button "Run f") eq_refl eq_refl eq_refl)
        as (self' & w' & e & evs & wb0 & wb' & E & T & _ & (_ & D0 & _)
            & D1 & D2 & _)
  end.
  exists self', w', e, evs, wb0, wb'. repeat split; assumption.
Defined.




(** * Further properties of the module *)

(** ** Scalar abbreviations *)

Section Scalars.

Lemma int_to_float_small :
  int_to_float 1 = Ok float_one /\ int_to_float 3 = Ok float_three.
Proof. split; vm_compute; reflexivity. Qed.

Lemma py_eq_int (a b : Z) : py_eq (PInt a) (PInt b) = (a =? b).
Proof.
  unfold py_eq, py_compare. destruct (Z.compare_spec a b) as [->|H|H].
  - now rewrite Z.eqb_refl.
  - symmetry. apply Z.eqb_neq. lia.
  - symmetry. apply Z.eqb_neq. lia.
Qed.

End Scalars.

(** X1. A bare integer [z] becomes an integer-range control holding [z],
    whatever default accompanies it, with bounds (0, 1) for 0, (-z, 3z) for
    z > 0 and (3z, -z) for z < 0: the value always lies within the bounds,
    which are never equal. *)
Theorem X1_int_scalar_slider (z : Z) (dflt : pyval) (st : store) :
  let '(mn, mx) := int_scalar_bounds z in
  widget_from_abbrev (VInt z) dflt st
  = (Ok (Some (List.length st)),
     (st ++ [slider IntSlider (PInt z) (PInt mn) (PInt mx) None])%list)
  /\ mn <= z <= mx /\ mn < mx.
Proof.
  unfold int_scalar_bounds, widget_from_abbrev. cbn [is_widget_or_fixed].
  unfold bind at 1. unfold widget_from_single_value, bind, lift.
  unfold _get_min_max_value. rewrite py_eq_int, py_gt_int.
  destruct (Z.eqb_spec z 0) as [->|Hz]; [repeat split; lia|].
  destruct (Z.ltb_spec 0 z); repeat split; lia.
Qed.

(** X2. A bare float becomes a real-range control holding it, whatever the
    default: the module's own computation raises on no float (comparing a
    float with 0 and multiplying it by 3 raise nothing, NaN and the
    infinities included), and the bounds are (x, x + 1) when x == 0,
    (-x, 3x) when x > 0 and (3x, -x) otherwise, in binary64 arithmetic. *)
Theorem X2_float_scalar_slider (x : float) (dflt : pyval) (st : store) :
  let '(mn, mx) := float_scalar_bounds x in
  widget_from_abbrev (VFloat x) dflt st
  = (Ok (Some (List.length st)),
     (st ++ [slider FloatSlider (PFloat x) mn mx None])%list).
Proof.
  unfold float_scalar_bounds, widget_from_abbrev. cbn [is_widget_or_fixed].
  unfold bind at 1. unfold widget_from_single_value, bind, lift.
  unfold _get_min_max_value, py_add, py_mul, arith.
  destruct int_to_float_small as [-> ->]. cbn [rbind].
  destruct (py_eq (PFloat x) (PInt 0)); [reflexivity|].
  destruct (py_gt (PFloat x) (PInt 0)); reflexivity.
Qed.

Section FreshControls.

Lemma unlabelled_set_value (c : wclass) (w : widget) (v : pyval) :
  unlabelled c w -> unlabelled c (set_value v w).
Proof. intros H. exact H. Qed.

(** A new control followed by the attempt to apply a default. *)
Lemma fresh_then_default (c : wclass) (w : widget) (d : pyval) (st : store) :
  unlabelled c w ->
  exists w',
    apply_default (Some (List.length st)) d (st ++ [w])%list
    = (Ok tt, (st ++ [w'])%list)
    /\ unlabelled c w' /\ (w' = w \/ w' = set_value d w).
Proof.
  intros U. destruct (apply_default_fresh st w d) as (w' & E & W).
  exists w'. split; [exact E|]. split; [|exact W].
  destruct W as [->| ->]; [exact U | now apply unlabelled_set_value].
Qed.

Lemma reals_of (o : list pyval) (xs : list pynum) :
  map as_real o = map Some xs -> reals o = xs.
Proof.
  revert xs. induction o as [|v o IH]; intros [|x xs] E; try discriminate;
    [reflexivity|].
  cbn in E. injection E as E1 E2. unfold reals. cbn [flat_map].
  rewrite E1. cbn [app]. f_equal. now apply IH.
Qed.

Lemma matches_all_real (o : list pyval) (n : nat) :
  _matches o n = true ->
  exists xs, map as_real o = map Some xs /\ List.length xs = n.
Proof.
  unfold _matches. intros H. apply andb_true_iff in H. destruct H as [L F].
  apply Nat.eqb_eq in L. subst n. clear - F.
  induction o as [|v o IH]; [now exists []|].
  cbn in F. destruct (as_real v) as [x|] eqn:E; [|discriminate].
  destruct (IH F) as (xs & Exs & Lxs). exists (x :: xs). cbn.
  rewrite E, Exs, Lxs. now split.
Qed.

(** A tuple that resolves gives a new slider of the class of its
    elements. *)
Lemma widget_from_tuple_fresh (o : list pyval) (st st' : store) (r : ref) :
  widget_from_tuple o st = (Ok (Some r), st') ->
  exists w, r = List.length st /\ st' = (st ++ [w])%list
            /\ unlabelled (slider_cls (reals o)) w.
Proof.
  unfold widget_from_tuple.
  destruct (_matches o 2) eqn:M2.
  - destruct (matches_all_real o 2 M2) as (xs & E & L).
    rewrite (reals_of o xs E). rewrite E.
    destruct xs as [|x0 [|x1 [|]]]; try discriminate L. cbn [map].
    unfold bind, lift, ret, new_slider, alloc.
    destruct (_get_min_max_value _ _ None None) as [[[mn mx] v]|];
      [|discriminate].
    intros X; injection X as <- <-. eexists. repeat split.
  - destruct (_matches o 3) eqn:M3; [|discriminate].
    destruct (matches_all_real o 3 M3) as (xs & E & L).
    rewrite (reals_of o xs E). rewrite E.
    destruct xs as [|x0 [|x1 [|x2 [|]]]]; try discriminate L. cbn [map].
    destruct (py_le x2 (PInt 0)); [discriminate|].
    unfold bind, lift, ret, new_slider, alloc.
    destruct (_get_min_max_value _ _ None (Some x2)) as [[[mn mx] v]|];
      [|discriminate].
    intros X; injection X as <- <-. eexists. repeat split.
Qed.

End FreshControls.

(** An abbreviation that is not a ready-made object and resolves gives a new
    unlabelled control of the class of its shape. *)
Lemma widget_from_abbrev_fresh
    (abbrev dflt : pyval) (st st' : store) (r : ref) :
  (forall r0, abbrev <> VObj r0) ->
  widget_from_abbrev abbrev dflt st = (Ok (Some r), st') ->
  exists w,
    r = List.length st /\ st' = (st ++ [w])%list
    /\ cls w = control_class abbrev
    /\ _kwarg w = None /\ description w = "".
Proof.
  intros Hobj. unfold widget_from_abbrev.
  assert (N : is_widget_or_fixed st abbrev = false).
  { destruct abbrev; try reflexivity. now destruct (Hobj r0). }
  rewrite N.
  assert (C : forall o,
             match o with
             | VList _ | VDict _ | VMapping _ | VIterable _ _ => True
             | _ => False
             end ->
             (do widget <- widget_from_iterable o;
              do _ <- apply_default (Some widget) dflt;
              ret (Some widget))%M st = (Ok (Some r), st') ->
             exists w, r = List.length st /\ st' = (st ++ [w])%list
                       /\ unlabelled Dropdown w).
  { intros o Ho. unfold bind, ret.
    assert (exists w, widget_from_iterable o st
                      = (Ok (List.length st), (st ++ [w])%list)
                      /\ unlabelled Dropdown w) as (w & -> & U)
      by (destruct o; try contradiction; eexists; split;
          try reflexivity; repeat split).
    destruct (fresh_then_default Dropdown w dflt st U) as (w' & -> & U' & _).
    intros X; injection X as <- <-. now exists w'. }
  destruct abbrev; try (now destruct (Hobj r0));
    cbn [widget_from_single_value is_Iterable control_class];
    try (unfold bind, ret; discriminate);
    try (intros X;
         match type of X with
         | context [widget_from_iterable ?o] =>
             destruct (C o I X) as (w & ? & ? & U1 & U2 & U3)
         end; exists w; repeat split; assumption).
  - (* bool *) unfold bind, ret, new_Checkbox, alloc.
    intros X; injection X as <- <-. eexists. repeat split.
  - (* int *) unfold bind, ret, lift, new_slider, alloc.
    destruct (_get_min_max_value None None _ None) as [[[mn mx] v]|];
      [|discriminate].
    intros X; injection X as <- <-. eexists. repeat split.
  - (* float *) unfold bind, ret, lift, new_slider, alloc.
    destruct (_get_min_max_value None None _ None) as [[[mn mx] v]|];
      [|discriminate].
    intros X; injection X as <- <-. eexists. repeat split.
  - (* str *) unfold bind, ret, new_Text, alloc.
    intros X; injection X as <- <-. eexists. repeat split.
  - (* tuple *) unfold bind at 1.
    destruct (widget_from_tuple l st) as [[[r1|]|e] st1] eqn:T;
      try (unfold bind, ret;
           destruct (apply_default None dflt st1) as [[[]|] ?];
           discriminate); try discriminate.
    destruct (widget_from_tuple_fresh l st st1 r1 T) as (w & -> & -> & U).
    unfold bind, ret.
    destruct (fresh_then_default _ w dflt st U) as (w' & -> & U' & _).
    intros X; injection X as <- <-. exists w'.
    destruct U' as (U1 & U2 & U3). repeat split; assumption.
Qed.

(** X3. Whenever an abbreviation other than a ready-made object resolves to
    a control, the control is a new object appended to the store (no
    existing object is touched), without label or binding key yet, and its
    class follows the abbreviation's shape: text for a string, toggle for a
    boolean (never a slider), integer-range for an integer, real-range for
    a float, integer-range for a tuple of integers and real-range for any
    other tuple of reals, choice for every other iterable. *)
Theorem X3_control_class_by_shape
    (abbrev dflt : pyval) (st st' : store) (r : ref) :
  (forall r0, abbrev <> VObj r0) ->
  widget_from_abbrev abbrev dflt st = (Ok (Some r), st') ->
  exists w,
    r = List.length st /\ st' = (st ++ [w])%list
    /\ cls w = control_class abbrev
    /\ _kwarg w = None /\ description w = "".
Proof. exact (widget_from_abbrev_fresh abbrev dflt st st' r). Qed.

Lemma X3_witness :
  exists w,
    widget_from_abbrev (VTuple [VInt 0; VBool true]) (VInt 1) []
    = (Ok (Some 0%nat), [w])
    /\ cls w = IntSlider.
Proof.
  destruct (X3_control_class_by_shape (VTuple [VInt 0; VBool true]) (VInt 1)
              [] [slider IntSlider (PInt 1) (PInt 0) (PInt 1) None] 0%nat
              ltac:(discriminate) eq_refl) as (w & _ & E & C & _).
  exists w. cbn [app] in E. rewrite <- E. split; [reflexivity | exact C].
Defined.

(** ** Abbreviations without a control, and defaults *)

Section NoControl.


Lemma apply_default_none (d : pyval) (st : store) :
  apply_default None d st = (Ok tt, st).
Proof. unfold apply_default. destruct (is_empty d); reflexivity. Qed.

End NoControl.



(** X5. A declared default is applied on a best-effort basis: the outcome of
    [widget_from_abbrev] with a default is the outcome without one, except
    that the value of the control just made may have been replaced by the
    default.  So a default never makes the factory raise, never adds or
    removes a control, and never touches an object that existed before. *)
Theorem X5_default_best_effort (abbrev dflt : pyval) (st : store) :
  widget_from_abbrev abbrev dflt st = widget_from_abbrev abbrev VEmpty st
  \/ exists w,
       widget_from_abbrev abbrev VEmpty st
       = (Ok (Some (List.length st)), (st ++ [w])%list)
       /\ widget_from_abbrev abbrev dflt st
          = (Ok (Some (List.length st)), (st ++ [set_value dflt w])%list).
Proof.
  unfold widget_from_abbrev.
  destruct (is_widget_or_fixed st abbrev); [now left|].
  assert (C : forall o,
             match o with
             | VList _ | VDict _ | VMapping _ | VIterable _ _ => True
             | _ => False
             end ->
             let m d := (do widget <- widget_from_iterable o;
                         do _ <- apply_default (Some widget) d;
                         ret (Some widget))%M st in
             m dflt = m VEmpty
             \/ exists w,
                  m VEmpty = (Ok (Some (List.length st)), (st ++ [w])%list)
                  /\ m dflt = (Ok (Some (List.length st)),
                               (st ++ [set_value dflt w])%list)).
  { intros o Ho m. subst m. cbv beta. unfold bind, ret.
    assert (exists w, widget_from_iterable o st
                      = (Ok (List.length st), (st ++ [w])%list)) as (w & ->)
      by (destruct o; try contradiction; eexists; reflexivity).
    destruct (apply_default_fresh st w dflt) as (w' & -> & [->| ->]).
    - left. reflexivity.
    - right. exists w. split; reflexivity. }
  destruct abbrev; try (now left);
    cbn [widget_from_single_value is_Iterable];
    try (unfold bind at 1 3; unfold ret at 1 3; cbv beta iota;
         match goal with
         | |- context [widget_from_iterable ?o] => exact (C o I)
         end).
  (* tuple *)
  unfold bind, ret.
  assert (E0 : forall a s0, apply_default a VEmpty s0 = (Ok tt, s0))
    by reflexivity.
  destruct (widget_from_tuple l st) as [[[r|]|e] st1] eqn:T.
  - destruct (widget_from_tuple_fresh l st st1 r T) as (w & -> & -> & _).
    rewrite E0.
    destruct (apply_default_fresh st w dflt) as (w' & -> & [->| ->]).
    + left. reflexivity.
    + right. exists w. split; reflexivity.
  - left. now rewrite !apply_default_none.
  - now left.
Qed.

(** ** Labelling and binding of the widgets *)

Section Labelling.

(** A resolved abbreviation is either an object of the store, returned as it
    is, or a new object at the end of the store. *)
Lemma widget_from_abbrev_shape (abbrev dflt : pyval) (st st1 : store)
    (r : ref) :
  widget_from_abbrev abbrev dflt st = (Ok (Some r), st1) ->
  (st1 = st /\ abbrev = VObj r /\ (r < List.length st)%nat)
  \/ (exists w, r = List.length st /\ st1 = (st ++ [w])%list).
Proof.
  intros E.
  assert (F : (forall r0, abbrev <> VObj r0) ->
              exists w, r = List.length st /\ st1 = (st ++ [w])%list).
  { intros N.
    destruct (widget_from_abbrev_fresh abbrev dflt st st1 r N E)
      as (w & Hr & Hs & _).
    exists w. split; assumption. }
  destruct abbrev as [| |b|z|x|s|o|l|d|d|sz l|r0|i];
    try (right; apply F; intros r1; discriminate).
  clear F. left. unfold widget_from_abbrev in E.
  destruct (is_widget_or_fixed st (VObj r0)) eqn:N.
  - injection E as <- <-. repeat split.
    unfold is_widget_or_fixed in N. apply nth_error_Some.
    destruct (nth_error st r0); [discriminate | discriminate N].
  - discriminate E.
Qed.

(** One iteration of the loop of [widgets_from_abbreviations]. *)
Lemma widgets_from_abbreviations_step (n : string) (abbrev dflt : pyval)
    (seq : list triple) (result kws : list ref) (st st' : store) :
  widgets_from_abbreviations_loop ((n, abbrev, dflt) :: seq) result st
  = (Ok kws, st') ->
  exists r st1 w,
    widget_from_abbrev abbrev dflt st = (Ok (Some r), st1)
    /\ nth_error st1 r = Some w
    /\ is_ValueWidget (cls w) || is_fixed (cls w) = true
    /\ widgets_from_abbreviations_loop seq (result ++ [r])
         (list_update st1 r (label n)) = (Ok kws, st').
Proof.
  cbn [widgets_from_abbreviations_loop]. unfold bind at 1.
  destruct (widget_from_abbrev abbrev dflt st) as [[[r|]|e] st1];
    try discriminate.
  unfold bind at 1. unfold lookup at 1.
  destruct (nth_error st1 r) as [w|] eqn:L; [|discriminate].
  destruct (is_ValueWidget (cls w) || is_fixed (cls w)) eqn:C;
    cbn [negb]; [|discriminate].
  intros E. exists r, st1, w. repeat split; try assumption.
  revert E. unfold bind at 1. unfold label.
  destruct (String.eqb (description w) "") eqn:D.
  - unfold update at 1. unfold bind at 1, update at 1.
    assert (U : list_update (list_update st1 r (set_description n)) r
                  (set_kwarg n)
                = list_update st1 r
                    (fun w0 => set_kwarg n
                       (if String.eqb (description w0) ""
                        then set_description n w0 else w0))).
    { clear - L D. revert r L. induction st1 as [|x st1 IH]; intros [|r] L;
        cbn in *; try discriminate.
      - injection L as ->. now rewrite D.
      - f_equal. now apply IH. }
    now rewrite U.
  - unfold ret at 1. unfold bind at 1, update at 1.
    assert (U : list_update st1 r (set_kwarg n)
                = list_update st1 r
                    (fun w0 => set_kwarg n
                       (if String.eqb (description w0) ""
                        then set_description n w0 else w0))).
    { clear - L D. revert r L. induction st1 as [|x st1 IH]; intros [|r] L;
        cbn in *; try discriminate.
      - injection L as ->. now rewrite D.
      - f_equal. now apply IH. }
    now rewrite U.
Qed.

Lemma length_list_update {A} (l : list A) (i : nat) (g : A -> A) :
  List.length (list_update l i g) = List.length l.
Proof.
  revert i. induction l as [|x l IH]; intros [|i]; cbn; try reflexivity.
  now rewrite IH.
Qed.

(** The loop as a whole: it returns one reference per triple after those it
    started with; objects it does not return are left as they were; and
    when the returned references are pairwise distinct, each is bound to
    the name of its own triple. *)
Lemma widgets_from_abbreviations_loop_spec (seq : list triple) :
  forall (result kws : list ref) (st st' : store),
    widgets_from_abbreviations_loop seq result st = (Ok kws, st') ->
    exists new,
      kws = (result ++ new)%list
      /\ List.length new = List.length seq
      /\ (List.length st <= List.length st')%nat
      /\ (forall r, (r < List.length st)%nat -> ~ In r new ->
            nth_error st' r = nth_error st r)
      /\ (forall r, In r new -> (r < List.length st')%nat)
      /\ (NoDup new -> Forall2 (bound_to st') new seq).
Proof.
  induction seq as [|[[n abbrev] dflt] seq IH]; intros result kws st st' E.
  - cbn in E. injection E as <- <-. exists []. rewrite app_nil_r.
    repeat split; try lia; try constructor. intros r [].
  - destruct (widgets_from_abbreviations_step _ _ _ _ _ _ _ _ E)
      as (r0 & st1 & w0 & W & L & C & E').
    destruct (IH _ _ _ _ E') as (new & -> & Ln & Ls & Un & Va & Bd).
    rewrite length_list_update in Ls, Un.
    assert (R0 : (r0 < List.length st1)%nat)
      by (apply nth_error_Some; congruence).
    assert (S1 : (List.length st <= List.length st1)%nat
                 /\ forall r, (r < List.length st)%nat ->
                      nth_error st1 r = nth_error st r).
    { destruct (widget_from_abbrev_shape _ _ _ _ _ W)
        as [(-> & _ & _)|(w & _ & ->)]; [split; [lia | reflexivity]|].
      rewrite length_app. split; [lia|]. intros r Hr.
      now rewrite nth_error_app1. }
    destruct S1 as [S1 S2].
    exists (r0 :: new). rewrite <- app_assoc. cbn [app List.length].
    repeat split; try lia.
    + intros r Hr Hn. cbn [In] in Hn.
      rewrite Un; [|lia|tauto].
      rewrite nth_error_list_update.
      destruct (Nat.eqb_spec r0 r) as [->|Ne]; [tauto|]. now apply S2.
    + intros r [<-|Hr]; [lia | now apply Va].
    + intros ND. inversion ND as [|? ? Hn0 ND']; subst.
      constructor; [|now apply Bd].
      exists (label n w0). split; [|reflexivity].
      rewrite Un; [|exact R0|exact Hn0].
      rewrite nth_error_list_update, Nat.eqb_refl, L. reflexivity.
Qed.

Lemma widgets_from_abbreviations_loop_ready (names : list string)
    (seq : list triple) :
  forall (result kws : list ref) (st st' : store),
    widgets_from_abbreviations_loop seq result st = (Ok kws, st') ->
    (forall t, In t seq -> In (triple_name t) names /\ triple_name t <> "") ->
    (forall r, In r result -> ready names st r) ->
    forall r, In r kws -> ready names st' r.
Proof.
  induction seq as [|[[n abbrev] dflt] seq IH];
    intros result kws st st' E Hn Hr.
  - cbn in E. injection E as <- <-. exact Hr.
  - destruct (widgets_from_abbreviations_step _ _ _ _ _ _ _ _ E)
      as (r0 & st1 & w0 & W & L & C & E').
    destruct (Hn (n, abbrev, dflt) (or_introl eq_refl)) as [In0 Ne0].
    cbn [triple_name fst] in In0, Ne0.
    apply (IH _ _ _ _ E'); [intros t Ht; apply Hn; now right|].
    intros r Hin. unfold ready. rewrite nth_error_list_update.
    destruct (Nat.eqb_spec r0 r) as [<-|Ne].
    + rewrite L. exists (label n w0), n. repeat split; try assumption.
      * unfold label. now destruct (String.eqb (description w0) "").
      * unfold label. destruct (String.eqb_spec (description w0) "");
          cbn [description set_kwarg set_description]; congruence.
    + apply in_app_iff in Hin. destruct Hin as [Hin|[->|[]]]; [|congruence].
      destruct (Hr r Hin) as (w & k & Ew & Cw & Kw & Ik & Dw).
      assert (Ew1 : nth_error st1 r = Some w).
      { destruct (widget_from_abbrev_shape _ _ _ _ _ W)
          as [(-> & _ & _)|(x & _ & ->)]; [exact Ew|].
        rewrite nth_error_app1; [exact Ew|].
        apply nth_error_Some. congruence. }
      exists w, k. repeat split; assumption.
Qed.

End Labelling.

(** X6. When [widgets_from_abbreviations] succeeds on triples with non-empty
    names, it returns one object per triple, and every one of them is a value
    widget or a [fixed] wrapper that carries a non-empty label and, as its
    binding key, the name of one of the triples. *)
Theorem X6_widgets_labelled_and_bound
    (seq : list triple) (kws : list ref) (st st' : store) :
  (forall t, In t seq -> triple_name t <> "") ->
  widgets_from_abbreviations seq st = (Ok kws, st') ->
  List.length kws = List.length seq
  /\ forall r, In r kws -> ready (map triple_name seq) st' r.
Proof.
  intros Hn E. unfold widgets_from_abbreviations in E. split.
  - destruct (widgets_from_abbreviations_loop_spec seq _ _ _ _ E)
      as (new & -> & L & _). exact L.
  - apply (widgets_from_abbreviations_loop_ready _ seq [] kws st st' E).
    + intros t Ht. split; [now apply in_map | now apply Hn].
    + intros r [].
Qed.

Lemma X6_witness :
  exists kws st',
    widgets_from_abbreviations
      [("x", VTuple [VInt 0; VInt 10], VInt 5); ("y", VInt 2, VInt 2)] []
    = (Ok kws, st')
    /\ List.length kws = 2%nat
    /\ forall r, In r kws -> ready ["x"; "y"] st' r.
Proof.
  eexists. eexists. split; [vm_compute; reflexivity|].
  apply (X6_widgets_labelled_and_bound
           [("x", VTuple [VInt 0; VInt 10], VInt 5); ("y", VInt 2, VInt 2)]
           _ [] _).
  - intros t [<-|[<-|[]]]; discriminate.
  - vm_compute. reflexivity.
Defined.

(** X7. When the objects [widgets_from_abbreviations] returns are pairwise
    distinct (as they are unless the caller passes one ready-made object for
    two parameters), the i-th object is bound to the name of the i-th
    triple; and every object of the store that is not returned is left
    exactly as it was. *)
Theorem X7_each_widget_bound_to_its_name
    (seq : list triple) (kws : list ref) (st st' : store) :
  widgets_from_abbreviations seq st = (Ok kws, st') ->
  (NoDup kws -> Forall2 (bound_to st') kws seq)
  /\ (forall r, (r < List.length st)%nat -> ~ In r kws ->
        nth_error st' r = nth_error st r).
Proof.
  intros E. unfold widgets_from_abbreviations in E.
  destruct (widgets_from_abbreviations_loop_spec seq _ _ _ _ E)
    as (new & -> & _ & _ & Un & _ & Bd). cbn [app]. split; assumption.
Qed.

Lemma X7_witness :
  exists kws st',
    widgets_from_abbreviations
      [("x", VTuple [VInt 0; VInt 10], VInt 5); ("y", VInt 2, VInt 2)] []
    = (Ok kws, st')
    /\ Forall2 (bound_to st') kws
         [("x", VTuple [VInt 0; VInt 10], VInt 5); ("y", VInt 2, VInt 2)].
Proof.
  eexists. eexists. split; [vm_compute; reflexivity|].
  apply (X7_each_widget_bound_to_its_name
           [("x", VTuple [VInt 0; VInt 10], VInt 5); ("y", VInt 2, VInt 2)]
           _ [] _ eq_refl).
  repeat constructor; cbn; intuition discriminate.
Defined.

(** ** Invocations *)

Section Reading.

Lemma dict_set_fresh (n : string) (v : pyval) (d : dict) :
  ~ In n (map fst d) -> dict_set n v d = (d ++ [(n, v)])%list.
Proof.
  induction d as [|[k x] d IH]; intros H; [reflexivity|]. cbn in *.
  destruct (String.eqb_spec n k) as [->|Ne]; [tauto|].
  rewrite IH; [reflexivity | tauto].
Qed.

(** Value widgets with pairwise distinct binding keys are read into the
    dictionary in their order. *)
Lemma read_widgets_shows (st : store) (ws : list ref) (kw : dict) :
  Forall2 (shows st) ws kw ->
  forall acc, NoDup (map fst (acc ++ kw)) ->
    read_widgets st ws acc = ((acc ++ kw)%list, None).
Proof.
  induction 1 as [|r [n v] ws kw (w & L & C & K & V) _ IH]; intros acc ND.
  - now rewrite app_nil_r.
  - cbn [fst snd] in K, V. cbn [read_widgets].
    rewrite L. unfold get_interact_value. rewrite C, K, V.
    rewrite dict_set_fresh.
    + rewrite IH; rewrite <- app_assoc; [reflexivity | exact ND].
    + rewrite map_app in ND. cbn [map fst] in ND.
      apply NoDup_remove_2 in ND. rewrite in_app_iff in ND. tauto.
Qed.

End Reading.

(** X8. In reactive mode, when the widgets are value widgets with pairwise
    distinct binding keys and the target returns [r] for their current
    values, one invocation of the callback does exactly this: it enters the
    output sink, clears it if [clear_output] is set, calls the target once
    with one keyword per widget (in the widgets' order), displays [r] unless
    it is None, and leaves the sink; [self.kwargs] and [self.result] hold the
    keywords and [r], no object changes, and nothing is raised. *)
Theorem X8_successful_invocation
    (self : interactive) (w : world) (kw : dict) (r : pyval) :
  truthy (manual self) = false ->
  Forall2 (shows (objs w)) (kwargs_widgets self) kw ->
  NoDup (map fst kw) ->
  f_call (f self) (trace w ++ before_call self) kw = Ok r ->
  call_f self w
  = (set_self self kw r, after w (objs w) (success_events self kw r), None).
Proof.
  intros Hm Hs Hd Hf. rewrite (call_f_reactive self w Hm).
  unfold body. cbn [kwargs_widgets set_self clear_output f self_result].
  rewrite (read_widgets_shows _ _ _ Hs [] Hd). cbn [app].
  unfold before_call in Hf. rewrite Hf. cbn [report].
  rewrite app_nil_r. reflexivity.
Qed.

Lemma X8_witness :
  exists c st,
    interactive_init returns_x [] [] = (Ok c, st)
    /\ call_f c {| objs := st; trace := []; ip := true;
   swallows := fun _ => false |}
       = (set_self c [("x", VInt 5); ("s", VStr "a")] (VInt 5),
          {| objs := st;
             trace := [EOutEnter; EClearOutput;
                       ECall [("x", VInt 5); ("s", VStr "a")];
                       EDisplay (VInt 5); EOutExit];
             ip := true;
   swallows := fun _ => false |},
          None).
Proof.
  eexists. eexists. split; [vm_compute; reflexivity|].
  match goal with
  | |- call_f ?c ?w = _ =>
      apply (X8_successful_invocation c w
               [("x", VInt 5); ("s", VStr "a")] (VInt 5))
  end.
  - reflexivity.
  - repeat constructor; eexists; repeat split; reflexivity.
  - repeat constructor; cbn; intuition discriminate.
  - reflexivity.
Defined.

(** X9. After an invocation [self.kwargs] holds what was read from the
    widgets (all of it, or what was read before a widget failed), but
    [self.result] changes only when the target returned: it is then what the
    target returned for these keywords, and the invocation raised nothing.
    When a widget cannot be read, when the target raises (whether or not the
    exception is then caught), and when the button is missing in manual
    mode, [self.result] is still the result of an earlier call. *)
Theorem X9_result_only_from_a_successful_call
    (self self' : interactive) (w w' : world) (e : option exn) :
  call_f self w = (self', w', e) ->
  (truthy (manual self) = true -> manual_button self = None ->
   self_result self' = self_result self)
  /\ ((truthy (manual self) = true -> manual_button self <> None) ->
      match read_widgets (objs w) (kwargs_widgets self) [] with
      | (kw, Some _) =>
          self_kwargs self' = kw /\ self_result self' = self_result self
      | (kw, None) =>
          self_kwargs self' = kw
          /\ match f_call (f self) (call_history self w) kw with
             | Ok r => self_result self' = r /\ e = None
             | Raise _ => self_result self' = self_result self
             end
      end).
Proof.
  intros E. split.
  - intros Hm Hb. unfold call_f in E.
    cbn [manual manual_button set_self] in E. rewrite Hm, Hb in E.
    injection E as <- _ _. reflexivity.
  - intros Hb. unfold call_history, enter_events.
    destruct (truthy (manual self)) eqn:Hm.
    + destruct (manual_button self) as [b|] eqn:B; [|now destruct Hb].
      rewrite (call_f_manual self w b Hm B) in E. unfold body in E.
      cbn [after objs trace swallows set_self kwargs_widgets clear_output f
           self_result] in E.
      rewrite read_widgets_disabled in E.
      destruct (read_widgets (objs w) (kwargs_widgets self) [])
        as [kw [x|]].
      * destruct (report (ip w) (Some x)) as [rep e1].
        injection E as <- _ _. split; reflexivity.
      * rewrite <- app_assoc in E. cbn [app] in *.
        destruct (f_call (f self) _ kw) as [r|x].
        -- cbn [report] in E. injection E as <- _ <-.
           split; [reflexivity|]. split; reflexivity.
        -- destruct (report (ip w) _) as [rep e1].
           injection E as <- _ _. split; reflexivity.
    + rewrite (call_f_reactive self w Hm) in E. unfold body in E.
      cbn [objs trace swallows set_self kwargs_widgets clear_output f
           self_result] in E.
      destruct (read_widgets (objs w) (kwargs_widgets self) [])
        as [kw [x|]].
      * destruct (report (ip w) (Some x)) as [rep e1].
        injection E as <- _ _. split; reflexivity.
      * cbn [app] in *.
        destruct (f_call (f self) _ kw) as [r|x].
        -- cbn [report] in E. injection E as <- _ <-.
           split; [reflexivity|]. split; reflexivity.
        -- destruct (report (ip w) _) as [rep e1].
           injection E as <- _ _. split; reflexivity.
Qed.

Lemma X9_witness :
  exists c st self' w',
    interactive_init fails_once [] [] = (Ok c, st)
    /\ call_f c {| objs := st; trace := []; ip := true;
                   swallows := fun _ => false |} = (self', w', None)
    /\ self_kwargs self' = [] /\ self_result self' = VNone.
Proof.
  eexists. eexists. eexists. eexists.
  split; [vm_compute; reflexivity|]. split; [vm_compute; reflexivity|].
  match goal with
  | |- self_kwargs ?s' = _ /\ _ =>
      destruct (X9_result_only_from_a_successful_call
                  {| f := fails_once; clear_output := VBool true;
                     manual := VBool false; kwargs_widgets := [];
                     manual_button := None; out := 0%nat; children := [0%nat];
                     self_result := VNone; self_kwargs := [];
                     on_click := []; on_submit := []; observed := [];
                     on_displayed := true |}
                  s' {| objs := [blank Output VNone]; trace := []; ip := true;
                        swallows := fun _ => false |}
                  _ None ltac:(vm_compute; reflexivity))
        as [_ H]
  end.
  exact (H ltac:(discriminate)).
Defined.

(** ** One object for several parameters *)

Section Sharing.

Lemma widgets_from_abbreviations_loop_last (seq : list triple) :
  forall (result kws : list ref) (st st' : store),
    widgets_from_abbreviations_loop seq result st = (Ok kws, st') ->
    exists new,
      kws = (result ++ new)%list
      /\ forall i r t,
           nth_error new i = Some r -> nth_error seq i = Some t ->
           (forall j, (i < j)%nat -> nth_error new j <> Some r) ->
           bound_to st' r t.
Proof.
  induction seq as [|[[n abbrev] dflt] seq IH]; intros result kws st st' E.
  - cbn in E. injection E as <- <-. exists []. rewrite app_nil_r.
    split; [reflexivity|]. intros [|i] r t H; discriminate H.
  - destruct (widgets_from_abbreviations_step _ _ _ _ _ _ _ _ E)
      as (r0 & st1 & w0 & W & L & C & E').
    destruct (IH _ _ _ _ E') as (new & K & P).
    destruct (widgets_from_abbreviations_loop_spec seq _ _ _ _ E')
      as (new2 & K2 & _ & _ & Un & _ & _).
    assert (new2 = new) as -> by (apply (app_inv_head (result ++ [r0]));
                                  congruence).
    rewrite length_list_update in Un.
    assert (R0 : (r0 < List.length st1)%nat)
      by (apply nth_error_Some; congruence).
    exists (r0 :: new). split; [now rewrite K, <- app_assoc|].
    intros [|i] r t Hi Ht Hl.
    + cbn in Hi, Ht. injection Hi as <-. injection Ht as <-.
      assert (N : ~ In r0 new).
      { intros Hin. apply In_nth_error in Hin. destruct Hin as [j Hj].
        apply (Hl (S j)); [lia | exact Hj]. }
      exists (label n w0). split; [|reflexivity].
      rewrite (Un r0 R0 N), nth_error_list_update, Nat.eqb_refl, L.
      reflexivity.
    + cbn in Hi, Ht. apply (P i r t Hi Ht). intros j Hj.
      apply (Hl (S j)). lia.
Qed.

End Sharing.

(** X10. Every object [widgets_from_abbreviations] returns ends up bound to
    the name of the last triple it was returned for: a ready-made widget
    passed for two parameters serves the later one only, and the earlier
    name is bound to no widget. *)
Theorem X10_shared_widget_serves_last_name
    (seq : list triple) (kws : list ref) (st st' : store)
    (i : nat) (r : ref) (t : triple) :
  widgets_from_abbreviations seq st = (Ok kws, st') ->
  nth_error kws i = Some r -> nth_error seq i = Some t ->
  (forall j, (i < j)%nat -> nth_error kws j <> Some r) ->
  bound_to st' r t.
Proof.
  intros E Hi Ht Hl. unfold widgets_from_abbreviations in E.
  destruct (widgets_from_abbreviations_loop_last seq _ _ _ _ E)
    as (new & -> & P).
  exact (P i r t Hi Ht Hl).
Qed.

Lemma X10_witness :
  exists st',
    widgets_from_abbreviations
      [("a", VObj 0, VEmpty); ("b", VObj 0, VEmpty)] [blank Text (VStr "t")]
    = (Ok [0; 0]%nat, st')
    /\ bound_to st' 0 ("b", VObj 0, VEmpty)
    /\ read_widgets st' [0; 0]%nat [] = ([("b", VStr "t")], None).
Proof.
  eexists. split; [vm_compute; reflexivity|]. split; [|reflexivity].
  apply (X10_shared_widget_serves_last_name
           [("a", VObj 0, VEmpty); ("b", VObj 0, VEmpty)] [0; 0]%nat
           [blank Text (VStr "t")] _ 1 0 _ eq_refl eq_refl eq_refl).
  intros [|[|[|j]]] Hj; try lia; discriminate.
Defined.

(** ** More on the resolver *)

Section Leftovers.

Lemma collect_var_keyword (items : dict) :
  forall (kw : dict) (acc : list triple),
    (forall k v, In (k, v) items -> v <> VEmpty) ->
    exists kw',
      collect (yield_var_keyword items kw) acc
      = Ok ((acc ++ leftovers items)%list, kw').
Proof.
  induction items as [|[k v] items IH]; intros kw acc H.
  - exists kw. cbn. now rewrite app_nil_r.
  - cbn [yield_var_keyword collect].
    assert (V : is_empty v = false)
      by (apply is_empty_false; apply (H k); now left).
    rewrite V.
    destruct (IH (dict_pop k kw) (acc ++ [(k, v, VEmpty)])%list) as [kw' E].
    { intros k' v' Hin. apply (H k'). now right. }
    exists kw'. rewrite E. cbn [leftovers map]. now rewrite <- app_assoc.
Qed.

Lemma collect_var_keyword_raise (items : dict) :
  forall (kw : dict) (acc : list triple) (e : exn),
    collect (yield_var_keyword items kw) acc = Raise e ->
    exists n, e = no_abbreviation n /\ In n (map fst items).
Proof.
  induction items as [|[k v] items IH]; intros kw acc e; [discriminate|].
  cbn [yield_var_keyword collect]. destruct (is_empty v).
  - intros E; injection E as <-. exists k. split; [reflexivity | now left].
  - intros E. destruct (IH _ _ _ E) as (n & -> & Hin).
    exists n. split; [reflexivity | now right].
Qed.

Lemma dict_pop_keys (k n : string) (d : dict) :
  In n (map fst (dict_pop k d)) -> In n (map fst d).
Proof.
  induction d as [|[k' v] d IH]; [intros []|]. cbn.
  destruct (String.eqb k k'); cbn; tauto.
Qed.

Lemma collect_var_keyword_keys (items : dict) :
  forall (kw kw' : dict) (acc acc' : list triple),
    collect (yield_var_keyword items kw) acc = Ok (acc', kw') ->
    forall n, In n (map fst kw') -> In n (map fst kw).
Proof.
  induction items as [|[k v] items IH]; intros kw kw' acc acc'.
  - cbn. intros E; injection E as <- <-. tauto.
  - cbn [yield_var_keyword collect]. destruct (is_empty v); [discriminate|].
    intros E n Hn. apply (dict_pop_keys k). exact (IH _ _ _ _ E n Hn).
Qed.

(** What one parameter's generator can make the resolver raise, and which
    keys it leaves. *)
Lemma collect_parameter (p : Param) (kw : dict) (acc : list triple) :
  match collect (_yield_abbreviations_for_parameter p kw) acc with
  | Raise e =>
      exists n, e = no_abbreviation n /\ (n = name p \/ In n (map fst kw))
  | Ok (acc', kw') => forall n, In n (map fst kw') -> In n (map fst kw)
  end.
Proof.
  unfold _yield_abbreviations_for_parameter.
  assert (K : match kind p with
              | POSITIONAL_OR_KEYWORD | KEYWORD_ONLY => True
              | _ => False
              end ->
              match
                collect
                  match dict_get (name p) kw with
                  | Some value =>
                      GYield (name p, value, default p)
                        (dict_pop (name p) kw) (GReturn (dict_pop (name p) kw))
                  | None =>
                      if negb (is_empty (annotation p))
                      then GYield (name p, annotation p, default p) kw
                             (GReturn kw)
                      else if negb (is_empty (default p))
                           then GYield (name p, default p, default p) kw
                                  (GReturn kw)
                           else GYield (name p, VEmpty, VEmpty) kw
                                  (GRaise (Exn UnboundLocalError "value") kw)
                  end acc
              with
              | Raise e =>
                  exists n, e = no_abbreviation n
                            /\ (n = name p \/ In n (map fst kw))
              | Ok (acc', kw') =>
                  forall n, In n (map fst kw') -> In n (map fst kw)
              end).
  { intros _. destruct (dict_get (name p) kw) as [v|].
    - cbn [collect]. destruct (is_empty v).
      + exists (name p). split; [reflexivity | now left].
      + intros n. apply dict_pop_keys.
    - destruct (is_empty (annotation p)) eqn:A; cbn [negb].
      + destruct (is_empty (default p)) eqn:D; cbn [negb collect is_empty].
        * exists (name p). split; [reflexivity | now left].
        * rewrite D. tauto.
      + cbn [collect]. rewrite A. tauto. }
  destruct (kind p); try (apply K; exact I); try (cbn; tauto).
  destruct (collect (yield_var_keyword kw kw) acc) as [[acc' kw']|e] eqn:E.
  - exact (collect_var_keyword_keys _ _ _ _ _ E).
  - destruct (collect_var_keyword_raise _ _ _ _ E) as (n & -> & Hin).
    exists n. split; [reflexivity | now right].
Qed.

Lemma find_abbreviations_loop_raise (params : list Param) :
  forall (kw : dict) (acc : list triple) (e : exn),
    find_abbreviations_loop params kw acc = Raise e ->
    exists n, e = no_abbreviation n
              /\ (In n (map name params) \/ In n (map fst kw)).
Proof.
  induction params as [|p params IH]; intros kw acc e; [discriminate|].
  cbn [find_abbreviations_loop].
  pose proof (collect_parameter p kw acc) as C.
  destruct (collect (_yield_abbreviations_for_parameter p kw) acc)
    as [[acc' kw']|e0]; cbn [rbind].
  - intros E. destruct (IH _ _ _ E) as (n & -> & [H|H]).
    + exists n. split; [reflexivity|]. left. now right.
    + exists n. split; [reflexivity|]. right. now apply C.
  - intros E; injection E as <-. destruct C as (n & -> & [->|H]).
    + exists (name p). split; [reflexivity|]. left. now left.
    + exists n. split; [reflexivity|]. now right.
Qed.

Lemma find_abbreviations_loop_order (params : list Param) :
  forall (kw kw' : dict) (acc acc' : list triple),
    (forall p, In p params -> kind p <> VAR_KEYWORD) ->
    find_abbreviations_loop params kw acc = Ok (acc', kw') ->
    map triple_default acc'
    = (map triple_default acc
       ++ map param_default (filter accepts_keyword params))%list.
Proof.
  induction params as [|p params IH]; intros kw kw' acc acc' Hk.
  - cbn. intros E; injection E as <- <-. now rewrite app_nil_r.
  - cbn [find_abbreviations_loop].
    assert (C : forall r,
               collect (_yield_abbreviations_for_parameter p kw) acc = Ok r ->
               map triple_default (fst r)
               = (map triple_default acc
                  ++ map param_default
                       (if accepts_keyword p then [p] else []))%list).
    { pose proof (Hk p (or_introl eq_refl)) as Hp.
      unfold _yield_abbreviations_for_parameter, accepts_keyword.
      assert (Y : forall v kw1 r,
                 collect (GYield (name p, v, default p) kw1 (GReturn kw1)) acc
                 = Ok r ->
                 map triple_default (fst r)
                 = (map triple_default acc ++ map param_default [p])%list).
      { intros v kw1 r. cbn [collect]. destruct (is_empty v); [discriminate|].
        intros E; injection E as <-. cbn [fst]. now rewrite map_app. }
      assert (R : forall r,
                 collect (GReturn kw) acc = Ok r ->
                 map triple_default (fst r)
                 = (map triple_default acc ++ map param_default [])%list).
      { intros r E; injection E as <-. cbn. now rewrite app_nil_r. }
      destruct (kind p); try contradiction; try exact R;
        (destruct (dict_get (name p) kw); [apply Y|];
         destruct (is_empty (annotation p)); cbn [negb]; [|apply Y];
         destruct (is_empty (default p)); cbn [negb]; [|apply Y];
         intros r; cbn; discriminate). }
    destruct (collect (_yield_abbreviations_for_parameter p kw) acc)
      as [[acc1 kw1]|e]; cbn [rbind]; [|discriminate].
    intros E. specialize (C _ eq_refl). cbn [fst] in C.
    rewrite (IH _ _ _ _ (fun q Hq => Hk q (or_intror Hq)) E), C.
    rewrite <- app_assoc, <- map_app. cbn [filter].
    destruct (accepts_keyword p); reflexivity.
Qed.

End Leftovers.

(** X11. With a catch-all keyword parameter at the end of the signature,
    every override no earlier parameter has consumed becomes a triple of its
    own, in the overrides' order, with its value as the abbreviation and no
    default: nothing the caller passes is dropped. *)
Theorem X11_var_keyword_takes_leftovers
    (f : pyfunction) (params : list Param) (p : Param)
    (kwargs rest : dict) (acc : list triple) :
  f_signature f = Some (params ++ [p])%list ->
  kind p = VAR_KEYWORD ->
  find_abbreviations_loop params kwargs [] = Ok (acc, rest) ->
  (forall k v, In (k, v) rest -> v <> VEmpty) ->
  find_abbreviations f kwargs = Ok (acc ++ leftovers rest)%list.
Proof.
  intros S K E H. unfold find_abbreviations. rewrite S.
  rewrite find_abbreviations_loop_app, E.
  cbn [rbind find_abbreviations_loop].
  unfold _yield_abbreviations_for_parameter. rewrite K.
  destruct (collect_var_keyword rest rest acc H) as [kw' ->]. reflexivity.
Qed.

Lemma X11_witness :
  find_abbreviations
    {| f_name := "f";
       f_signature :=
         Some [{| name := "x"; kind := POSITIONAL_OR_KEYWORD;
                  annotation := VEmpty; default := VInt 5 |};
               {| name := "kwargs"; kind := VAR_KEYWORD;
                  annotation := VEmpty; default := VEmpty |}];
       f_argspec := true; f_getcallargs := fun _ => None;
       f_call := fun _ _ => Ok VNone |}
    [("u", VBool true); ("x", VInt 1); ("v", VStr "s")]
  = Ok [("x", VInt 1, VInt 5); ("u", VBool true, VEmpty);
        ("v", VStr "s", VEmpty)].
Proof.
  apply (X11_var_keyword_takes_leftovers _
           [{| name := "x"; kind := POSITIONAL_OR_KEYWORD;
               annotation := VEmpty; default := VInt 5 |}]
           {| name := "kwargs"; kind := VAR_KEYWORD;
              annotation := VEmpty; default := VEmpty |}
           [("u", VBool true); ("x", VInt 1); ("v", VStr "s")]
           [("u", VBool true); ("v", VStr "s")]
           [("x", VInt 1, VInt 5)]).
  - reflexivity.
  - reflexivity.
  - reflexivity.
  - intros k v [H|[H|[]]]; injection H as <- <-; discriminate.
Defined.

(** X12. Whatever the signature and the overrides, the only exception the
    resolver raises is the ValueError that names an argument without widget
    or abbreviation, and the name is that of a parameter or of an override;
    in particular the read of the unassigned local after [yield not_found]
    in the generator is never reached. *)
Theorem X12_resolver_raises_only_no_abbreviation
    (f : pyfunction) (kwargs : dict) (e : exn) :
  find_abbreviations f kwargs = Raise e ->
  exists n,
    e = no_abbreviation n
    /\ ((exists params p,
           f_signature f = Some params /\ In p params /\ name p = n)
        \/ In n (map fst kwargs)).
Proof.
  unfold find_abbreviations. destruct (f_signature f) as [params|];
    [|discriminate].
  destruct (find_abbreviations_loop params kwargs []) as [[l kw']|e0] eqn:E;
    cbn [rbind]; [discriminate|].
  intros X; injection X as <-.
  destruct (find_abbreviations_loop_raise _ _ _ _ E) as (n & -> & [H|H]).
  - exists n. split; [reflexivity|]. left.
    apply in_map_iff in H. destruct H as (p & Hp & Hin).
    exists params, p. repeat split; assumption.
  - exists n. split; [reflexivity|]. now right.
Qed.

Lemma X12_witness :
  exists n,
    Exn ValueError "cannot find widget or abbreviation for argument: 'z'"
    = no_abbreviation n
    /\ ((exists params p,
           f_signature (example_function example_params) = Some params
           /\ In p params /\ name p = n)
        \/ In n (map fst (@nil (string * pyval)))).
Proof.
  apply (X12_resolver_raises_only_no_abbreviation
           (example_function example_params) []).
  vm_compute. reflexivity.
Defined.

(** X13. For a signature without a catch-all keyword parameter, a successful
    resolution has exactly one triple per parameter that can be passed by
    keyword, in the order of declaration, each with the parameter's name and
    declared default: positional-only and var-positional parameters get no
    widget, and no triple comes from anywhere else. *)
Theorem X13_one_triple_per_keyword_parameter
    (f : pyfunction) (params : list Param) (kwargs : dict)
    (new_kwargs : list triple) :
  f_signature f = Some params ->
  (forall p, In p params -> kind p <> VAR_KEYWORD) ->
  find_abbreviations f kwargs = Ok new_kwargs ->
  map triple_default new_kwargs
  = map param_default (filter accepts_keyword params).
Proof.
  intros S K. unfold find_abbreviations. rewrite S.
  destruct (find_abbreviations_loop params kwargs []) as [[l kw']|e] eqn:E;
    cbn [rbind]; [|discriminate].
  intros X; injection X as <-.
  exact (find_abbreviations_loop_order params _ _ _ _ K E).
Qed.

Lemma X13_witness :
  map triple_default
    [("x", VStr "o", VInt 5); ("y", VInt 2, VInt 2)]
  = map param_default
      (filter accepts_keyword
         [{| name := "p"; kind := POSITIONAL_ONLY;
             annotation := VEmpty; default := VEmpty |};
          {| name := "x"; kind := POSITIONAL_OR_KEYWORD;
             annotation := VEmpty; default := VInt 5 |};
          {| name := "args"; kind := VAR_POSITIONAL;
             annotation := VEmpty; default := VEmpty |};
          {| name := "y"; kind := KEYWORD_ONLY;
             annotation := VEmpty; default := VInt 2 |}]).
Proof.
  apply (X13_one_triple_per_keyword_parameter
           {| f_name := "f";
              f_signature :=
                Some [{| name := "p"; kind := POSITIONAL_ONLY;
                         annotation := VEmpty; default := VEmpty |};
                      {| name := "x"; kind := POSITIONAL_OR_KEYWORD;
                         annotation := VEmpty; default := VInt 5 |};
                      {| name := "args"; kind := VAR_POSITIONAL;
                         annotation := VEmpty; default := VEmpty |};
                      {| name := "y"; kind := KEYWORD_ONLY;
                         annotation := VEmpty; default := VInt 2 |}];
              f_argspec := true; f_getcallargs := fun _ => None;
              f_call := fun _ _ => Ok VNone |}
           _ [("x", VStr "o")] _ eq_refl).
  - intros p [<-|[<-|[<-|[<-|[]]]]]; discriminate.
  - reflexivity.
Defined.

(** ** The container and the user-facing constructors *)

Section Layout.

Lemma has_class_app (p : wclass -> bool) (st extra : store) (r : ref) :
  (r < List.length st)%nat ->
  has_class p (st ++ extra)%list r = has_class p st r.
Proof. intros H. unfold has_class. now rewrite nth_error_app1. Qed.

Lemma filter_has_class_app (p : wclass -> bool) (st extra : store)
    (ws : list ref) :
  (forall r, In r ws -> (r < List.length st)%nat) ->
  filter (has_class p (st ++ extra)%list) ws = filter (has_class p st) ws.
Proof.
  intros H. apply filter_ext_in. intros r Hr. apply has_class_app. now apply H.
Qed.

(** The steps of a successful [__init__]. *)
Lemma interactive_init_steps (f0 : pyfunction) (kwargs : dict)
    (st st' : store) (c : interactive) :
  interactive_init f0 kwargs st = (Ok c, st') ->
  exists nk kws st1,
    find_abbreviations f0 (own_kwargs kwargs) = Ok nk
    /\ validate_call f0 nk = Ok tt
    /\ widgets_from_abbreviations nk st = (Ok kws, st1)
    /\ assemble f0
         (fst (dict_pop_default "clear_output" (VBool true) kwargs))
         (fst (dict_pop_default "__manual" (VBool false)
                 (dict_pop "clear_output" kwargs)))
         kws st1 = (Ok c, st').
Proof.
  rewrite interactive_init_unfold.
  destruct (find_abbreviations f0 (own_kwargs kwargs)) as [nk|e] eqn:F;
    [|discriminate].
  destruct (validate_call f0 nk) as [[]|e] eqn:C; [|discriminate].
  destruct (widgets_from_abbreviations nk st) as [[kws|e] st1] eqn:W;
    [|discriminate].
  intros A. exists nk, kws, st1. repeat split; assumption.
Qed.

(** The container [__init__] assembles around the widgets [kws]. *)
Lemma assemble_layout (f0 : pyfunction) (co man : pyval) (kws : list ref)
    (st st' : store) (c : interactive) :
  (forall r, In r kws -> (r < List.length st)%nat) ->
  assemble f0 co man kws st = (Ok c, st') ->
  f c = f0 /\ clear_output c = co /\ manual c = man /\ kwargs_widgets c = kws
  /\ children c
     = (filter (has_class is_DOMWidget st') kws
        ++ match manual_button c with Some b => [b] | None => [] end
        ++ [out c])%list
  /\ nth_error st' (out c) = Some (blank Output VNone)
  /\ self_result c = VNone /\ self_kwargs c = []
  /\ if truthy man
     then exists b,
            manual_button c = Some b
            /\ nth_error st' b = Some (blank_button ("Run " ++ f_name f0))
            /\ on_click c = [b]
            /\ on_submit c = filter (has_class is_Text st') kws
            /\ observed c = [] /\ on_displayed c = false
     else manual_button c = None /\ on_click c = [] /\ on_submit c = []
          /\ observed c = kws /\ on_displayed c = true.
Proof.
  intros V. unfold assemble, bind, ret, new_Button, new_Output, alloc.
  destruct (truthy man) eqn:T; intros E; injection E as <- <-;
    cbn [f clear_output manual kwargs_widgets children manual_button out
         self_result self_kwargs on_click on_submit observed on_displayed];
    rewrite ?T; cbn [negb].
  - rewrite <- !app_assoc. cbn [app].
    rewrite !(filter_has_class_app _ st _ kws V).
    repeat split; try reflexivity.
    + rewrite (nth_error_app2 st); [|rewrite length_app; cbn; lia].
      rewrite length_app. cbn [List.length].
      replace (List.length st + 1 - List.length st)%nat with 1%nat by lia.
      reflexivity.
    + exists (List.length st). repeat split; try reflexivity.
      rewrite (nth_error_app2 st); [|lia].
      rewrite Nat.sub_diag. reflexivity.
  - rewrite !(filter_has_class_app _ st _ kws V).
    repeat split; try reflexivity.
    rewrite (nth_error_app2 st); [|lia]. rewrite Nat.sub_diag. reflexivity.
Qed.

Lemma interactive_init_layout (f0 : pyfunction) (kwargs : dict)
    (st st' : store) (c : interactive) :
  interactive_init f0 kwargs st = (Ok c, st') ->
  let man := fst (dict_pop_default "__manual" (VBool false)
                    (dict_pop "clear_output" kwargs)) in
  f c = f0 /\ manual c = man
  /\ children c
     = (filter (has_class is_DOMWidget st') (kwargs_widgets c)
        ++ match manual_button c with Some b => [b] | None => [] end
        ++ [out c])%list
  /\ nth_error st' (out c) = Some (blank Output VNone)
  /\ self_result c = VNone /\ self_kwargs c = []
  /\ if truthy man
     then exists b,
            manual_button c = Some b
            /\ nth_error st' b = Some (blank_button ("Run " ++ f_name f0))
            /\ on_click c = [b]
            /\ on_submit c = filter (has_class is_Text st') (kwargs_widgets c)
            /\ observed c = [] /\ on_displayed c = false
     else manual_button c = None /\ on_click c = [] /\ on_submit c = []
          /\ observed c = kwargs_widgets c /\ on_displayed c = true.
Proof.
  intros E man.
  destruct (interactive_init_steps _ _ _ _ _ E)
    as (nk & kws & st1 & _ & _ & W & A).
  fold man in A.
  assert (V : forall r, In r kws -> (r < List.length st1)%nat).
  { unfold widgets_from_abbreviations in W.
    destruct (widgets_from_abbreviations_loop_spec nk _ _ _ _ W)
      as (new & -> & _ & _ & _ & Va & _). exact Va. }
  destruct (assemble_layout _ _ _ _ _ _ _ V A)
    as (F & _ & M & K & rest).
  rewrite K. split; [exact F|]. split; [exact M|]. exact rest.
Qed.

End Layout.

Section Order.

Lemma has_class_update (p : wclass -> bool) (st : store) (r j : ref)
    (g : widget -> widget) :
  (forall w, cls (g w) = cls w) ->
  has_class p (list_update st r g) j = has_class p st j.
Proof.
  intros G. unfold has_class. rewrite nth_error_list_update.
  destruct (Nat.eqb r j); [|reflexivity].
  destruct (nth_error st j) as [w|]; cbn [option_map]; [|reflexivity].
  now rewrite G.
Qed.

(** Every object [widgets_from_abbreviations] returns is a value widget or a
    [fixed] wrapper. *)
Lemma widgets_from_abbreviations_loop_classes (seq : list triple) :
  forall (result kws : list ref) (st st' : store),
    widgets_from_abbreviations_loop seq result st = (Ok kws, st') ->
    (forall r, In r result ->
       has_class (fun k => is_ValueWidget k || is_fixed k) st r = true) ->
    forall r, In r kws ->
      has_class (fun k => is_ValueWidget k || is_fixed k) st' r = true.
Proof.
  induction seq as [|[[n abbrev] dflt] seq IH]; intros result kws st st' E Hr.
  - cbn in E. injection E as <- <-. exact Hr.
  - destruct (widgets_from_abbreviations_step _ _ _ _ _ _ _ _ E)
      as (r0 & st1 & w0 & W & L & C & E').
    apply (IH _ _ _ _ E'). intros r Hin.
    rewrite has_class_update
      by (intros x; unfold label;
          now destruct (String.eqb (description x) "")).
    apply in_app_iff in Hin. destruct Hin as [Hin|[<-|[]]].
    + specialize (Hr r Hin).
      destruct (widget_from_abbrev_shape _ _ _ _ _ W)
        as [(-> & _ & _)|(x & _ & ->)]; [exact Hr|].
      rewrite has_class_app; [exact Hr|].
      unfold has_class in Hr. apply nth_error_Some.
      destruct (nth_error st r); [discriminate | discriminate Hr].
    + unfold has_class. now rewrite L.
Qed.

Lemma bound_to_app (st extra : store) (r : ref) (t : triple) :
  bound_to st r t -> bound_to (st ++ extra)%list r t.
Proof.
  intros (w & L & K). exists w. split; [|exact K].
  rewrite nth_error_app1; [exact L|]. apply nth_error_Some. congruence.
Qed.

End Order.

(** X14. The widgets of the container [__init__] returns are those made for
    the resolved triples, one per triple and in the triples' order: each is a
    value widget or a [fixed] wrapper and, when they are pairwise distinct,
    the i-th is bound to the name of the i-th triple.  The container shows
    them in this order without the [fixed] wrappers, then the button (manual
    mode only), then the output area, a new object; it starts with no result
    and no keywords.  In manual mode (a true [__manual]) a new enabled button
    labelled "Run " followed by the function's name is the only trigger
    besides submitting a text widget: no widget is observed and nothing runs
    on display.  In reactive mode every widget is observed and the callback
    runs on display. *)
Theorem X14_container_layout
    (f0 : pyfunction) (kwargs : dict) (st st' : store) (c : interactive) :
  interactive_init f0 kwargs st = (Ok c, st') ->
  (exists nk,
     find_abbreviations f0 (own_kwargs kwargs) = Ok nk
     /\ List.length (kwargs_widgets c) = List.length nk
     /\ (NoDup (kwargs_widgets c) ->
         Forall2 (bound_to st') (kwargs_widgets c) nk)
     /\ forall r, In r (kwargs_widgets c) ->
          has_class (fun k => is_ValueWidget k || is_fixed k) st' r = true)
  /\ children c
     = (filter (has_class is_DOMWidget st') (kwargs_widgets c)
        ++ match manual_button c with Some b => [b] | None => [] end
        ++ [out c])%list
  /\ nth_error st' (out c) = Some (blank Output VNone)
  /\ self_result c = VNone /\ self_kwargs c = []
  /\ if truthy (manual c)
     then exists b,
            manual_button c = Some b
            /\ nth_error st' b = Some (blank_button ("Run " ++ f_name f0))
            /\ disabled (blank_button ("Run " ++ f_name f0)) = false
            /\ on_click c = [b]
            /\ on_submit c = filter (has_class is_Text st') (kwargs_widgets c)
            /\ observed c = [] /\ on_displayed c = false
     else manual_button c = None /\ on_click c = [] /\ on_submit c = []
          /\ observed c = kwargs_widgets c /\ on_displayed c = true.
Proof.
  intros E.
  destruct (interactive_init_layout _ _ _ _ _ E) as (_ & M & Ch & rest).
  rewrite M. split; [|split; [exact Ch|]].
  - destruct (interactive_init_steps _ _ _ _ _ E)
      as (nk & kws & st1 & F & _ & W & A).
    exists nk. split; [exact F|].
    unfold widgets_from_abbreviations in W.
    pose proof (widgets_from_abbreviations_loop_classes nk _ _ _ _ W
                  (fun r (H : In r []) => match H with end)) as Cl.
    destruct (widgets_from_abbreviations_loop_spec nk _ _ _ _ W)
      as (new & -> & Ln & _ & _ & Va & Bd). cbn [app] in *.
    destruct (assemble_ok f0
                (fst (dict_pop_default "clear_output" (VBool true) kwargs))
                (fst (dict_pop_default "__manual" (VBool false)
                        (dict_pop "clear_output" kwargs))) new st1)
      as (c0 & extra & A' & _ & Kc & _).
    rewrite A in A'. injection A' as <- ->. rewrite Kc.
    split; [exact Ln|]. split.
    + intros ND. specialize (Bd ND). clear - Bd.
      induction Bd; constructor; [now apply bound_to_app | assumption].
    + intros r Hr. rewrite has_class_app; [now apply Cl | now apply Va].
  - destruct rest as (O & R & K & Wr). repeat split; try assumption.
    destruct (truthy _); [|exact Wr].
    destruct Wr as (b & Hb & Nb & rest). exists b. repeat split; tauto.
Qed.

Lemma X14_witness :
  exists c st',
    interactive_init returns_x [("__manual", VBool true)] [] = (Ok c, st')
    /\ children c = [0; 1; 2; 3]%nat
    /\ on_submit c = [1%nat] /\ observed c = [].
Proof.
  eexists. eexists. split; [vm_compute; reflexivity|].
  match goal with
  | |- children ?c = _ /\ _ =>
      destruct (X14_container_layout returns_x [("__manual", VBool true)]
                  [] _ c ltac:(vm_compute; reflexivity))
        as (_ & Hc & _ & _ & _ & Hw)
  end.
  cbn [manual truthy] in Hw.
  destruct Hw as (b & _ & _ & _ & _ & Hs & Ho & _).
  split; [rewrite Hc; reflexivity|].
  split; [rewrite Hs; reflexivity | exact Ho].
Defined.

Section Counting.

Lemma calls_app (l1 l2 : list event) :
  calls (l1 ++ l2) = (calls l1 + calls l2)%nat.
Proof. unfold calls. now rewrite filter_app, length_app. Qed.

(** The [try] block calls the target once when every widget was read, and
    not at all otherwise. *)
Lemma body_calls (self : interactive) (w0 : world) :
  let '(evs, e, (kw, r)) := body self w0 in
  match read_widgets (objs w0) (kwargs_widgets self) [] with
  | (kw', None) => kw = kw' /\ calls evs = 1%nat /\ In (ECall kw) evs
  | (_, Some _) => calls evs = 0%nat
  end.
Proof.
  unfold body.
  destruct (read_widgets (objs w0) (kwargs_widgets self) []) as [kw [e|]];
    [reflexivity|].
  destruct (f_call (f self) _ kw) as [r|e];
    destruct (truthy (clear_output self)); try destruct r;
    (split; [reflexivity|]; split; [reflexivity|]; cbn; tauto).
Qed.

Lemma report_calls (shell : bool) (e : option exn) :
  calls (fst (report shell e)) = 0%nat
  /\ forall x, snd (report shell e) = Some x -> is_Exception x = false.
Proof.
  unfold report. destruct e as [e|]; [|split; [reflexivity | discriminate]].
  destruct (is_Exception e) eqn:X; cbn [fst snd].
  - split; [now destruct shell | discriminate].
  - split; [reflexivity|]. intros x H; injection H as <-. exact X.
Qed.

End Counting.

(** X15. [interact_manual] on a function never calls it and emits nothing:
    whatever it returns, the host's record is as before.  When it succeeds,
    the function comes back carrying a container in manual mode, whose
    trigger is a new button labelled "Run " followed by the function's name,
    with no widget observed and no result yet.  When the caller passes
    [__manual] too, the call is rejected. *)
Theorem X15_interact_manual_waits_for_the_button
    (f0 : pyfunction) (settable : bool) (kwargs : dict) (w : world) :
  let '(r, w') := interact_manual (Some f0) settable kwargs w in
  trace w' = trace w
  /\ (dict_get "__manual" kwargs <> None -> r = Raise multiple_values)
  /\ forall v, r = Ok v ->
       exists c b,
         v = Decorated {| wrapped := negb settable; target := f0;
                          widget_attr := c |}
         /\ truthy (manual c) = true
         /\ manual_button c = Some b
         /\ nth_error (objs w') b
            = Some (blank_button ("Run " ++ f_name f0))
         /\ on_click c = [b] /\ observed c = [] /\ self_result c = VNone.
Proof.
  unfold interact_manual. destruct (dict_get "__manual" kwargs) eqn:G.
  - split; [reflexivity|]. split; [reflexivity | discriminate].
  - unfold interact, interact_function.
    destruct (interactive_init f0 (("__manual", VBool true) :: kwargs) (objs w))
      as [[c|e] st] eqn:E.
    + destruct (interactive_init_layout _ _ _ _ _ E)
        as (_ & M & _ & _ & R & _ & Wr).
      change (fst (dict_pop_default "__manual" (VBool false)
                     (dict_pop "clear_output"
                        (("__manual", VBool true) :: kwargs))))
        with (VBool true) in M, Wr.
      cbn [truthy] in Wr. destruct Wr as (b & Hb & Nb & Hc & _ & Ho & Hd).
      unfold display_container. rewrite Hd.
      split; [reflexivity|]. split; [congruence|].
      intros v H; injection H as <-. exists c, b.
      rewrite M. repeat split; assumption.
    + split; [reflexivity|]. split; [congruence | discriminate].
Qed.

(** X16. In the default, reactive mode, [interact] on a function builds the
    container and runs the callback exactly once: the target is called at
    most once, and exactly once, with the widgets' initial values, when all
    of them can be read.  An exception of class Exception raised on the way
    does not reach the caller, who gets the function back with the container
    attached; only other exceptions make [interact] raise. *)
Theorem X16_interact_runs_the_target_once
    (f0 : pyfunction) (settable : bool) (kwargs : dict) (w : world)
    (c : interactive) (st : store) :
  dict_get "__manual" kwargs = None ->
  interactive_init f0 kwargs (objs w) = (Ok c, st) ->
  exists c' w' e,
    call_f c (with_objs st w) = (c', w', e)
    /\ (calls (trace w') <= calls (trace w) + 1)%nat
    /\ (forall kw, read_widgets st (kwargs_widgets c) [] = (kw, None) ->
          calls (trace w') = (calls (trace w) + 1)%nat
          /\ In (ECall kw) (trace w'))
    /\ match e with
       | None =>
           interact (Some f0) settable kwargs w
           = (Ok (Decorated {| wrapped := negb settable; target := f0;
                               widget_attr := c' |}), w')
       | Some x =>
           is_Exception x = false
           /\ interact (Some f0) settable kwargs w = (Raise x, w')
       end.
Proof.
  intros Hg E.
  destruct (interactive_init_layout _ _ _ _ _ E)
    as (_ & M & _ & _ & _ & _ & Wr).
  assert (Hman : fst (dict_pop_default "__manual" (VBool false)
                        (dict_pop "clear_output" kwargs)) = VBool false).
  { unfold dict_pop_default.
    rewrite dict_get_pop_ne by discriminate. now rewrite Hg. }
  rewrite Hman in M, Wr. cbn [truthy] in Wr.
  destruct Wr as (_ & _ & _ & _ & D).
  assert (Hm : truthy (manual c) = false) by now rewrite M.
  pose proof (call_f_reactive c (with_objs st w) Hm) as CF. cbn zeta in CF.
  pose proof (body_calls (set_self c [] (self_result c)) (with_objs st w))
    as B.
  destruct (body (set_self c [] (self_result c)) (with_objs st w))
    as [[evs e0] [kw0 r0]].
  pose proof (report_calls (ip (with_objs st w)) e0) as R.
  destruct (report (ip (with_objs st w)) e0) as [rep e1].
  cbn [fst snd] in R. destruct R as [R0 R1].
  eexists. eexists. exists e1. split; [exact CF|].
  cbn [after trace with_objs]. rewrite !calls_app, R0.
  cbn [set_self kwargs_widgets objs with_objs] in B.
  split; [|split].
  - destruct (read_widgets st (kwargs_widgets c) []) as [kw' [x|]];
      [lia | destruct B as (_ & B & _); lia].
  - intros kw Hr. rewrite Hr in B. destruct B as (-> & B1 & B2).
    split; [lia|]. rewrite !in_app_iff. tauto.
  - unfold interact, interact_function. rewrite E.
    unfold display_container. rewrite D, CF.
    destruct e1 as [x|]; [split; [now apply R1 | reflexivity] | reflexivity].
Qed.

Lemma X16_witness :
  exists c st,
    interactive_init returns_x [] [] = (Ok c, st)
    /\ exists c' w' e,
         call_f c (with_objs st {| objs := []; trace := []; ip := true;
   swallows := fun _ => false |})
         = (c', w', e)
         /\ (calls (trace w') <= calls [] + 1)%nat
         /\ (forall kw, read_widgets st (kwargs_widgets c) [] = (kw, None) ->
               calls (trace w') = (calls [] + 1)%nat
               /\ In (ECall kw) (trace w'))
         /\ match e with
            | None =>
                interact (Some returns_x) true []
                  {| objs := []; trace := []; ip := true;
   swallows := fun _ => false |}
                = (Ok (Decorated {| wrapped := negb true; target := returns_x;
                                    widget_attr := c' |}), w')
            | Some x =>
                is_Exception x = false
                /\ interact (Some returns_x) true []
                     {| objs := []; trace := []; ip := true;
   swallows := fun _ => false |}
                   = (Raise x, w')
            end.
Proof.
  eexists. eexists. split; [vm_compute; reflexivity|].
  apply (X16_interact_runs_the_target_once returns_x true []
           {| objs := []; trace := []; ip := true;
   swallows := fun _ => false |});
    [reflexivity | vm_compute; reflexivity].
Defined.

(** ** Failures of the factory *)

Section RangeErrors.

Lemma get_min_max_value_not_greater (x0 x1 : pynum) (step : option pynum) :
  py_gt x1 x0 = false ->
  _get_min_max_value (Some x0) (Some x1) None step = Raise max_not_greater.
Proof.
  intros H. unfold _get_min_max_value. rewrite H. reflexivity.
Qed.

End RangeErrors.

(** X17. A tuple of two numbers whose second is not greater than the first
    (equal bounds, inverted bounds, a NaN among them) makes the factory
    raise the ValueError on the range, with or without a positive step as
    third element and whatever the default; no widget is made. *)
Theorem X17_empty_range_raises
    (v0 v1 dflt : pyval) (x0 x1 : pynum) (st : store) :
  as_real v0 = Some x0 -> as_real v1 = Some x1 ->
  py_gt x1 x0 = false ->
  widget_from_abbrev (VTuple [v0; v1]) dflt st = (Raise max_not_greater, st)
  /\ (forall vs step,
        as_real vs = Some step -> py_le step (PInt 0) = false ->
        widget_from_abbrev (VTuple [v0; v1; vs]) dflt st
        = (Raise max_not_greater, st))
  /\ exn_type max_not_greater = ValueError.
Proof.
  intros E0 E1 H. split; [|split; [|reflexivity]].
  - apply widget_from_abbrev_tuple_raise.
    rewrite (widget_from_tuple_two v0 v1 x0 x1 st E0 E1).
    now rewrite get_min_max_value_not_greater.
  - intros vs step Es Hs. apply widget_from_abbrev_tuple_raise.
    rewrite (widget_from_tuple_three v0 v1 vs x0 x1 step st E0 E1 Es), Hs.
    now rewrite get_min_max_value_not_greater.
Qed.

Lemma X17_witness :
  widget_from_abbrev (VTuple [VInt 5; VInt 5]) (VInt 5) []
  = (Raise max_not_greater, [])
  /\ (forall vs step,
        as_real vs = Some step -> py_le step (PInt 0) = false ->
        widget_from_abbrev (VTuple [VInt 5; VInt 5; vs]) (VInt 5) []
        = (Raise max_not_greater, []))
  /\ exn_type max_not_greater = ValueError.
Proof.
  apply (X17_empty_range_raises (VInt 5) (VInt 5) (VInt 5) (PInt 5) (PInt 5));
    reflexivity.
Defined.

(** X18. Only a tuple can make the factory raise: for every other
    abbreviation [widget_from_abbrev] returns, with a widget or with None,
    whatever the default, as long as the toolkit's constructors accept what
    the module passes them. *)
Theorem X18_only_tuples_raise (abbrev dflt : pyval) (st : store) :
  (forall o, abbrev <> VTuple o) ->
  exists r st', widget_from_abbrev abbrev dflt st = (Ok r, st').
Proof.
  intros N.
  destruct abbrev as [| |b|z|x|s|o|l|d|d|sz l|r|i];
    try (match goal with
         | |- context [widget_from_abbrev ?a _ _] =>
             destruct (widget_from_abbrev_iterable a dflt st I)
               as (w & -> & _)
         end; eexists; eexists; reflexivity);
    try (eexists; eexists; reflexivity).
  - unfold widget_from_abbrev. cbn [is_widget_or_fixed].
    unfold bind at 1. unfold widget_from_single_value, bind, lift.
    unfold _get_min_max_value. rewrite py_eq_int, py_gt_int.
    destruct (z =? 0); [|destruct (0 <? z)]; eexists; eexists; reflexivity.
  - unfold widget_from_abbrev. cbn [is_widget_or_fixed].
    unfold bind at 1. unfold widget_from_single_value, bind, lift.
    unfold _get_min_max_value, py_add, py_mul, arith.
    destruct int_to_float_small as [-> ->]. cbn [rbind].
    destruct (py_eq (PFloat x) (PInt 0));
      [|destruct (py_gt (PFloat x) (PInt 0))];
      eexists; eexists; reflexivity.
  - now destruct (N o).
  - unfold widget_from_abbrev.
    destruct (is_widget_or_fixed st (VObj r)); eexists; eexists; reflexivity.
Qed.

Lemma X18_witness :
  exists r st',
    widget_from_abbrev (VFloat float_0_1) (VStr "no number") []
    = (Ok r, st').
Proof.
  apply (X18_only_tuples_raise (VFloat float_0_1)). discriminate.
Defined.

(** ** Ready-made widgets *)

Section ReadyMade.

Lemma list_update_twice {A} (l : list A) (i : nat) (g h : A -> A) :
  list_update (list_update l i g) i h = list_update l i (fun x => h (g x)).
Proof.
  revert i. induction l as [|x l IH]; intros [|i]; cbn; try reflexivity.
  now rewrite IH.
Qed.

Lemma list_update_ext_at {A} (l : list A) (i : nat) (g h : A -> A) (x : A) :
  nth_error l i = Some x -> g x = h x -> list_update l i g = list_update l i h.
Proof.
  revert i. induction l as [|y l IH]; intros [|i] L E; cbn in *;
    try discriminate.
  - injection L as ->. now rewrite E.
  - f_equal. now apply IH.
Qed.

End ReadyMade.

(** X19. A widget or [fixed] wrapper passed for a parameter is used as it
    is: the factory returns the object itself and applies no default to it,
    and [widgets_from_abbreviations] changes nothing in the store but this
    object's binding key, which becomes the parameter's name, and its
    description when that was empty; its value, class and bounds stay. *)
Theorem X19_ready_made_widget_used_as_is
    (n : string) (r : ref) (dflt : pyval) (st : store) (w : widget)
    (rest : list triple) (result : list ref) :
  nth_error st r = Some w ->
  is_ValueWidget (cls w) || is_fixed (cls w) = true ->
  widget_from_abbrev (VObj r) dflt st = (Ok (Some r), st)
  /\ widgets_from_abbreviations_loop ((n, VObj r, dflt) :: rest) result st
     = widgets_from_abbreviations_loop rest (result ++ [r])
         (list_update st r
            (fun w => set_kwarg n (if String.eqb (description w) ""
                                   then set_description n w else w)))
  /\ forall w', w' = set_kwarg n (if String.eqb (description w) ""
                                 then set_description n w else w) ->
       value w' = value w /\ cls w' = cls w /\ w_min w' = w_min w
       /\ w_max w' = w_max w /\ _kwarg w' = Some n
       /\ (description w <> "" -> description w' = description w).
Proof.
  intros L C.
  assert (WA : widget_from_abbrev (VObj r) dflt st = (Ok (Some r), st)).
  { unfold widget_from_abbrev. cbn [is_widget_or_fixed]. now rewrite L, C. }
  split; [exact WA|]. split.
  - cbn [widgets_from_abbreviations_loop]. unfold bind at 1. rewrite WA.
    unfold bind at 1. unfold lookup at 1. rewrite L, C. cbn [negb].
    unfold bind at 1.
    destruct (String.eqb (description w) "") eqn:D.
    + unfold update at 1. unfold bind at 1, update at 1.
      rewrite list_update_twice. f_equal.
      apply (list_update_ext_at st r _ _ w L). now rewrite D.
    + unfold ret at 1. unfold bind at 1, update at 1. f_equal.
      apply (list_update_ext_at st r _ _ w L). now rewrite D.
  - intros w' ->.
    destruct (String.eqb_spec (description w) ""); repeat split;
      try reflexivity; intros; congruence.
Qed.

Lemma X19_witness :
  widgets_from_abbreviations [("a", VObj 0, VInt 7)] fixed_five
  = (Ok [0%nat],
     [set_kwarg "a" (set_description "a" (blank fixed (VInt 5)))]).
Proof.
  destruct (X19_ready_made_widget_used_as_is "a" 0 (VInt 7) fixed_five
              (blank fixed (VInt 5)) [] [] eq_refl eq_refl) as (_ & E & _).
  unfold widgets_from_abbreviations.
  etransitivity; [exact E | reflexivity].
Defined.

(** ** What an invocation leaves behind *)

Section AfterInvocation.

Lemma call_f_objs (self self' : interactive) (w w' : world) (e : option exn) :
  call_f self w = (self', w', e) ->
  kwargs_widgets self' = kwargs_widgets self
  /\ (exists evs, trace w' = (trace w ++ evs)%list)
  /\ (objs w' = objs w
      \/ exists b, manual_button self = Some b
           /\ objs w' = list_update
                          (list_update (objs w) b (set_disabled true))
                          b (set_disabled false)).
Proof.
  destruct (truthy (manual self)) eqn:Hm.
  - destruct (manual_button self) as [b|] eqn:Hb.
    + rewrite (call_f_manual self w b Hm Hb).
      destruct (body _ _) as [[evs e0] [kw0 r0]].
      destruct (report (ip w) e0) as [rep e1].
      intros E; injection E as <- <- <-. cbn [set_self kwargs_widgets].
      split; [reflexivity|]. split; [eexists; reflexivity|].
      right. exists b. split; reflexivity.
    + unfold call_f. cbn [manual manual_button set_self]. rewrite Hm, Hb.
      intros E; injection E as <- <- <-. cbn [kwargs_widgets].
      split; [reflexivity|]. split; [exists []; now rewrite app_nil_r|].
      now left.
  - rewrite (call_f_reactive self w Hm).
    destruct (body _ _) as [[evs e0] [kw0 r0]].
    destruct (report (ip w) e0) as [rep e1].
    intros E; injection E as <- <- <-. cbn [set_self kwargs_widgets].
    split; [reflexivity|]. split; [eexists; reflexivity|]. now left.
Qed.

End AfterInvocation.

(** X20. An invocation of the callback, whether it succeeds, fails or is
    interrupted, changes no widget's value or binding key: the host's record
    only grows, the container keeps its widgets, and the next invocation
    reads the same keywords unless the user has changed a widget in
    between. *)
Theorem X20_invocation_leaves_widgets_alone
    (self self' : interactive) (w w' : world) (e : option exn) :
  call_f self w = (self', w', e) ->
  kwargs_widgets self' = kwargs_widgets self
  /\ (exists evs, trace w' = (trace w ++ evs)%list)
  /\ List.length (objs w') = List.length (objs w)
  /\ forall ws acc,
       read_widgets (objs w') ws acc = read_widgets (objs w) ws acc.
Proof.
  intros E. destruct (call_f_objs _ _ _ _ _ E) as (K & T & [O|(b & _ & O)]);
    rewrite O; repeat split; try assumption.
  - now rewrite !length_list_update.
  - intros ws acc. now rewrite !read_widgets_disabled.
Qed.

Lemma X20_witness :
  exists c st self' w',
    interactive_init returns_x [("__manual", VBool true)] [] = (Ok c, st)
    /\ call_f c {| objs := st; trace := []; ip := true;
   swallows := fun _ => false |} = (self', w', None)
    /\ read_widgets (objs w') (kwargs_widgets self') []
       = ([("x", VInt 5); ("s", VStr "a")], None).
Proof.
  eexists. eexists. eexists. eexists.
  split; [vm_compute; reflexivity|]. split; [vm_compute; reflexivity|].
  match goal with
  | |- read_widgets (objs ?w') (kwargs_widgets ?s') [] = _ =>
      destruct (X20_invocation_leaves_widgets_alone
                  {| f := returns_x; clear_output := VBool true;
                     manual := VBool true; kwargs_widgets := [0; 1]%nat;
                     manual_button := Some 2%nat; out := 3%nat;
                     children := [0; 1; 2; 3]%nat;
                     self_result := VNone; self_kwargs := [];
                     on_click := [2%nat]; on_submit := [1%nat];
                     observed := []; on_displayed := false |}
                  s'
                  {| objs := [label "x" (slider IntSlider (PInt 5) (PInt (-5))
                                           (PInt 15) None);
                              label "s" (blank Text (VStr "a"));
                              blank_button "Run f"; blank Output VNone];
                     trace := []; ip := true;
   swallows := fun _ => false |}
                  w' None ltac:(vm_compute; reflexivity))
        as (_ & _ & _ & R)
  end.
  rewrite R. reflexivity.
Defined.

(** ** From the signature to the call *)

Section Keywords.

Lemma shows_of_bound (st : store) (ws : list ref) (nk : list triple) :
  Forall2 (bound_to st) ws nk ->
  (forall r, In r ws -> has_class is_ValueWidget st r = true) ->
  exists kw, Forall2 (shows st) ws kw /\ map fst kw = map triple_name nk.
Proof.
  induction 1 as [|r t ws nk (w & L & K) _ IH]; intros V.
  - exists []. split; [constructor | reflexivity].
  - destruct (IH (fun r' H => V r' (or_intror H))) as (kw & S & M).
    assert (C : is_ValueWidget (cls w) = true).
    { specialize (V r (or_introl eq_refl)). unfold has_class in V.
      now rewrite L in V. }
    exists ((triple_name t, value w) :: kw). split.
    + constructor; [|exact S]. exists w. repeat split; assumption.
    + cbn [map fst]. now rewrite M.
Qed.

Lemma NoDup_map_filter {A B} (g : A -> B) (p : A -> bool) (l : list A) :
  NoDup (map g l) -> NoDup (map g (filter p l)).
Proof.
  induction l as [|x l IH]; intros H; [constructor|].
  cbn [map] in H. inversion H as [|? ? N H']; subst. cbn [filter].
  destruct (p x); [|now apply IH]. cbn [map]. constructor; [|now apply IH].
  intros I. apply N. apply in_map_iff in I. destruct I as (y & E & Hy).
  apply filter_In in Hy. apply in_map_iff. exists y. tauto.
Qed.

End Keywords.

(** X21. For a function whose signature has pairwise distinct parameter
    names and no catch-all keyword parameter: once the container is built
    from pairwise distinct value widgets, reading them gives exactly one
    keyword per parameter that can be passed by keyword, named after the
    parameters and in their order of declaration.  These are the keywords
    of every call an invocation makes until the widgets change. *)
Theorem X21_keywords_are_the_parameters
    (f0 : pyfunction) (params : list Param) (kwargs : dict)
    (st st' : store) (c : interactive) :
  f_signature f0 = Some params ->
  (forall p, In p params -> kind p <> VAR_KEYWORD) ->
  NoDup (map name params) ->
  interactive_init f0 kwargs st = (Ok c, st') ->
  NoDup (kwargs_widgets c) ->
  (forall r, In r (kwargs_widgets c) ->
     has_class is_ValueWidget st' r = true) ->
  exists kw,
    read_widgets st' (kwargs_widgets c) [] = (kw, None)
    /\ map fst kw = map name (filter accepts_keyword params).
Proof.
  intros S K ND E NW V.
  destruct (interactive_init_steps _ _ _ _ _ E)
    as (nk & kws & st1 & F & _ & W & A).
  assert (N : map triple_name nk = map name (filter accepts_keyword params)).
  { unfold find_abbreviations in F. rewrite S in F.
    destruct (find_abbreviations_loop params (own_kwargs kwargs) [])
      as [[l kw']|e] eqn:L; cbn [rbind] in F; [|discriminate].
    injection F as ->.
    pose proof (find_abbreviations_loop_order params _ _ _ _ K L) as O.
    cbn [map app] in O.
    apply (f_equal (map fst)) in O. rewrite !map_map in O. exact O. }
  unfold widgets_from_abbreviations in W.
  destruct (widgets_from_abbreviations_loop_spec nk _ _ _ _ W)
    as (new & -> & _ & _ & _ & Va & Bd). cbn [app] in *.
  destruct (assemble_ok f0
              (fst (dict_pop_default "clear_output" (VBool true) kwargs))
              (fst (dict_pop_default "__manual" (VBool false)
                      (dict_pop "clear_output" kwargs))) new st1)
    as (c0 & extra & A' & _ & Kc & _).
  rewrite A in A'. injection A' as <- ->. rewrite Kc in *.
  assert (B : Forall2 (bound_to (st1 ++ extra)%list) new nk).
  { specialize (Bd NW). clear - Bd. induction Bd; constructor;
      [now apply bound_to_app | assumption]. }
  destruct (shows_of_bound _ _ _ B V) as (kw & Sh & M).
  exists kw. split; [|now rewrite M].
  apply (read_widgets_shows _ _ _ Sh []). cbn [app].
  rewrite M, N. now apply NoDup_map_filter.
Qed.

Lemma X21_witness :
  exists c st' kw,
    interactive_init returns_x [("s", VList [VStr "a"; VStr "b"])] []
    = (Ok c, st')
    /\ read_widgets st' (kwargs_widgets c) [] = (kw, None)
    /\ map fst kw = ["x"; "s"].
Proof.
  eexists. eexists.
  match goal with
  | |- exists kw, ?i = _ /\ _ =>
      let v := eval vm_compute in i in
      match v with
      | (Ok ?c, ?s) =>
          destruct (X21_keywords_are_the_parameters returns_x
                      [{| name := "x"; kind := POSITIONAL_OR_KEYWORD;
                          annotation := VEmpty; default := VInt 5 |};
                       {| name := "s"; kind := POSITIONAL_OR_KEYWORD;
                          annotation := VEmpty; default := VStr "a" |}]
                      [("s", VList [VStr "a"; VStr "b"])] [] s c)
            as (kw & R & M);
          [reflexivity
          |intros p [<-|[<-|[]]]; discriminate
          |repeat constructor; cbn; intuition discriminate
          |vm_compute; reflexivity
          |repeat constructor; cbn; intuition discriminate
          |intros r [<-|[<-|[]]]; reflexivity
          |exists kw; split; [vm_compute; reflexivity|]; split; assumption]
      end
  end.
Defined.

(** ** Integer ranges beyond the floats *)

Section WideRanges.

Lemma round_half_even_ge (n d : Z) : n / d <= round_half_even n d.
Proof.
  unfold round_half_even.
  destruct (2 * (n mod d) ?= d); [destruct (Z.even (n / d))| |]; lia.
Qed.

(** [A / 2] for an integer [A] of at least [2^1025] is too large for a
    float. *)
Lemma int_truediv_overflow (A : Z) :
  2 ^ 1025 <= A ->
  int_truediv A 2
  = Raise (overflow "integer division result too large for a float").
Proof.
  intros HA.
  assert (A0 : 0 < A).
  { assert (0 < 2 ^ 1025) by (apply Z.pow_pos_nonneg; lia). lia. }
  pose proof (Z.log2_spec A A0) as [L0 L1].
  assert (HL : 1025 <= Z.log2 A) by (apply Z.log2_le_pow2; lia).
  set (L := Z.log2 A) in *.
  assert (R : ratio_log2 A 2 = L - 1).
  { unfold ratio_log2. change (Z.log2 2) with 1. fold L.
    unfold den_at, num_at.
    destruct (Z.leb_spec 0 (L - 1)); [|lia].
    replace (2 * 2 ^ (L - 1)) with (2 ^ L)
      by (replace L with (Z.succ (L - 1)) at 1 by lia;
          rewrite Z.pow_succ_r by lia; reflexivity).
    destruct (Z.leb_spec (2 ^ L) A); [reflexivity | lia]. }
  assert (U : ratio_exp A 2 = L - 53) by (unfold ratio_exp; rewrite R; lia).
  assert (D : 2 * 2 ^ (L - 53) = 2 ^ (L - 52)).
  { replace (L - 52) with (Z.succ (L - 53)) by lia.
    rewrite Z.pow_succ_r by lia. reflexivity. }
  assert (P : 0 < 2 ^ (L - 52)) by (apply Z.pow_pos_nonneg; lia).
  assert (Q : 2 ^ 52 <= A / 2 ^ (L - 52)).
  { apply Z.div_le_lower_bound; [exact P|].
    rewrite <- Z.pow_add_r by lia. replace (L - 52 + 52) with L by lia.
    exact L0. }
  pose proof (round_half_even_ge A (2 ^ (L - 52))) as G.
  unfold int_truediv.
  destruct (Z.eqb_spec A 0) as [Z0|_]; [lia|].
  replace (A <? 0) with false by (symmetry; apply Z.ltb_ge; lia).
  rewrite (Z.abs_eq A) by lia.
  change (2 =? 0) with false. change (2 <? 0) with false.
  change (Z.abs 2) with 2. cbn [xorb].
  unfold round_ratio. rewrite U. unfold num_at, den_at.
  destruct (Z.leb_spec 0 (L - 53)); [|lia]. rewrite D.
  destruct (round_half_even A (2 ^ (L - 52))) as [|p|p] eqn:M.
  - exfalso. assert (0 < 2 ^ 52) by (apply Z.pow_pos_nonneg; lia). lia.
  - unfold float_of_mant.
    assert (52 <= Z.log2 (Z.pos p)) by (apply Z.log2_le_pow2; lia).
    destruct (Z.ltb_spec 1024 (Z.log2 (Z.pos p) + 1 + (L - 53)));
      [reflexivity | lia].
  - exfalso. assert (0 < 2 ^ 52) by (apply Z.pow_pos_nonneg; lia). lia.
Qed.

End WideRanges.

(** X22. A tuple of two integers that are [2^1025] or more apart never
    yields a slider: the first attempt at the midpoint, [diff / 2], is a
    float division and raises OverflowError before the integer fallback
    [diff // 2] is tried, whatever the default and with or without a
    positive integer step. *)
Theorem X22_wide_integer_range_overflows
    (a b : Z) (dflt : pyval) (st : store) :
  2 ^ 1025 <= b - a ->
  let too_large :=
    overflow "integer division result too large for a float" in
  widget_from_abbrev (VTuple [VInt a; VInt b]) dflt st = (Raise too_large, st)
  /\ forall s, 0 < s ->
       widget_from_abbrev (VTuple [VInt a; VInt b; VInt s]) dflt st
       = (Raise too_large, st).
Proof.
  intros H too_large.
  assert (Hab : (a <? b) = true).
  { apply Z.ltb_lt.
    assert (0 < 2 ^ 1025) by (apply Z.pow_pos_nonneg; lia). lia. }
  assert (G : forall step,
             _get_min_max_value (Some (PInt a)) (Some (PInt b)) None step
             = Raise too_large).
  { intros step. rewrite get_min_max_value_int_eq, Hab.
    unfold float_midpoint, py_truediv.
    rewrite (int_truediv_overflow (b - a) H). reflexivity. }
  split.
  - apply widget_from_abbrev_tuple_raise.
    rewrite (widget_from_tuple_two (VInt a) (VInt b) (PInt a) (PInt b) st
               eq_refl eq_refl).
    now rewrite G.
  - intros s Hs. apply widget_from_abbrev_tuple_raise.
    rewrite (widget_from_tuple_three (VInt a) (VInt b) (VInt s)
               (PInt a) (PInt b) (PInt s) st eq_refl eq_refl eq_refl).
    rewrite py_le_int.
    destruct (Z.leb_spec s 0); [lia|]. now rewrite G.
Qed.

Lemma X22_witness :
  widget_from_abbrev (VTuple [VInt 0; VInt (2 ^ 1025)]) VEmpty []
  = (Raise (overflow "integer division result too large for a float"), [])
  /\ forall s, 0 < s ->
       widget_from_abbrev (VTuple [VInt 0; VInt (2 ^ 1025); VInt s]) VEmpty []
       = (Raise (overflow "integer division result too large for a float"),
          []).
Proof.
  apply (X22_wide_integer_range_overflows 0 (2 ^ 1025) VEmpty []).
  rewrite Z.sub_0_r. apply Z.le_refl.
Defined.

(** ** Functions without a readable signature *)

Section NoSignature.

Lemma dict_pop_NoDup (k : string) (d : dict) :
  NoDup (map fst d) -> NoDup (map fst (dict_pop k d)).
Proof.
  induction d as [|[k' v] d IH]; intros H; [constructor|].
  cbn [map fst] in H. inversion H as [|? ? N H']; subst. cbn [dict_pop].
  destruct (String.eqb k k'); [now apply IH|].
  cbn [map fst]. constructor; [|now apply IH].
  intros I. apply N. exact (dict_pop_keys _ _ _ I).
Qed.

Lemma triple_name_of_items (d : dict) :
  map triple_name (map (fun '(key, value) => (key, value, value)) d)
  = map fst d.
Proof.
  induction d as [|[k v] d IH]; [reflexivity|]. cbn [map]. now rewrite IH.
Qed.

End NoSignature.

(** X23. For a callable whose signature cannot be read, the overrides are
    all there is: once the container is built from pairwise distinct value
    widgets, reading them gives exactly one keyword per override other than
    [clear_output] and [__manual], under the override's name and in the
    caller's order. *)
Theorem X23_uninspectable_function_takes_the_overrides
    (f0 : pyfunction) (kwargs : dict) (st st' : store) (c : interactive) :
  f_signature f0 = None ->
  NoDup (map fst kwargs) ->
  interactive_init f0 kwargs st = (Ok c, st') ->
  NoDup (kwargs_widgets c) ->
  (forall r, In r (kwargs_widgets c) ->
     has_class is_ValueWidget st' r = true) ->
  exists kw,
    read_widgets st' (kwargs_widgets c) [] = (kw, None)
    /\ map fst kw = map fst (own_kwargs kwargs).
Proof.
  intros S ND E NW V.
  destruct (interactive_init_steps _ _ _ _ _ E)
    as (nk & kws & st1 & F & _ & W & A).
  assert (N : map triple_name nk = map fst (own_kwargs kwargs)).
  { unfold find_abbreviations in F. rewrite S in F. injection F as <-.
    apply triple_name_of_items. }
  unfold widgets_from_abbreviations in W.
  destruct (widgets_from_abbreviations_loop_spec nk _ _ _ _ W)
    as (new & -> & _ & _ & _ & Va & Bd). cbn [app] in *.
  destruct (assemble_ok f0
              (fst (dict_pop_default "clear_output" (VBool true) kwargs))
              (fst (dict_pop_default "__manual" (VBool false)
                      (dict_pop "clear_output" kwargs))) new st1)
    as (c0 & extra & A' & _ & Kc & _).
  rewrite A in A'. injection A' as <- ->. rewrite Kc in *.
  assert (B : Forall2 (bound_to (st1 ++ extra)%list) new nk).
  { specialize (Bd NW). clear - Bd. induction Bd; constructor;
      [now apply bound_to_app | assumption]. }
  destruct (shows_of_bound _ _ _ B V) as (kw & Sh & M).
  exists kw. split; [|now rewrite M].
  apply (read_widgets_shows _ _ _ Sh []). cbn [app].
  rewrite M, N. unfold own_kwargs. now do 2 apply dict_pop_NoDup.
Qed.

Lemma X23_witness :
  exists kw,
    read_widgets
      [label "n" (slider IntSlider (PInt 3) (PInt (-3)) (PInt 9) None);
       label "t" (blank Text (VStr "a")); blank Output VNone]
      [0; 1]%nat [] = (kw, None)
    /\ map fst kw = ["n"; "t"].
Proof.
  apply (X23_uninspectable_function_takes_the_overrides
           {| f_name := "max"; f_signature := None; f_argspec := false;
              f_getcallargs := fun _ => None;
              f_call := fun _ _ => Ok VNone |}
           [("n", VInt 3); ("clear_output", VBool false); ("t", VStr "a")]
           []
           [label "n" (slider IntSlider (PInt 3) (PInt (-3)) (PInt 9) None);
            label "t" (blank Text (VStr "a")); blank Output VNone]
           {| f := {| f_name := "max"; f_signature := None;
                      f_argspec := false; f_getcallargs := fun _ => None;
                      f_call := fun _ _ => Ok VNone |};
              clear_output := VBool false; manual := VBool false;
              kwargs_widgets := [0; 1]%nat; manual_button := None;
              out := 2%nat; children := [0; 1; 2]%nat;
              self_result := VNone; self_kwargs := [];
              on_click := []; on_submit := []; observed := [0; 1]%nat;
              on_displayed := true |}).
  - reflexivity.
  - repeat constructor; cbn; intuition discriminate.
  - vm_compute. reflexivity.
  - repeat constructor; cbn; intuition discriminate.
  - intros r [<-|[<-|[]]]; reflexivity.
Defined.

(** ** The button of [interact_manual] *)

Section ManualClick.

(** What a successful [interact_manual] has built. *)
Lemma interact_manual_built (f0 : pyfunction) (settable : bool)
    (kwargs : dict) (w w1 : world) (v : interact_value) :
  interact_manual (Some f0) settable kwargs w = (Ok v, w1) ->
  exists c b,
    v = Decorated {| wrapped := negb settable; target := f0;
                     widget_attr := c |}
    /\ trace w1 = trace w /\ ip w1 = ip w
    /\ truthy (manual c) = true /\ manual_button c = Some b
    /\ nth_error (objs w1) b = Some (blank_button ("Run " ++ f_name f0)).
Proof.
  unfold interact_manual. destruct (dict_get "__manual" kwargs);
    [discriminate|].
  unfold interact, interact_function.
  destruct (interactive_init f0 (("__manual", VBool true) :: kwargs) (objs w))
    as [[c|e] st] eqn:E; [|discriminate].
  destruct (interactive_init_layout _ _ _ _ _ E)
    as (_ & M & _ & _ & _ & _ & Wr).
  change (fst (dict_pop_default "__manual" (VBool false)
                 (dict_pop "clear_output"
                    (("__manual", VBool true) :: kwargs))))
    with (VBool true) in M, Wr.
  cbn [truthy] in Wr. destruct Wr as (b & Hb & Nb & _ & _ & _ & Hd).
  unfold display_container. rewrite Hd.
  intros X; injection X as <- <-. exists c, b.
  rewrite M. repeat split; assumption.
Qed.

End ManualClick.

(** X24. After a successful [interact_manual], a click on the button (one
    invocation of the callback) calls the target at most once, and exactly
    once, with the widgets' current values, when all of them can be read;
    nothing escapes but exceptions that are not of class Exception; and the
    button is left enabled, labelled as before, for the next click. *)
Theorem X24_click_runs_the_target_once
    (f0 : pyfunction) (settable : bool) (kwargs : dict) (w w1 : world)
    (d : decorated) :
  interact_manual (Some f0) settable kwargs w = (Ok (Decorated d), w1) ->
  exists c' w' e b,
    call_f (widget_attr d) w1 = (c', w', e)
    /\ manual_button (widget_attr d) = Some b
    /\ (calls (trace w') <= calls (trace w) + 1)%nat
    /\ (forall kw,
          read_widgets (objs w1) (kwargs_widgets (widget_attr d)) []
          = (kw, None) ->
          calls (trace w') = (calls (trace w) + 1)%nat
          /\ In (ECall kw) (trace w'))
    /\ (forall x, e = Some x -> is_Exception x = false)
    /\ nth_error (objs w') b = Some (blank_button ("Run " ++ f_name f0)).
Proof.
  intros E.
  destruct (interact_manual_built _ _ _ _ _ _ E)
    as (c & b & V & T & _ & Hm & Hb & Nb).
  injection V as ->. cbn [widget_attr].
  pose proof (call_f_manual c w1 b Hm Hb) as CF. cbn zeta in CF.
  pose proof (body_calls (set_self c [] (self_result c))
                (after w1 (list_update (objs w1) b (set_disabled true))
                   [EDisabled b true])) as B.
  destruct (body (set_self c [] (self_result c))
              (after w1 (list_update (objs w1) b (set_disabled true))
                 [EDisabled b true])) as [[evs e0] [kw0 r0]].
  pose proof (report_calls (ip w1) e0) as R.
  destruct (report (ip w1) e0) as [rep e1].
  cbn [fst snd] in R. destruct R as [R0 R1].
  eexists. eexists. exists e1, b. split; [exact CF|]. split; [exact Hb|].
  cbn [after trace objs]. rewrite T.
  change (EDisabled b true :: evs ++ rep ++ [EDisabled b false])%list
    with ([EDisabled b true] ++ evs ++ rep ++ [EDisabled b false])%list.
  rewrite !calls_app, R0.
  change (calls [EDisabled b true]) with 0%nat.
  change (calls [EDisabled b false]) with 0%nat.
  cbn [set_self kwargs_widgets objs after] in B.
  rewrite read_widgets_disabled in B.
  split; [|split; [|split]].
  - destruct (read_widgets (objs w1) (kwargs_widgets c) []) as [kw' [x|]];
      [lia | destruct B as (_ & B & _); lia].
  - intros kw Hr. rewrite Hr in B. destruct B as (-> & B1 & B2).
    split; [lia|]. rewrite !in_app_iff. tauto.
  - exact R1.
  - rewrite !nth_error_list_update, Nat.eqb_refl, Nb. reflexivity.
Qed.

Lemma X24_witness :
  exists c' w' e b,
    call_f
      {| f := returns_x; clear_output := VBool true; manual := VBool true;
         kwargs_widgets := [0; 1]%nat; manual_button := Some 2%nat;
         out := 3%nat; children := [0; 1; 2; 3]%nat;
         self_result := VNone; self_kwargs := [];
         on_click := [2%nat]; on_submit := [1%nat];
         observed := []; on_displayed := false |}
      {| objs := [label "x" (slider IntSlider (PInt 5) (PInt (-5)) (PInt 15)
                               None);
                  label "s" (blank Text (VStr "a"));
                  blank_button "Run f"; blank Output VNone];
         trace := []; ip := true;
   swallows := fun _ => false |}
    = (c', w', e)
    /\ Some 2%nat = Some b
    /\ (calls (trace w') <= calls [] + 1)%nat
    /\ (forall kw,
          read_widgets
            [label "x" (slider IntSlider (PInt 5) (PInt (-5)) (PInt 15) None);
             label "s" (blank Text (VStr "a"));
             blank_button "Run f"; blank Output VNone] [0; 1]%nat []
          = (kw, None) ->
          calls (trace w') = (calls [] + 1)%nat /\ In (ECall kw) (trace w'))
    /\ (forall x, e = Some x -> is_Exception x = false)
    /\ nth_error (objs w') b = Some (blank_button ("Run " ++ "f")).
Proof.
  apply (X24_click_runs_the_target_once returns_x true []
           {| objs := []; trace := []; ip := true;
   swallows := fun _ => false |}
           {| objs := [label "x" (slider IntSlider (PInt 5) (PInt (-5))
                                    (PInt 15) None);
                       label "s" (blank Text (VStr "a"));
                       blank_button "Run f"; blank Output VNone];
              trace := []; ip := true;
   swallows := fun _ => false |}
           {| wrapped := false; target := returns_x;
              widget_attr :=
                {| f := returns_x; clear_output := VBool true;
                   manual := VBool true;
                   kwargs_widgets := [0; 1]%nat; manual_button := Some 2%nat;
                   out := 3%nat; children := [0; 1; 2; 3]%nat;
                   self_result := VNone; self_kwargs := [];
                   on_click := [2%nat]; on_submit := [1%nat];
                   observed := []; on_displayed := false |} |}).
  vm_compute. reflexivity.
Defined.
